(** * Shadowsocks relay engine of redsocks2 (shadowsocks.c)

    A shallow embedding of [shadowsocks.c]: the credential check, the
    per-connection cipher-context lifecycle, the zero-copy transform
    pipeline ([encrypt_mem], [encrypt_buffer], [decrypt_buffer]), the four
    steady-state event handlers, the relay-connected handler and the
    relay-connect entry point.

    Conventions.
    - A [struct bufferevent *] that is one of [client->client] and
      [client->relay] is a [side]; a [struct evbuffer *] is an
      [evbuffer_ref].  Every dereference reads the current connection, so
      aliasing behaves as in C.
    - A handler returns [None] where the C code would fail an [assert] or
      dereference a NULL stream, and [Some] of the connection it leaves
      behind otherwise.
    - [int] and [short] values are [Z]; buffer sizes ([size_t]) are [nat],
      they are lengths of in-memory byte runs and no arithmetic that could
      wrap is done on them in this file.
    - The cipher library (encrypt.h) and the parts of libevent and of the
      redsocks framework whose outcome the code branches on are the
      members of the classes [Cipher] and [Framework].
    - Log output is not modelled; [redsocks_log_errno] after a failed
      [bufferevent_enable] has no other effect. *)

From Stdlib Require Import ZArith List Bool Lia.
From Stdlib Require Import Init.Byte.
From Stdlib Require String Ascii.
Import ListNotations.

(** ** C strings and the credential check *)

(** [const char *]: [None] is the NULL pointer. *)
Definition cstring := option String.string.

(** Bytes before the first NUL. *)
Fixpoint strlen (s : String.string) : nat :=
  match s with
  | String.EmptyString => 0
  | String.String ch rest => if Ascii.eqb ch Ascii.zero then 0 else S (strlen rest)
  end.

Definition ss_is_valid_cred (method password : cstring) : Z :=
  match method, password with
  | Some m, Some p =>
      if (255 <? strlen m)%nat then 0%Z
      else if (255 <? strlen p)%nat then 0%Z
      else 1%Z
  | _, _ => 0%Z
  end.

(** ** The option (error) monad of the handlers *)

Definition bind {A B : Type} (m : option A) (k : A -> option B) : option B :=
  match m with
  | Some a => k a
  | None => None
  end.

Notation "'do' x <- m ; k" := (bind m (fun x => k))
  (at level 10, x name, m at level 100, k at level 200).

(** [assert(cond)] *)
Definition assert (cond : bool) : option unit :=
  if cond then Some tt else None.

(** ** libevent: evbuffer

    An evbuffer is its chain of segments, first segment first; the bytes
    of one segment are contiguous in memory. *)

Definition evbuffer := list (list byte).

Definition evbuffer_bytes (b : evbuffer) : list byte := concat b.

Definition evbuffer_get_length (b : evbuffer) : nat := length (evbuffer_bytes b).

(** [buf->first->off], or 0 for a buffer with no chain. *)
Definition evbuffer_get_contiguous_space (b : evbuffer) : nat :=
  match b with
  | [] => 0
  | chain :: _ => length chain
  end.

(** Whole chains are released while the remaining count covers them, then
    the next chain is advanced by what is left. *)
Fixpoint evbuffer_drain (b : evbuffer) (n : nat) : evbuffer :=
  match b with
  | [] => []
  | chain :: rest =>
      if (n <? length chain)%nat then skipn n chain :: rest
      else evbuffer_drain rest (n - length chain)
  end.

(** [evbuffer_pullup(buf, size)]: NULL when [size] is 0 or exceeds the
    buffer; the first chain untouched when it already holds [size] bytes;
    otherwise the first [size] bytes are gathered into a new first chain. *)
Definition evbuffer_pullup (b : evbuffer) (size : nat)
  : evbuffer * option (list byte) :=
  if ((size =? 0) || (evbuffer_get_length b <? size))%nat then (b, None)
  else
    match b with
    | [] => (b, None)
    | chain :: _ =>
        if (size <=? length chain)%nat then (b, Some chain)
        else
          let gathered := firstn size (evbuffer_bytes b) in
          (gathered :: evbuffer_drain b size, Some gathered)
    end.

(** [evbuffer_commit_space(buf, &vec, 1)] after a reservation of
    [granted] bytes: [vec.iov_len] bytes become readable; a length above
    the reservation is refused (the caller here ignores the result). *)
Definition evbuffer_commit_space (b : evbuffer) (granted : nat)
                                 (iov : list byte) : evbuffer :=
  if (length iov <=? granted)%nat then
    match iov with
    | [] => b
    | _ :: _ => b ++ [iov]
    end
  else b.

(** ** Events and callbacks *)

Definition EV_READ : Z := 2.
Definition EV_WRITE : Z := 4.

(** Truth value of the C expression [flags & ev]. *)
Definition ev_test (flags ev : Z) : bool := negb (Z.land flags ev =? 0)%Z.

Definition ss_new : Z := 0.
Definition ss_connected : Z := 1.
Definition ss_MAX : Z := 2.

Inductive side := ClientSide | RelaySide.

Definition side_eqb (a b : side) : bool :=
  match a, b with
  | ClientSide, ClientSide | RelaySide, RelaySide => true
  | _, _ => false
  end.

Inductive evbuffer_ref := input_of (s : side) | output_of (s : side).

(** The functions a bufferevent callback slot can hold. *)
Inductive callback :=
| cb_NULL
| cb_ss_client_readcb
| cb_ss_client_writecb
| cb_ss_relay_readcb
| cb_ss_relay_writecb
| cb_ss_relay_connected
| cb_redsocks_event_error
| cb_redsocks_relay_generic.

Record bufferevent := mk_bufferevent {
  input : evbuffer;
  output : evbuffer;
  enabled : Z;
  readcb : callback;
  writecb : callback;
  errorcb : callback;
  timeout_read : option Z;
  timeout_write : option Z;
  wm_write_high : nat
}.

Definition set_input (b : bufferevent) (v : evbuffer) : bufferevent :=
  mk_bufferevent v (output b) (enabled b) (readcb b) (writecb b) (errorcb b)
                 (timeout_read b) (timeout_write b) (wm_write_high b).

Definition set_output (b : bufferevent) (v : evbuffer) : bufferevent :=
  mk_bufferevent (input b) v (enabled b) (readcb b) (writecb b) (errorcb b)
                 (timeout_read b) (timeout_write b) (wm_write_high b).

Definition set_enabled (b : bufferevent) (v : Z) : bufferevent :=
  mk_bufferevent (input b) (output b) v (readcb b) (writecb b) (errorcb b)
                 (timeout_read b) (timeout_write b) (wm_write_high b).

Definition set_callbacks (b : bufferevent) (r w e : callback) : bufferevent :=
  mk_bufferevent (input b) (output b) (enabled b) r w e
                 (timeout_read b) (timeout_write b) (wm_write_high b).

Definition set_timeouts (b : bufferevent) (tr tw : option Z) : bufferevent :=
  mk_bufferevent (input b) (output b) (enabled b) (readcb b) (writecb b)
                 (errorcb b) tr tw (wm_write_high b).

(** [get_write_hwm(bufev)] (utils.h): the write high-water mark. *)
Definition get_write_hwm (b : bufferevent) : nat := wm_write_high b.

(** ** The cipher library (encrypt.h)

    A transform returns its [int] result, the bytes it wrote (their count
    is what it stores through the length pointer) and the advanced
    context; its last argument is the capacity of the output area. *)

Class Cipher := {
  enc_ctx : Type;
  enc_info : Type;
  enc_init : enc_info -> cstring -> cstring -> Z * enc_info;
  enc_ctx_init : enc_info -> enc_ctx -> Z -> Z * enc_ctx;
  enc_ctx_free : enc_ctx -> enc_ctx;
  ss_calc_buffer_size : enc_ctx -> nat -> nat;
  ss_encrypt : enc_ctx -> list byte -> nat -> Z * list byte * enc_ctx;
  ss_decrypt : enc_ctx -> list byte -> nat -> Z * list byte * enc_ctx
}.

(** What the connection has done to the outside: contexts released and
    the hand-over to the framework's drop path. *)
Inductive ctx_id := the_e_ctx | the_d_ctx.

Inductive effect :=
| eff_enc_ctx_free (which : ctx_id)
| eff_drop_client.

Definition effect_eqb (a b : effect) : bool :=
  match a, b with
  | eff_enc_ctx_free the_e_ctx, eff_enc_ctx_free the_e_ctx => true
  | eff_enc_ctx_free the_d_ctx, eff_enc_ctx_free the_d_ctx => true
  | eff_drop_client, eff_drop_client => true
  | _, _ => false
  end.

Definition count_effect (e : effect) (l : list effect) : nat :=
  length (filter (effect_eqb e) l).

(** [struct sockaddr_in]: address and port as they lie in memory (network
    byte order). *)
Record sockaddr_in := mk_sockaddr_in {
  sin_addr : byte * byte * byte * byte;
  sin_port : byte * byte
}.

Section Model.

Context {C : Cipher}.

Record ss_client := mk_ss_client {
  e_ctx : enc_ctx;
  d_ctx : enc_ctx;
  e_ctx_init : Z;
  d_ctx_init : Z
}.

Record ss_instance := mk_ss_instance {
  method : Z;
  info : enc_info
}.

Record redsocks_config := mk_redsocks_config {
  interface : cstring;
  relayaddr : sockaddr_in;
  timeout : Z;
  login : cstring;
  password : cstring
}.

(** [redsocks_instance] followed by its [ss_instance] payload. *)
Record redsocks_instance := mk_redsocks_instance {
  config : redsocks_config;
  ss_payload : ss_instance
}.

(** [redsocks_client] followed by its [ss_client] payload; [effects] is
    the record of what was released or dropped, oldest first. *)
Record redsocks_client := mk_redsocks_client {
  instance : redsocks_instance;
  client : bufferevent;
  relay : option bufferevent;
  destaddr : sockaddr_in;
  state : Z;
  relay_connected : Z;
  client_evshut : Z;
  relay_evshut : Z;
  touches : nat;
  payload : ss_client;
  effects : list effect
}.

Definition set_client (c : redsocks_client) (v : bufferevent) :=
  mk_redsocks_client (instance c) v (relay c) (destaddr c) (state c)
    (relay_connected c) (client_evshut c) (relay_evshut c) (touches c)
    (payload c) (effects c).

Definition set_relay (c : redsocks_client) (v : option bufferevent) :=
  mk_redsocks_client (instance c) (client c) v (destaddr c) (state c)
    (relay_connected c) (client_evshut c) (relay_evshut c) (touches c)
    (payload c) (effects c).

Definition set_state (c : redsocks_client) (v : Z) :=
  mk_redsocks_client (instance c) (client c) (relay c) (destaddr c) v
    (relay_connected c) (client_evshut c) (relay_evshut c) (touches c)
    (payload c) (effects c).

Definition set_relay_connected (c : redsocks_client) (v : Z) :=
  mk_redsocks_client (instance c) (client c) (relay c) (destaddr c) (state c)
    v (client_evshut c) (relay_evshut c) (touches c)
    (payload c) (effects c).

Definition set_client_evshut (c : redsocks_client) (v : Z) :=
  mk_redsocks_client (instance c) (client c) (relay c) (destaddr c) (state c)
    (relay_connected c) v (relay_evshut c) (touches c)
    (payload c) (effects c).

Definition set_relay_evshut (c : redsocks_client) (v : Z) :=
  mk_redsocks_client (instance c) (client c) (relay c) (destaddr c) (state c)
    (relay_connected c) (client_evshut c) v (touches c)
    (payload c) (effects c).

Definition set_touches (c : redsocks_client) (v : nat) :=
  mk_redsocks_client (instance c) (client c) (relay c) (destaddr c) (state c)
    (relay_connected c) (client_evshut c) (relay_evshut c) v
    (payload c) (effects c).

Definition set_payload (c : redsocks_client) (v : ss_client) :=
  mk_redsocks_client (instance c) (client c) (relay c) (destaddr c) (state c)
    (relay_connected c) (client_evshut c) (relay_evshut c) (touches c)
    v (effects c).

Definition set_effects (c : redsocks_client) (v : list effect) :=
  mk_redsocks_client (instance c) (client c) (relay c) (destaddr c) (state c)
    (relay_connected c) (client_evshut c) (relay_evshut c) (touches c)
    (payload c) v.

Definition set_e_ctx (s : ss_client) (v : enc_ctx) :=
  mk_ss_client v (d_ctx s) (e_ctx_init s) (d_ctx_init s).

Definition set_d_ctx (s : ss_client) (v : enc_ctx) :=
  mk_ss_client (e_ctx s) v (e_ctx_init s) (d_ctx_init s).

Definition set_e_ctx_init (s : ss_client) (v : Z) :=
  mk_ss_client (e_ctx s) (d_ctx s) v (d_ctx_init s).

Definition set_d_ctx_init (s : ss_client) (v : Z) :=
  mk_ss_client (e_ctx s) (d_ctx s) (e_ctx_init s) v.

(** *** Pointers into the connection *)

Definition bev_of (c : redsocks_client) (s : side) : option bufferevent :=
  match s with
  | ClientSide => Some (client c)
  | RelaySide => relay c
  end.

Definition put_bev (c : redsocks_client) (s : side) (b : bufferevent)
  : redsocks_client :=
  match s with
  | ClientSide => set_client c b
  | RelaySide => set_relay c (Some b)
  end.

Definition evshut_of (c : redsocks_client) (s : side) : Z :=
  match s with
  | ClientSide => client_evshut c
  | RelaySide => relay_evshut c
  end.

Definition bufferevent_get_input (c : redsocks_client) (s : side)
  : option evbuffer_ref :=
  do _ <- bev_of c s; Some (input_of s).

Definition bufferevent_get_output (c : redsocks_client) (s : side)
  : option evbuffer_ref :=
  do _ <- bev_of c s; Some (output_of s).

Definition get_evbuffer (c : redsocks_client) (r : evbuffer_ref)
  : option evbuffer :=
  match r with
  | input_of s => do b <- bev_of c s; Some (input b)
  | output_of s => do b <- bev_of c s; Some (output b)
  end.

Definition put_evbuffer (c : redsocks_client) (r : evbuffer_ref) (v : evbuffer)
  : redsocks_client :=
  match r with
  | input_of s =>
      match bev_of c s with
      | Some b => put_bev c s (set_input b v)
      | None => c
      end
  | output_of s =>
      match bev_of c s with
      | Some b => put_bev c s (set_output b v)
      | None => c
      end
  end.

(** [bufev->enabled |= event]; the result of the call is only logged. *)
Definition bufferevent_enable (c : redsocks_client) (s : side) (ev : Z)
  : option redsocks_client :=
  do b <- bev_of c s; Some (put_bev c s (set_enabled b (Z.lor (enabled b) ev))).

(** [bufev->enabled &= ~event] *)
Definition bufferevent_disable (c : redsocks_client) (s : side) (ev : Z)
  : option redsocks_client :=
  do b <- bev_of c s; Some (put_bev c s (set_enabled b (Z.ldiff (enabled b) ev))).

Definition bufferevent_setcb (c : redsocks_client) (s : side)
                             (r w e : callback) : option redsocks_client :=
  do b <- bev_of c s; Some (put_bev c s (set_callbacks b r w e)).

Definition bufferevent_set_timeouts (c : redsocks_client) (s : side)
                                    (tr tw : option Z) : option redsocks_client :=
  do b <- bev_of c s; Some (put_bev c s (set_timeouts b tr tw)).

(** [redsocks_touch_client] stamps the connection with the current time;
    the model counts the stamps. *)
Definition redsocks_touch_client (c : redsocks_client) : redsocks_client :=
  set_touches c (S (touches c)).

(** *** Per-connection init and teardown *)

Definition ss_client_init (c : redsocks_client) : redsocks_client :=
  set_state c ss_new.

Definition ss_client_fini (c : redsocks_client) : redsocks_client :=
  let c1 :=
    if (e_ctx_init (payload c) =? 0)%Z then c
    else
      let s := payload c in
      let s1 := set_e_ctx s (enc_ctx_free (e_ctx s)) in
      let c' := set_effects (set_payload c s1)
                            (effects c ++ [eff_enc_ctx_free the_e_ctx]) in
      set_payload c' (set_e_ctx_init (payload c') 0%Z) in
  if (d_ctx_init (payload c1) =? 0)%Z then c1
  else
    let s := payload c1 in
    let s1 := set_d_ctx s (enc_ctx_free (d_ctx s)) in
    let c' := set_effects (set_payload c1 s1)
                          (effects c1 ++ [eff_enc_ctx_free the_d_ctx]) in
    set_payload c' (set_d_ctx_init (payload c') 0%Z).

(** Modelled from the spec: [redsocks_drop_client] is defined in
    redsocks.c, which is not part of the sources at hand.  Section 6 of the
    specification describes it as the generic drop operation that performs
    final cleanup, invoking this subsystem's teardown hook, and releases
    the Connection. *)
Definition redsocks_drop_client (c : redsocks_client) : redsocks_client :=
  let c1 := ss_client_fini c in
  set_effects c1 (effects c1 ++ [eff_drop_client]).

End Model.

(** ** What the code takes from libevent and from the framework

    - [evbuffer_reserve_space buf size]: [Some granted] ([granted] bytes of
      one contiguous extent, the call returned 1) or [None] (the call
      returned -1);
    - [red_is_socket_connected_ok]: the pending error of the relay socket;
    - [start_relay_error]: the result of enabling both streams inside
      [redsocks_start_relay];
    - [process_shutdown_on_write_ client from to]: the connection it
      leaves and its [int] result;
    - [red_connect_relay_tfo interface addr readcb writecb errorcb arg
      timeout data]: the relay stream (or NULL) and the length it stores
      back through the size pointer;
    - [ss_addrtype_ipv4]: the address-type tag of shadowsocks.h. *)

Class Framework {C : Cipher} := {
  evbuffer_reserve_space : evbuffer -> nat -> option nat;
  red_is_socket_connected_ok : bufferevent -> Z;
  start_relay_error : redsocks_client -> Z;
  process_shutdown_on_write_ :
    redsocks_client -> side -> side -> redsocks_client * Z;
  red_connect_relay_tfo :
    cstring -> sockaddr_in -> callback -> callback -> callback ->
    redsocks_client -> Z -> list byte -> option bufferevent * nat;
  ss_addrtype_ipv4 : byte
}.

Section Engine.

Context {C : Cipher} {F : Framework}.

(** *** The transform pipeline *)

Definition is_null {A : Type} (p : option A) : bool :=
  match p with
  | Some _ => false
  | None => true
  end.

Definition encrypt_mem (c : redsocks_client) (data : option (list byte))
                       (len : nat) (buf_out : evbuffer_ref) (decrypt : Z)
  : option redsocks_client :=
  let sclient := payload c in
  if (len =? 0)%nat || is_null data then Some c
  else
    do bytes <- data;
    let required :=
      if (decrypt =? 0)%Z then ss_calc_buffer_size (e_ctx sclient) len
      else ss_calc_buffer_size (d_ctx sclient) len in
    if (required =? 0)%nat then Some c
    else
      do out <- get_evbuffer c buf_out;
      match evbuffer_reserve_space out required with
      | Some granted =>
          let '(rc, written, c1) :=
            if (decrypt =? 0)%Z then
              let '(rc, written, ctx) :=
                ss_encrypt (e_ctx sclient) (firstn len bytes) granted in
              (rc, written, set_payload c (set_e_ctx sclient ctx))
            else
              let '(rc, written, ctx) :=
                ss_decrypt (d_ctx sclient) (firstn len bytes) granted in
              (rc, written, set_payload c (set_d_ctx sclient ctx)) in
          let iov := if (rc =? 0)%Z then firstn 0 written else written in
          Some (put_evbuffer c1 buf_out (evbuffer_commit_space out granted iov))
      | None => Some c
      end.

Definition encrypt_buffer (c : redsocks_client) (from to : side)
  : option redsocks_client :=
  do in_ref <- bufferevent_get_input c from;
  do buf_in <- get_evbuffer c in_ref;
  let input_size := evbuffer_get_contiguous_space buf_in in
  if (input_size =? 0)%nat then Some c
  else
    let '(buf_in1, input) := evbuffer_pullup buf_in input_size in
    let c1 := put_evbuffer c in_ref buf_in1 in
    do out_ref <- bufferevent_get_output c1 to;
    do c2 <- encrypt_mem c1 input input_size out_ref 0%Z;
    do buf_in2 <- get_evbuffer c2 in_ref;
    Some (put_evbuffer c2 in_ref (evbuffer_drain buf_in2 input_size)).

Definition decrypt_buffer (c : redsocks_client) (from to : side)
  : option redsocks_client :=
  do in_ref <- bufferevent_get_input c from;
  do buf_in <- get_evbuffer c in_ref;
  let input_size := evbuffer_get_contiguous_space buf_in in
  if (input_size =? 0)%nat then Some c
  else
    let '(buf_in1, input) := evbuffer_pullup buf_in input_size in
    let c1 := put_evbuffer c in_ref buf_in1 in
    do out_ref <- bufferevent_get_output c1 to;
    do c2 <- encrypt_mem c1 input input_size out_ref 1%Z;
    do buf_in2 <- get_evbuffer c2 in_ref;
    Some (put_evbuffer c2 in_ref (evbuffer_drain buf_in2 input_size)).

(** *** The four steady-state handlers *)

Definition ss_client_writecb (buffev : side) (c : redsocks_client)
  : option redsocks_client :=
  let from := RelaySide in
  let to := buffev in
  do in_ref <- bufferevent_get_input c from;
  do buf_in <- get_evbuffer c in_ref;
  let input_size := evbuffer_get_contiguous_space buf_in in
  do out_ref <- bufferevent_get_output c to;
  do buf_out <- get_evbuffer c out_ref;
  let output_size := evbuffer_get_length buf_out in
  do _ <- assert (side_eqb buffev ClientSide);
  let c := redsocks_touch_client c in
  let '(c, handled) := process_shutdown_on_write_ c from to in
  if negb (handled =? 0)%Z then Some c
  else if (state c =? ss_connected)%Z then
    do bto <- bev_of c to;
    if (output_size <? get_write_hwm bto)%nat then
      do c <- (if negb (input_size =? 0)%nat then decrypt_buffer c from to
               else Some c);
      if negb (ev_test (relay_evshut c) EV_READ)
      then bufferevent_enable c from EV_READ
      else Some c
    else Some c
  else Some (redsocks_drop_client c).

Definition ss_client_readcb (buffev : side) (c : redsocks_client)
  : option redsocks_client :=
  let from := buffev in
  let to := RelaySide in
  do out_ref <- bufferevent_get_output c to;
  do buf_out <- get_evbuffer c out_ref;
  let output_size := evbuffer_get_length buf_out in
  do _ <- assert (side_eqb buffev ClientSide);
  let c := redsocks_touch_client c in
  if (state c =? ss_connected)%Z then
    do bto <- bev_of c to;
    if (output_size <? get_write_hwm bto)%nat then
      do c <- encrypt_buffer c from to;
      bufferevent_enable c from EV_READ
    else bufferevent_disable c from EV_READ
  else Some (redsocks_drop_client c).

Definition ss_relay_writecb (buffev : side) (c : redsocks_client)
  : option redsocks_client :=
  let from := ClientSide in
  let to := buffev in
  do in_ref <- bufferevent_get_input c from;
  do buf_in <- get_evbuffer c in_ref;
  let input_size := evbuffer_get_contiguous_space buf_in in
  do out_ref <- bufferevent_get_output c to;
  do buf_out <- get_evbuffer c out_ref;
  let output_size := evbuffer_get_length buf_out in
  do _ <- assert (side_eqb buffev RelaySide);
  let c := redsocks_touch_client c in
  let '(c, handled) := process_shutdown_on_write_ c from to in
  if negb (handled =? 0)%Z then Some c
  else if (state c =? ss_connected)%Z then
    do bto <- bev_of c to;
    if (output_size <? get_write_hwm bto)%nat then
      do c <- (if negb (input_size =? 0)%nat then encrypt_buffer c from to
               else Some c);
      if negb (ev_test (client_evshut c) EV_READ)
      then bufferevent_enable c from EV_READ
      else Some c
    else Some c
  else Some (redsocks_drop_client c).

Definition ss_relay_readcb (buffev : side) (c : redsocks_client)
  : option redsocks_client :=
  let from := buffev in
  let to := ClientSide in
  do in_ref <- bufferevent_get_input c from;
  do buf_in <- get_evbuffer c in_ref;
  let input_size := evbuffer_get_contiguous_space buf_in in
  do out_ref <- bufferevent_get_output c to;
  do buf_out <- get_evbuffer c out_ref;
  let output_size := evbuffer_get_length buf_out in
  do _ <- assert (side_eqb buffev RelaySide);
  let c := redsocks_touch_client c in
  if (state c =? ss_connected)%Z then
    do bto <- bev_of c to;
    if (output_size <? get_write_hwm bto)%nat then
      do c <- (if negb (input_size =? 0)%nat then decrypt_buffer c from to
               else Some c);
      bufferevent_enable c from EV_READ
    else bufferevent_disable c from EV_READ
  else Some (redsocks_drop_client c).

(** *** Relay connected *)

(** Modelled from the spec: [redsocks_start_relay] is defined in
    redsocks.c, which is not part of the sources at hand.  Section 6 of the
    specification describes it as the operation that wires the
    steady-state event handlers; the comment at its call site adds that it
    drops the client on failure, and the call site takes a non-zero
    result as that failure. *)
Definition redsocks_start_relay (c : redsocks_client)
  : option (redsocks_client * Z) :=
  do c1 <- bufferevent_setcb c ClientSide cb_redsocks_relay_generic
             cb_redsocks_relay_generic cb_redsocks_event_error;
  do c2 <- bufferevent_setcb c1 RelaySide cb_redsocks_relay_generic
             cb_redsocks_relay_generic cb_redsocks_event_error;
  let error := start_relay_error c2 in
  if (error =? 0)%Z then Some (c2, error)
  else Some (redsocks_drop_client c2, error).

Definition ss_relay_connected (buffev : side) (c : redsocks_client)
  : option redsocks_client :=
  do _ <- assert (side_eqb buffev RelaySide);
  do brelay <- bev_of c buffev;
  do _ <- assert (state c =? ss_new)%Z;
  let c := redsocks_touch_client c in
  if (red_is_socket_connected_ok brelay =? 0)%Z then
    Some (redsocks_drop_client c)
  else
    let c := set_relay_connected c 1%Z in
    let c := set_state c ss_connected in
    do c <- bufferevent_set_timeouts c RelaySide None None;
    do r <- redsocks_start_relay c;
    let '(c, failed) := r in
    if negb (failed =? 0)%Z then Some c
    else
      do c <- bufferevent_setcb c ClientSide cb_ss_client_readcb
                cb_ss_client_writecb cb_redsocks_event_error;
      do c <- bufferevent_setcb c RelaySide cb_ss_relay_readcb
                cb_ss_relay_writecb cb_redsocks_event_error;
      do in_ref <- bufferevent_get_input c ClientSide;
      do buf_in <- get_evbuffer c in_ref;
      if negb (evbuffer_get_length buf_in =? 0)%nat
      then ss_relay_writecb RelaySide c
      else Some c.

(** *** Relay connect and the handshake header *)

(** [ss_header_ipv4] is a packed 1 + 4 + 2 bytes. *)
Definition sizeof_header : nat := 7.

Definition header_bytes (a : sockaddr_in) : list byte :=
  let '(a0, a1, a2, a3) := sin_addr a in
  let '(p0, p1) := sin_port a in
  [ss_addrtype_ipv4; a0; a1; a2; a3; p0; p1].

Definition ss_connect_relay (c : redsocks_client) : redsocks_client * Z :=
  let interface_ := interface (config (instance c)) in
  let ss := ss_payload (instance c) in
  let len := 0 in
  let '(rc, ctx) := enc_ctx_init (info ss) (e_ctx (payload c)) 1%Z in
  let c := set_payload c (set_e_ctx (payload c) ctx) in
  if negb (rc =? 0)%Z then (redsocks_drop_client c, (-1)%Z)
  else
    let c := set_payload c (set_e_ctx_init (payload c) 1%Z) in
    let '(rc, ctx) := enc_ctx_init (info ss) (d_ctx (payload c)) 0%Z in
    let c := set_payload c (set_d_ctx (payload c) ctx) in
    if negb (rc =? 0)%Z then (redsocks_drop_client c, (-1)%Z)
    else
      let c := set_payload c (set_d_ctx_init (payload c) 1%Z) in
      let header := header_bytes (destaddr c) in
      let len := len + sizeof_header in
      let sz := 64 + sizeof_header in
      let '(rc, buff, ctx) :=
        ss_encrypt (e_ctx (payload c)) (firstn len header) sz in
      let c := set_payload c (set_e_ctx (payload c) ctx) in
      let sz := length buff in
      if (rc =? 0)%Z then (redsocks_drop_client c, (-1)%Z)
      else
        let len := sz in
        let tv_sec := timeout (config (instance c)) in
        let '(new_relay, sz) :=
          red_connect_relay_tfo interface_ (relayaddr (config (instance c)))
            cb_NULL cb_ss_relay_connected cb_redsocks_event_error c tv_sec
            (firstn sz buff) in
        let c := set_relay c new_relay in
        if is_null (relay c) then (redsocks_drop_client c, (-1)%Z)
        else if negb (sz =? 0)%nat && negb (sz =? len)%nat then
          (redsocks_drop_client c, (-1)%Z)
        else (c, 0%Z).

(** *** Subsystem init *)

Definition ss_instance_init (i : redsocks_instance) : redsocks_instance * Z :=
  let ss := ss_payload i in
  let cfg := config i in
  let valid_cred := ss_is_valid_cred (login cfg) (password cfg) in
  if (valid_cred =? 0)%Z then (i, (-1)%Z)
  else
    let '(m, new_info) := enc_init (info ss) (password cfg) (login cfg) in
    let i1 := mk_redsocks_instance cfg (mk_ss_instance m new_info) in
    if (m =? -1)%Z then (i1, (-1)%Z) else (i1, 0%Z).

Definition ss_instance_fini (i : redsocks_instance) : redsocks_instance := i.

End Engine.

(** ** Observations used by the statements *)

Section Observations.

Context {C : Cipher}.

(** The other stream of the tunnel. *)
Definition peer (s : side) : side :=
  match s with
  | ClientSide => RelaySide
  | RelaySide => ClientSide
  end.

(** Is EV_READ among the enabled events of stream [s]? *)
Definition reads_enabled (c : redsocks_client) (s : side) : bool :=
  match bev_of c s with
  | Some b => ev_test (enabled b) EV_READ
  | None => false
  end.

Definition enabled_of (c : redsocks_client) (s : side) : option Z :=
  option_map enabled (bev_of c s).

(** Everything of a stream except its two queues. *)
Definition bev_control (b : bufferevent) :=
  (enabled b, readcb b, writecb b, errorcb b,
   timeout_read b, timeout_write b, wm_write_high b).

(** Everything of a connection except the queues and the two cipher
    states: the state field, the flags, the effects, the streams'
    settings. *)
Definition control (c : redsocks_client) :=
  (instance c, destaddr c, state c, relay_connected c,
   client_evshut c, relay_evshut c, touches c, effects c,
   e_ctx_init (payload c), d_ctx_init (payload c),
   bev_control (client c), option_map bev_control (relay c)).

(** What decides the life of the connection: the state field, the
    recorded effects, the connected mark, the half-close flags and the
    context flags. *)
Definition status (c : redsocks_client) :=
  (state c, effects c, relay_connected c, client_evshut c, relay_evshut c,
   e_ctx_init (payload c), d_ctx_init (payload c)).

Definition dropped (c : redsocks_client) : Prop :=
  In eff_drop_client (effects c).

End Observations.

Section Directions.

Context {C : Cipher} {F : Framework}.

(** The read handler registered on stream [from], the write handler
    registered on stream [to], and the transform applied to what stream
    [from] delivers. *)
Definition read_handler (from : side) :=
  match from with
  | ClientSide => ss_client_readcb
  | RelaySide => ss_relay_readcb
  end.

Definition write_handler (to : side) :=
  match to with
  | ClientSide => ss_client_writecb
  | RelaySide => ss_relay_writecb
  end.

Definition pump (from : side) :=
  match from with
  | ClientSide => encrypt_buffer
  | RelaySide => decrypt_buffer
  end.

(** The [decrypt] argument [pump from] passes to [encrypt_mem]. *)
Definition decrypt_flag (from : side) : Z :=
  match from with
  | ClientSide => 0%Z
  | RelaySide => 1%Z
  end.

(** The transform [encrypt_mem] runs on [bytes] when the reservation
    granted [granted] bytes, its [int] result, and the size it asks the
    output queue to reserve. *)
Definition transform (c : redsocks_client) (bytes : list byte)
                     (decrypt : Z) (granted : nat) : Z * list byte * enc_ctx :=
  if (decrypt =? 0)%Z
  then ss_encrypt (e_ctx (payload c)) bytes granted
  else ss_decrypt (d_ctx (payload c)) bytes granted.

Definition transform_rc (c : redsocks_client) (bytes : list byte)
                        (decrypt : Z) (granted : nat) : Z :=
  fst (fst (transform c bytes decrypt granted)).

Definition required_size (c : redsocks_client) (decrypt : Z) (len : nat) : nat :=
  if (decrypt =? 0)%Z
  then ss_calc_buffer_size (e_ctx (payload c)) len
  else ss_calc_buffer_size (d_ctx (payload c)) len.

(** The connection as [ss_relay_connected] has it when it calls
    [redsocks_start_relay]: stamped, marked connected, in state
    CONNECTED, the relay stream [br] without timeouts. *)
Definition relay_marked_connected (c : redsocks_client) (br : bufferevent)
  : redsocks_client :=
  put_bev (set_state (set_relay_connected (redsocks_touch_client c) 1%Z)
                     ss_connected)
          RelaySide (set_timeouts br None None).

(** The connection as [ss_connect_relay] has it when it calls the connect
    helper: both contexts initialised ([dctx] fresh, [ectx] advanced past
    the header). *)
Definition handshake_built (c : redsocks_client) (ectx dctx : enc_ctx)
  : redsocks_client :=
  set_payload c (mk_ss_client ectx dctx 1%Z 1%Z).

(** The connection as [ss_relay_connected] has it once
    [redsocks_start_relay] has succeeded and the steady-state handlers
    are installed, when it decides whether to call [ss_relay_writecb]. *)
Definition relay_started (c : redsocks_client) (br : bufferevent)
  : redsocks_client :=
  let m := relay_marked_connected c br in
  set_relay
    (set_client m
       (set_callbacks (client m) cb_ss_client_readcb cb_ss_client_writecb
          cb_redsocks_event_error))
    (Some (set_callbacks (set_timeouts br None None) cb_ss_relay_readcb
             cb_ss_relay_writecb cb_redsocks_event_error)).

(** The connection [c] with the cipher context of one direction replaced:
    the encrypt context when [decrypt] is 0, the decrypt context
    otherwise. *)
Definition with_dir_ctx (c : redsocks_client) (decrypt : Z) (ctx : enc_ctx)
  : redsocks_client :=
  set_payload c (if (decrypt =? 0)%Z then set_e_ctx (payload c) ctx
                 else set_d_ctx (payload c) ctx).

(** The releases [ss_connect_relay] owes on a failure, given the results
    [rc_e] and [rc_d] of its two [enc_ctx_init] calls: the encrypt
    context once it was initialised, the decrypt context once both
    were. *)
Definition releases_owed (rc_e rc_d : Z) : list effect :=
  (if (rc_e =? 0)%Z then [eff_enc_ctx_free the_e_ctx] else [])
  ++ (if ((rc_e =? 0) && (rc_d =? 0))%Z then [eff_enc_ctx_free the_d_ctx]
      else []).

(** ** The specification's sentences that the code does not follow

    Each is stated here as the specification words it, for one
    connection; the properties section shows a connection where it fails
    and proves what the code does instead. *)

(** Relay connected: a connection in state NEW whose connect succeeded ends
    CONNECTED, marked, with the four steady-state handlers installed; and
    if the client input queue held bytes, they have left it and the relay
    output queue holds what it held followed by their encryption. *)
Definition relay_connected_installs_handlers (c : redsocks_client) : Prop :=
  forall br,
    relay c = Some br -> state c = ss_new ->
    red_is_socket_connected_ok br <> 0%Z ->
    exists c' bc' br',
      ss_relay_connected RelaySide c = Some c' /\
      state c' = ss_connected /\ relay_connected c' = 1%Z /\
      bev_of c' ClientSide = Some bc' /\ bev_of c' RelaySide = Some br' /\
      readcb bc' = cb_ss_client_readcb /\ writecb bc' = cb_ss_client_writecb /\
      readcb br' = cb_ss_relay_readcb /\ writecb br' = cb_ss_relay_writecb /\
      (evbuffer_get_length (input (client c)) <> 0 ->
       evbuffer_bytes (input bc') = [] /\
       exists granted,
         evbuffer_bytes (output br') =
         evbuffer_bytes (output br)
         ++ snd (fst (transform c (evbuffer_bytes (input (client c))) 0%Z
                        granted))).

(** Backpressure: a write-completion event on stream [to] whose output
    queue is below the mark re-enables reads on the other stream. *)
Definition write_completion_reenables_reads (to : side) (c : redsocks_client)
  : Prop :=
  forall bto,
    bev_of c to = Some bto -> state c = ss_connected ->
    evbuffer_get_length (output bto) < get_write_hwm bto ->
    exists c', write_handler to to c = Some c' /\
               reads_enabled c' (peer to) = true.

(** Errors: a transform that fails in the data pump sends the connection
    to the drop path. *)
Definition failed_transform_drops (from : side) (c : redsocks_client) : Prop :=
  forall bfrom bto run rest granted,
    bev_of c from = Some bfrom -> bev_of c (peer from) = Some bto ->
    input bfrom = run :: rest -> run <> [] ->
    state c = ss_connected ->
    evbuffer_reserve_space
      (output bto) (required_size c (decrypt_flag from) (length run))
    = Some granted ->
    transform_rc c run (decrypt_flag from) granted = 0%Z ->
    exists c', read_handler from from c = Some c' /\ dropped c'.

(** Pipeline: a pump run on a non-empty first chain [run] leaves the
    destination output queue holding what it held followed by what the
    transform writes for [run]. *)
Definition first_run_reaches_destination (d from to : side)
                                         (c : redsocks_client) : Prop :=
  forall bf bt run rest,
    bev_of c from = Some bf -> bev_of c to = Some bt ->
    input bf = run :: rest -> run <> [] ->
    exists c' out' granted,
      pump d c from to = Some c' /\
      get_evbuffer c' (output_of to) = Some out' /\
      evbuffer_bytes out' =
      evbuffer_bytes (output bt)
      ++ snd (fst (transform c run (decrypt_flag d) granted)).

End Directions.

(** Credentials: the check fails for a method the cipher library does not
    recognise ([enc_init] answers -1). *)
Definition check_rejects_unrecognized {C : Cipher} (i : enc_info)
                                      (m p : cstring) : Prop :=
  fst (enc_init i p m) = (-1)%Z -> ss_is_valid_cred m p = 0%Z.

(** ** A small concrete cipher and framework

    Used to run the handlers on explicit connections.  A context is
    [Some n] after [n] bytes, or [None] when its transforms fail. *)

Module Toy.

Import String.
Local Open Scope string_scope.

Definition methods : list String.string := ["table"; "rc4-md5"; "aes-256-cfb"].

Fixpoint method_index (m : String.string) (l : list String.string) (i : Z) : Z :=
  match l with
  | [] => (-1)%Z
  | x :: rest => if String.eqb m x then i else method_index m rest (i + 1)%Z
  end.

Definition flip (b : byte) : byte :=
  match Byte.of_N (N.lxor (Byte.to_N b) 90) with
  | Some b' => b'
  | None => b
  end.

Definition transform (ctx : option nat) (data : list byte) (capacity : nat)
  : Z * list byte * option nat :=
  match ctx with
  | Some n => (1%Z, List.map flip data, Some (n + List.length data))
  | None => (0%Z, data, None)
  end.

#[local] Instance cipher : Cipher := {|
  enc_ctx := option nat;
  enc_info := Z;
  enc_init := fun i pass m =>
    match m with
    | Some name => let k := method_index name methods 0%Z in (k, k)
    | None => (0%Z, 0%Z)
    end;
  enc_ctx_init := fun i ctx enc => (0%Z, Some 0);
  enc_ctx_free := fun ctx => ctx;
  ss_calc_buffer_size := fun ctx len => len + 16;
  ss_encrypt := transform;
  ss_decrypt := transform
|}.

(** A shutdown helper that half-closes [to] for writing once [from] is
    shut for reading and holds no pending input. *)
Definition shutdown_on_write (c : redsocks_client) (from to : side)
  : redsocks_client * Z :=
  let pending :=
    match bev_of c from with
    | Some b => evbuffer_get_length (input b)
    | None => 0%nat
    end in
  if ev_test (evshut_of c from) EV_READ
     && negb (ev_test (evshut_of c to) EV_WRITE)
     && (pending =? 0)%nat
  then
    (match to with
     | ClientSide => set_client_evshut c (Z.lor (client_evshut c) EV_WRITE)
     | RelaySide => set_relay_evshut c (Z.lor (relay_evshut c) EV_WRITE)
     end, 1%Z)
  else (c, 0%Z).

Definition framework (reserve_ok : bool) (start_error : Z)
                     (connect : option (@bufferevent) * nat)
  : @Framework cipher := {|
  evbuffer_reserve_space := fun _ size => if reserve_ok then Some size else None;
  red_is_socket_connected_ok := fun _ => 1%Z;
  start_relay_error := fun _ => start_error;
  process_shutdown_on_write_ := shutdown_on_write;
  red_connect_relay_tfo := fun _ _ _ _ _ _ _ _ => connect;
  ss_addrtype_ipv4 := x01
|}.

Definition stream (inp out : evbuffer) (en : Z) (hwm : nat) : bufferevent :=
  mk_bufferevent inp out en cb_NULL cb_ss_relay_connected
                 cb_redsocks_event_error (Some 10%Z) (Some 10%Z) hwm.

Definition addr : sockaddr_in :=
  mk_sockaddr_in (x5d, xb8, xd8, x22) (x01, xbb).

Definition inst : redsocks_instance :=
  mk_redsocks_instance
    (mk_redsocks_config None addr 10%Z (Some "aes-256-cfb") (Some "secret"))
    (mk_ss_instance 2%Z 2%Z).

(** A connection with the given streams, state, client-side half-close
    flags and encrypt context. *)
Definition conn (cl : bufferevent) (rl : option bufferevent) (st : Z)
                (cl_evshut : Z) (ectx : option nat) (ctx_init : Z)
  : redsocks_client :=
  mk_redsocks_client inst cl rl addr st 0%Z cl_evshut 0%Z 0
    (mk_ss_client ectx (Some 0) ctx_init ctx_init) [].

Definition hello : list byte := [x68; x65; x6c; x6c; x6f].

(** A method name outside [methods], and a short password. *)
Definition unknown_method : cstring := Some "no-such-cipher".
Definition short_password : cstring := Some "secret".

(** Reservations succeed, [redsocks_start_relay] succeeds. *)
Definition fw : Framework := framework true 0%Z (None, 0).

(** Accepted, no relay stream yet, contexts not initialised. *)
Definition accepted : redsocks_client :=
  conn (stream [] [] EV_READ 100) None ss_new 0%Z None 0%Z.

(** NEW, the relay connect has completed, the client has already sent
    five bytes. *)
Definition fresh : redsocks_client :=
  conn (stream [hello] [] EV_READ 100) (Some (stream [] [] EV_WRITE 100))
       ss_new 0%Z (Some 0) 1%Z.

(** NEW, the relay connect has completed, the client has already sent
    two chunks that sit in separate chains. *)
Definition early_two : redsocks_client :=
  conn (stream [hello; hello] [] EV_READ 100)
       (Some (stream [] [] EV_WRITE 100)) ss_new 0%Z (Some 0) 1%Z.

(** NEW, the relay connect has completed, five early bytes, and an
    encrypt context whose transforms fail. *)
Definition early_broken : redsocks_client :=
  conn (stream [hello] [] EV_READ 100) (Some (stream [] [] EV_WRITE 100))
       ss_new 0%Z None 1%Z.

(** CONNECTED, two chunks pending from the client, both below the mark. *)
Definition flowing : redsocks_client :=
  conn (stream [hello; hello] [] EV_READ 100)
       (Some (stream [hello] [] EV_READ 100)) ss_connected 0%Z (Some 0) 1%Z.

(** CONNECTED, the relay output queue has reached its mark of 5 bytes. *)
Definition congested : redsocks_client :=
  conn (stream [hello] [] EV_READ 100)
       (Some (stream [] [hello] EV_READ 5)) ss_connected 0%Z (Some 0) 1%Z.

(** CONNECTED, two chunks pending from the client, and an encrypt context
    whose transforms fail. *)
Definition failing : redsocks_client :=
  conn (stream [hello; hello] [] EV_READ 100)
       (Some (stream [] [hello] EV_READ 100)) ss_connected 0%Z None 1%Z.

(** CONNECTED, nothing pending in either direction, reads on the client
    switched off by an earlier backpressure decision. *)
Definition idle : redsocks_client :=
  conn (stream [] [] 0%Z 100)
       (Some (stream [] [] EV_READ 100)) ss_connected 0%Z (Some 0) 1%Z.

(** CONNECTED, the client has shut its sending direction after a last
    chunk: its evshut flag has EV_READ and its reads are off. *)
Definition half_closed : redsocks_client :=
  conn (stream [hello] [] 0%Z 100)
       (Some (stream [] [] EV_READ 100)) ss_connected EV_READ (Some 0) 1%Z.

End Toy.

(** * Properties *)

Section Lemmas.

Context {C : Cipher} {F : Framework}.

(** ** Queues *)

Lemma evbuffer_drain_bytes (b : evbuffer) :
  forall n, evbuffer_bytes (evbuffer_drain b n) = skipn n (evbuffer_bytes b).
Proof.
  unfold evbuffer_bytes.
  induction b as [|chain rest IH]; intro n; simpl.
  - now rewrite skipn_nil.
  - rewrite skipn_app. destruct (Nat.ltb_spec n (length chain)) as [Hlt|Hge].
    + simpl. replace (n - length chain) with 0 by lia. reflexivity.
    + rewrite IH. rewrite (skipn_all2 chain) by lia. reflexivity.
Qed.

Lemma evbuffer_drain_first_run (run : list byte) (rest : evbuffer) :
  evbuffer_drain (run :: rest) (length run) = evbuffer_drain rest 0.
Proof.
  simpl. rewrite Nat.ltb_irrefl, Nat.sub_diag. reflexivity.
Qed.

Lemma evbuffer_pullup_first_run (run : list byte) (rest : evbuffer) :
  run <> [] ->
  evbuffer_pullup (run :: rest) (length run) = (run :: rest, Some run).
Proof.
  intro Hne. unfold evbuffer_pullup, evbuffer_get_length, evbuffer_bytes.
  simpl. rewrite length_app.
  destruct run as [|x xs]; [congruence|]. simpl.
  destruct (Nat.ltb_spec (S (length xs + length (concat rest))) (S (length xs))); [lia|].
  rewrite Nat.leb_refl. reflexivity.
Qed.

Lemma put_evbuffer_input_same (c : redsocks_client) (s : side) (b : bufferevent) :
  bev_of c s = Some b -> put_evbuffer c (input_of s) (input b) = c.
Proof.
  destruct c, s; simpl; intro H; inversion H; subst; destruct b; reflexivity.
Qed.

Lemma control_put_evbuffer (c : redsocks_client) (r : evbuffer_ref) (v : evbuffer) :
  control (put_evbuffer c r v) = control c.
Proof.
  destruct c as [i cl [rl|] da st rc ce re t p e], r as [[]|[]]; reflexivity.
Qed.

Lemma payload_put_evbuffer (c : redsocks_client) (r : evbuffer_ref) (v : evbuffer) :
  payload (put_evbuffer c r v) = payload c.
Proof.
  destruct c as [i cl [rl|] da st rc ce re t p e], r as [[]|[]]; reflexivity.
Qed.

Lemma get_put_evbuffer (c : redsocks_client) (r : evbuffer_ref) (v out : evbuffer) :
  get_evbuffer c r = Some out -> get_evbuffer (put_evbuffer c r v) r = Some v.
Proof.
  destruct c as [i cl [rl|] da st rc ce re t p e], r as [[]|[]]; simpl; intro H;
    try discriminate; reflexivity.
Qed.

Lemma get_put_evbuffer_other (c : redsocks_client) (r r' : evbuffer_ref) (v : evbuffer) :
  r <> r' -> get_evbuffer (put_evbuffer c r v) r' = get_evbuffer c r'.
Proof.
  destruct c as [i cl [rl|] da st rc ce re t p e], r as [[]|[]], r' as [[]|[]];
    simpl; intro H; try congruence; reflexivity.
Qed.


Lemma get_evbuffer_set_payload (c : redsocks_client) (p : ss_client) (r : evbuffer_ref) :
  get_evbuffer (set_payload c p) r = get_evbuffer c r.
Proof. destruct r as [[]|[]]; reflexivity. Qed.

Lemma evbuffer_commit_nothing (b : evbuffer) (granted : nat) (written : list byte) :
  evbuffer_commit_space b granted (firstn 0 written) = b.
Proof. reflexivity. Qed.

(** [encrypt_mem] always returns when its output queue exists; it leaves
    the control part of the connection and every other queue alone. *)
Lemma encrypt_mem_frame (c : redsocks_client) (data : option (list byte))
      (len : nat) (buf_out : evbuffer_ref) (decrypt : Z) (out : evbuffer) :
  get_evbuffer c buf_out = Some out ->
  exists c', encrypt_mem c data len buf_out decrypt = Some c' /\
             control c' = control c /\
             (forall r, r <> buf_out -> get_evbuffer c' r = get_evbuffer c r) /\
             (exists out', get_evbuffer c' buf_out = Some out').
Proof.
  intro Hout. unfold encrypt_mem.
  destruct ((len =? 0)%nat || is_null data) eqn:Hskip.
  - exists c. repeat split; eauto.
  - destruct data as [bytes|]; [|rewrite orb_true_r in Hskip; discriminate].
    cbn [bind].
    match goal with |- context [(?n =? 0)%nat] =>
      destruct (n =? 0)%nat; [exists c; repeat split; eauto|] end.
    rewrite Hout. cbn [bind].
    destruct (evbuffer_reserve_space out _) as [granted|];
      [|exists c; repeat split; eauto].
    destruct (decrypt =? 0)%Z.
    + destruct (ss_encrypt _ _ _) as [[rc written] ctx].
      eexists. split; [reflexivity|]. split; [|split].
      * now rewrite control_put_evbuffer.
      * intros r Hr. rewrite get_put_evbuffer_other by congruence.
        apply get_evbuffer_set_payload.
      * eexists. eapply get_put_evbuffer.
        rewrite get_evbuffer_set_payload. eassumption.
    + destruct (ss_decrypt _ _ _) as [[rc written] ctx].
      eexists. split; [reflexivity|]. split; [|split].
      * now rewrite control_put_evbuffer.
      * intros r Hr. rewrite get_put_evbuffer_other by congruence.
        apply get_evbuffer_set_payload.
      * eexists. eapply get_put_evbuffer.
        rewrite get_evbuffer_set_payload. eassumption.
Qed.

(** A transform that reports failure, run with the room the reservation
    granted, leaves the output queue as it was. *)
Lemma encrypt_mem_failure
    (c : redsocks_client) (data : option (list byte)) (len : nat)
    (buf_out : evbuffer_ref) (decrypt : Z) (out : evbuffer)
    (Hout : get_evbuffer c buf_out = Some out)
    (Hfail : forall bytes granted,
        data = Some bytes ->
        evbuffer_reserve_space out (required_size c decrypt len) = Some granted ->
        transform_rc c (firstn len bytes) decrypt granted = 0%Z) :
  exists c', encrypt_mem c data len buf_out decrypt = Some c' /\
             get_evbuffer c' buf_out = Some out.
Proof.
  unfold encrypt_mem.
  destruct ((len =? 0)%nat || is_null data) eqn:Hskip.
  - exists c. auto.
  - destruct data as [bytes|]; [|rewrite orb_true_r in Hskip; discriminate].
    cbn [bind].
    match goal with |- context [(?n =? 0)%nat] =>
      destruct (n =? 0)%nat; [exists c; auto|] end.
    rewrite Hout. cbn [bind]. unfold required_size in Hfail.
    destruct (evbuffer_reserve_space out _) as [granted|] eqn:Hres;
      [|exists c; auto].
    specialize (Hfail bytes granted eq_refl eq_refl).
    unfold transform_rc, transform in Hfail.
    destruct (decrypt =? 0)%Z.
    + destruct (ss_encrypt _ _ _) as [[rc written] ctx]. simpl in Hfail. subst rc.
      cbn [Z.eqb]. rewrite evbuffer_commit_nothing.
      eexists. split; [reflexivity|].
      eapply get_put_evbuffer. rewrite get_evbuffer_set_payload. eassumption.
    + destruct (ss_decrypt _ _ _) as [[rc written] ctx]. simpl in Hfail. subst rc.
      cbn [Z.eqb]. rewrite evbuffer_commit_nothing.
      eexists. split; [reflexivity|].
      eapply get_put_evbuffer. rewrite get_evbuffer_set_payload. eassumption.
Qed.


Lemma bev_of_touch (c : redsocks_client) (s : side) :
  bev_of (redsocks_touch_client c) s = bev_of c s.
Proof. destruct s; reflexivity. Qed.

Lemma get_evbuffer_touch (c : redsocks_client) (r : evbuffer_ref) :
  get_evbuffer (redsocks_touch_client c) r = get_evbuffer c r.
Proof. destruct r as [[]|[]]; reflexivity. Qed.

Lemma bev_of_put_evbuffer_some (c : redsocks_client) (r : evbuffer_ref)
      (v : evbuffer) (s : side) (b : bufferevent) :
  bev_of c s = Some b -> exists b', bev_of (put_evbuffer c r v) s = Some b'.
Proof.
  destruct c as [i cl [rl|] da st rc ce re t p e], r as [[]|[]], s; simpl;
    intro H; try discriminate; eauto.
Qed.

Lemma control_bev_some (c c' : redsocks_client) (s : side) (b : bufferevent) :
  control c' = control c -> bev_of c s = Some b ->
  exists b', bev_of c' s = Some b' /\ bev_control b' = bev_control b.
Proof.
  unfold control. intros H Hb.
  assert (Hcl : bev_control (client c') = bev_control (client c))
    by exact (f_equal (fun x => snd (fst x)) H).
  assert (Hrl : option_map bev_control (relay c') = option_map bev_control (relay c))
    by exact (f_equal snd H).
  clear H. destruct s; simpl in Hb.
  - inversion Hb; subst. exists (client c'). split; [reflexivity|exact Hcl].
  - rewrite Hb in Hrl. simpl. destruct (relay c') as [b'|]; simpl in Hrl; [|discriminate].
    exists b'. split; [reflexivity|congruence].
Qed.

(** One run of the pump on a non-empty first chain. *)
Lemma encrypt_buffer_first_run (c : redsocks_client) (from to : side)
      (bf bt : bufferevent) (run : list byte) (rest : evbuffer) :
  bev_of c from = Some bf -> bev_of c to = Some bt ->
  input bf = run :: rest -> run <> [] ->
  exists cm, encrypt_mem c (Some run) (length run) (output_of to) 0%Z = Some cm /\
             get_evbuffer cm (input_of from) = Some (run :: rest) /\
             encrypt_buffer c from to =
             Some (put_evbuffer cm (input_of from)
                                (evbuffer_drain (run :: rest) (length run))).
Proof.
  intros Hf Ht Hin Hne.
  assert (Hgi : get_evbuffer c (input_of from) = Some (run :: rest))
    by (simpl; rewrite Hf; simpl; now rewrite Hin).
  assert (Hgo : get_evbuffer c (output_of to) = Some (output bt))
    by (simpl; now rewrite Ht).
  destruct (encrypt_mem_frame c (Some run) (length run) (output_of to) 0%Z _ Hgo)
    as (cm & Hmem & _ & Hother & _).
  exists cm. split; [exact Hmem|]. 
  assert (Hgi' : get_evbuffer cm (input_of from) = Some (run :: rest))
    by (rewrite Hother by discriminate; exact Hgi).
  split; [exact Hgi'|].
  unfold encrypt_buffer, bufferevent_get_input. rewrite Hf. cbn [bind].
  rewrite Hgi. cbn [bind]. cbn [evbuffer_get_contiguous_space].
  destruct (length run =? 0)%nat eqn:Hlen.
  { apply Nat.eqb_eq in Hlen. destruct run; [congruence|discriminate]. }
  rewrite evbuffer_pullup_first_run by assumption.
  rewrite <- Hin. rewrite (put_evbuffer_input_same c from bf Hf). rewrite Hin.
  unfold bufferevent_get_output. rewrite Ht. cbn [bind].
  rewrite Hmem. cbn [bind]. rewrite Hgi'. reflexivity.
Qed.


Lemma decrypt_buffer_first_run (c : redsocks_client) (from to : side)
      (bf bt : bufferevent) (run : list byte) (rest : evbuffer) :
  bev_of c from = Some bf -> bev_of c to = Some bt ->
  input bf = run :: rest -> run <> [] ->
  exists cm, encrypt_mem c (Some run) (length run) (output_of to) 1%Z = Some cm /\
             get_evbuffer cm (input_of from) = Some (run :: rest) /\
             decrypt_buffer c from to =
             Some (put_evbuffer cm (input_of from)
                                (evbuffer_drain (run :: rest) (length run))).
Proof.
  intros Hf Ht Hin Hne.
  assert (Hgi : get_evbuffer c (input_of from) = Some (run :: rest))
    by (simpl; rewrite Hf; simpl; now rewrite Hin).
  assert (Hgo : get_evbuffer c (output_of to) = Some (output bt))
    by (simpl; now rewrite Ht).
  destruct (encrypt_mem_frame c (Some run) (length run) (output_of to) 1%Z _ Hgo)
    as (cm & Hmem & _ & Hother & _).
  exists cm. split; [exact Hmem|]. 
  assert (Hgi' : get_evbuffer cm (input_of from) = Some (run :: rest))
    by (rewrite Hother by discriminate; exact Hgi).
  split; [exact Hgi'|].
  unfold decrypt_buffer, bufferevent_get_input. rewrite Hf. cbn [bind].
  rewrite Hgi. cbn [bind]. cbn [evbuffer_get_contiguous_space].
  destruct (length run =? 0)%nat eqn:Hlen.
  { apply Nat.eqb_eq in Hlen. destruct run; [congruence|discriminate]. }
  rewrite evbuffer_pullup_first_run by assumption.
  rewrite <- Hin. rewrite (put_evbuffer_input_same c from bf Hf). rewrite Hin.
  unfold bufferevent_get_output. rewrite Ht. cbn [bind].
  rewrite Hmem. cbn [bind]. rewrite Hgi'. reflexivity.
Qed.

Lemma pump_empty (d : side) (c : redsocks_client) (from to : side) (bf : bufferevent) :
  bev_of c from = Some bf ->
  evbuffer_get_contiguous_space (input bf) = 0 ->
  pump d c from to = Some c.
Proof.
  intros Hf H0.
  destruct d; simpl; unfold encrypt_buffer, decrypt_buffer, bufferevent_get_input;
    rewrite Hf; cbn [bind get_evbuffer]; rewrite Hf; cbn [bind]; rewrite H0;
    reflexivity.
Qed.

Lemma pump_first_run (d : side) (c : redsocks_client) (from to : side)
      (bf bt : bufferevent) (run : list byte) (rest : evbuffer) :
  bev_of c from = Some bf -> bev_of c to = Some bt ->
  input bf = run :: rest -> run <> [] ->
  exists cm, encrypt_mem c (Some run) (length run) (output_of to) (decrypt_flag d)
             = Some cm /\
             get_evbuffer cm (input_of from) = Some (run :: rest) /\
             pump d c from to =
             Some (put_evbuffer cm (input_of from)
                                (evbuffer_drain (run :: rest) (length run))).
Proof.
  destruct d; simpl.
  - apply encrypt_buffer_first_run.
  - apply decrypt_buffer_first_run.
Qed.

Lemma contiguous_cases (b : evbuffer) :
  evbuffer_get_contiguous_space b = 0 \/
  exists run rest, b = run :: rest /\ run <> [].
Proof.
  destruct b as [|[|x run] rest]; simpl; auto.
  right. exists (x :: run), rest. split; [reflexivity|discriminate].
Qed.

(** The pump always returns on a tunnel with both streams, and changes
    nothing but the source input queue, the destination output queue and
    the cipher state. *)
Lemma pump_frame (d : side) (c : redsocks_client) (from to : side)
      (bf bt : bufferevent) :
  bev_of c from = Some bf -> bev_of c to = Some bt ->
  exists c', pump d c from to = Some c' /\ control c' = control c /\
             forall r, r <> input_of from -> r <> output_of to ->
                       get_evbuffer c' r = get_evbuffer c r.
Proof.
  intros Hf Ht.
  destruct (contiguous_cases (input bf)) as [H0|(run & rest & Hin & Hne)].
  - exists c. split; [eapply pump_empty; eassumption|]. auto.
  - destruct (pump_first_run d c from to bf bt run rest Hf Ht Hin Hne)
      as (cm & Hmem & _ & Hp).
    assert (Hgo : get_evbuffer c (output_of to) = Some (output bt))
      by (simpl; now rewrite Ht).
    destruct (encrypt_mem_frame c (Some run) (length run) (output_of to)
                (decrypt_flag d) _ Hgo) as (cm' & Hmem' & Hctl & Hother & _).
    rewrite Hmem in Hmem'. inversion Hmem'; subst cm'.
    eexists. split; [exact Hp|]. split.
    + now rewrite control_put_evbuffer.
    + intros r Hr1 Hr2. rewrite get_put_evbuffer_other by congruence.
      now apply Hother.
Qed.

Lemma land_lor_same (x e : Z) : Z.land (Z.lor x e) e = e.
Proof.
  apply Z.bits_inj'. intros n Hn.
  rewrite Z.land_spec, Z.lor_spec. destruct (Z.testbit x n), (Z.testbit e n); reflexivity.
Qed.

Lemma land_ldiff_same (x e : Z) : Z.land (Z.ldiff x e) e = 0%Z.
Proof.
  apply Z.bits_inj'. intros n Hn.
  rewrite Z.land_spec, Z.ldiff_spec, Z.bits_0.
  destruct (Z.testbit x n), (Z.testbit e n); reflexivity.
Qed.

Lemma reads_enabled_after_enable (c c' : redsocks_client) (s : side) :
  bufferevent_enable c s EV_READ = Some c' -> reads_enabled c' s = true.
Proof.
  unfold bufferevent_enable, reads_enabled.
  destruct (bev_of c s) as [b|] eqn:Hb; [|discriminate]. cbn [bind].
  intro H; inversion H; subst c'.
  destruct s; simpl; unfold ev_test; rewrite land_lor_same; reflexivity.
Qed.

Lemma reads_enabled_after_disable (c c' : redsocks_client) (s : side) :
  bufferevent_disable c s EV_READ = Some c' -> reads_enabled c' s = false.
Proof.
  unfold bufferevent_disable, reads_enabled.
  destruct (bev_of c s) as [b|] eqn:Hb; [|discriminate]. cbn [bind].
  intro H; inversion H; subst c'.
  destruct s; simpl; unfold ev_test; rewrite land_ldiff_same; reflexivity.
Qed.

Lemma read_handler_connected (from : side) (c : redsocks_client)
      (bfrom bto : bufferevent) :
  bev_of c from = Some bfrom -> bev_of c (peer from) = Some bto ->
  state c = ss_connected ->
  read_handler from from c =
  if (evbuffer_get_length (output bto) <? get_write_hwm bto)%nat
  then do c1 <- pump from (redsocks_touch_client c) from (peer from);
       bufferevent_enable c1 from EV_READ
  else bufferevent_disable (redsocks_touch_client c) from EV_READ.
Proof.
  intros Hf Ht Hst.
  destruct from; cbn [read_handler pump peer] in *.
  - unfold ss_client_readcb, bufferevent_get_output. rewrite Ht. cbn [bind get_evbuffer].
    rewrite Ht. cbn [bind side_eqb assert].
    change (state (redsocks_touch_client c)) with (state c). rewrite Hst.
    cbn [Z.eqb ss_connected Pos.eqb]. rewrite bev_of_touch, Ht. reflexivity.
  - unfold ss_relay_readcb, bufferevent_get_input, bufferevent_get_output.
    rewrite Hf. cbn [bind get_evbuffer]. rewrite Hf. cbn [bind].
    rewrite Ht. cbn [bind get_evbuffer]. rewrite Ht. cbn [bind side_eqb assert].
    change (state (redsocks_touch_client c)) with (state c). rewrite Hst.
    cbn [Z.eqb ss_connected Pos.eqb]. rewrite bev_of_touch, Ht. cbn [bind].
    destruct (evbuffer_get_length (output bto) <? get_write_hwm bto)%nat; [|reflexivity].
    destruct (evbuffer_get_contiguous_space (input bfrom) =? 0)%nat eqn:H0;
      [|reflexivity].
    apply Nat.eqb_eq in H0. cbn [negb].
    pose proof (pump_empty RelaySide (redsocks_touch_client c) RelaySide
                           ClientSide bfrom) as He.
    cbn [pump] in He. rewrite He by (rewrite ?bev_of_touch; assumption).
    reflexivity.
Qed.


Lemma write_handler_after_helper (to : side) (c cs : redsocks_client)
      (bfrom bto : bufferevent) (handled : Z) :
  bev_of c (peer to) = Some bfrom -> bev_of c to = Some bto ->
  process_shutdown_on_write_ (redsocks_touch_client c) (peer to) to = (cs, handled) ->
  write_handler to to c =
  if negb (handled =? 0)%Z then Some cs
  else if (state cs =? ss_connected)%Z then
    do bs <- bev_of cs to;
    if (evbuffer_get_length (output bto) <? get_write_hwm bs)%nat then
      do c1 <- (if negb (evbuffer_get_contiguous_space (input bfrom) =? 0)%nat
                then pump (peer to) cs (peer to) to else Some cs);
      if negb (ev_test (evshut_of c1 (peer to)) EV_READ)
      then bufferevent_enable c1 (peer to) EV_READ
      else Some c1
    else Some cs
  else Some (redsocks_drop_client cs).
Proof.
  intros Hf Ht Hh.
  destruct to; cbn [write_handler pump peer evshut_of] in *.
  - unfold ss_client_writecb, bufferevent_get_input, bufferevent_get_output.
    rewrite Hf. cbn [bind get_evbuffer]. rewrite Hf. cbn [bind].
    rewrite Ht. cbn [bind get_evbuffer]. rewrite Ht. cbn [bind side_eqb assert].
    rewrite Hh. reflexivity.
  - unfold ss_relay_writecb, bufferevent_get_input, bufferevent_get_output.
    rewrite Hf. cbn [bind get_evbuffer]. rewrite Hf. cbn [bind].
    rewrite Ht. cbn [bind get_evbuffer]. rewrite Ht. cbn [bind side_eqb assert].
    rewrite Hh. reflexivity.
Qed.


(** A reservation that fails leaves the whole connection as it was. *)
Lemma encrypt_mem_no_reservation
    (c : redsocks_client) (data : option (list byte)) (len : nat)
    (buf_out : evbuffer_ref) (decrypt : Z) (out : evbuffer) :
  get_evbuffer c buf_out = Some out ->
  evbuffer_reserve_space out (required_size c decrypt len) = None ->
  encrypt_mem c data len buf_out decrypt = Some c.
Proof.
  intros Hout Hres. unfold encrypt_mem.
  destruct ((len =? 0)%nat || is_null data) eqn:Hskip; [reflexivity|].
  destruct data as [bytes|]; [|rewrite orb_true_r in Hskip; discriminate].
  cbn [bind]. unfold required_size in Hres.
  match goal with |- context [(?n =? 0)%nat] =>
    destruct (n =? 0)%nat; [reflexivity|] end.
  rewrite Hout. cbn [bind]. now rewrite Hres.
Qed.

(** A transform that succeeds within the reservation appends exactly what
    it wrote. *)
Lemma encrypt_mem_success
    (c : redsocks_client) (bytes : list byte) (len : nat)
    (buf_out : evbuffer_ref) (decrypt : Z) (out : evbuffer)
    (granted : nat) (rc : Z) (written : list byte) (ctx : enc_ctx) :
  get_evbuffer c buf_out = Some out ->
  len <> 0 -> required_size c decrypt len <> 0 ->
  evbuffer_reserve_space out (required_size c decrypt len) = Some granted ->
  transform c (firstn len bytes) decrypt granted = (rc, written, ctx) ->
  rc <> 0%Z -> written <> [] -> length written <= granted ->
  exists c', encrypt_mem c (Some bytes) len buf_out decrypt = Some c' /\
             get_evbuffer c' buf_out = Some (out ++ [written]).
Proof.
  intros Hout Hlen Hreq Hres Htr Hrc Hw Hfit. unfold encrypt_mem.
  apply Nat.eqb_neq in Hlen. rewrite Hlen. cbn [orb is_null bind].
  unfold required_size in Hres, Hreq. unfold transform in Htr.
  apply Nat.eqb_neq in Hreq. apply Z.eqb_neq in Hrc.
  apply Nat.leb_le in Hfit.
  destruct (decrypt =? 0)%Z.
  - rewrite Hreq, Hout. cbn [bind]. rewrite Hres, Htr, Hrc.
    eexists. split; [reflexivity|].
    unfold evbuffer_commit_space. rewrite Hfit.
    destruct written as [|w ws]; [congruence|].
    eapply get_put_evbuffer. rewrite get_evbuffer_set_payload. eassumption.
  - rewrite Hreq, Hout. cbn [bind]. rewrite Hres, Htr, Hrc.
    eexists. split; [reflexivity|].
    unfold evbuffer_commit_space. rewrite Hfit.
    destruct written as [|w ws]; [congruence|].
    eapply get_put_evbuffer. rewrite get_evbuffer_set_payload. eassumption.
Qed.

Lemma ss_is_valid_cred_accepts (m p : cstring) :
  ss_is_valid_cred m p = 1%Z <->
  exists ms ps, m = Some ms /\ p = Some ps /\
                strlen ms <= 255 /\ strlen ps <= 255.
Proof.
  unfold ss_is_valid_cred. split.
  - destruct m as [ms|], p as [ps|]; try discriminate.
    destruct (Nat.ltb_spec 255 (strlen ms)); [discriminate|].
    destruct (Nat.ltb_spec 255 (strlen ps)); [discriminate|].
    intros _. exists ms, ps. auto.
  - intros (ms & ps & -> & -> & Hm & Hp).
    destruct (Nat.ltb_spec 255 (strlen ms)); [lia|].
    destruct (Nat.ltb_spec 255 (strlen ps)); [lia|]. reflexivity.
Qed.

Lemma ss_is_valid_cred_range (m p : cstring) :
  ss_is_valid_cred m p = 0%Z \/ ss_is_valid_cred m p = 1%Z.
Proof.
  unfold ss_is_valid_cred. destruct m, p; auto.
  destruct (255 <? strlen _); auto. destruct (255 <? strlen _); auto.
Qed.

(** ** Status and frames of the stream operations *)

Lemma control_status (c c' : redsocks_client) :
  control c' = control c -> status c' = status c.
Proof.
  intro H. unfold status.
  assert (H1 : state c' = state c)
    by exact (f_equal (fun x => snd (fst (fst (fst (fst (fst (fst (fst (fst (fst x)))))))))) H).
  assert (H2 : effects c' = effects c)
    by exact (f_equal (fun x => snd (fst (fst (fst (fst x))))) H).
  assert (H3 : relay_connected c' = relay_connected c)
    by exact (f_equal (fun x => snd (fst (fst (fst (fst (fst (fst (fst (fst x))))))))) H).
  assert (H4 : client_evshut c' = client_evshut c)
    by exact (f_equal (fun x => snd (fst (fst (fst (fst (fst (fst (fst x)))))))) H).
  assert (H5 : relay_evshut c' = relay_evshut c)
    by exact (f_equal (fun x => snd (fst (fst (fst (fst (fst (fst x))))))) H).
  assert (H6 : e_ctx_init (payload c') = e_ctx_init (payload c))
    by exact (f_equal (fun x => snd (fst (fst (fst x)))) H).
  assert (H7 : d_ctx_init (payload c') = d_ctx_init (payload c))
    by exact (f_equal (fun x => snd (fst (fst x))) H).
  now rewrite H1, H2, H3, H4, H5, H6, H7.
Qed.

Lemma status_state (c c' : redsocks_client) :
  status c' = status c -> state c' = state c.
Proof. intro H. exact (f_equal (fun x => fst (fst (fst (fst (fst (fst x)))))) H). Qed.

Lemma status_effects (c c' : redsocks_client) :
  status c' = status c -> effects c' = effects c.
Proof. intro H. exact (f_equal (fun x => snd (fst (fst (fst (fst (fst x)))))) H). Qed.

Lemma status_evshut (c c' : redsocks_client) (s : side) :
  status c' = status c -> evshut_of c' s = evshut_of c s.
Proof.
  intro H. destruct s; simpl.
  - exact (f_equal (fun x => snd (fst (fst (fst x)))) H).
  - exact (f_equal (fun x => snd (fst (fst x))) H).
Qed.

Lemma status_ctx_init (c c' : redsocks_client) :
  status c' = status c ->
  e_ctx_init (payload c') = e_ctx_init (payload c) /\
  d_ctx_init (payload c') = d_ctx_init (payload c).
Proof.
  intro H. split.
  - exact (f_equal (fun x => snd (fst x)) H).
  - exact (f_equal snd H).
Qed.

Lemma control_enabled (c c' : redsocks_client) (s : side) :
  control c' = control c -> enabled_of c' s = enabled_of c s.
Proof.
  intro H. unfold enabled_of.
  destruct (bev_of c s) as [b|] eqn:Hb.
  - destruct (control_bev_some c c' s b H Hb) as (b' & Hb' & Hctl).
    rewrite Hb'. simpl. f_equal.
    exact (f_equal (fun x => fst (fst (fst (fst (fst (fst x)))))) Hctl).
  - destruct (bev_of c' s) as [b'|] eqn:Hb'; [|reflexivity].
    destruct (control_bev_some c' c s b' (eq_sym H) Hb') as (b & Hb2 & _).
    congruence.
Qed.


Lemma status_touch (c : redsocks_client) :
  status (redsocks_touch_client c) = status c.
Proof. reflexivity. Qed.

(** [bufferevent_enable] and [bufferevent_disable] touch one field of one
    stream. *)
Lemma bufferevent_enable_frame (c : redsocks_client) (s : side) (ev : Z)
      (b : bufferevent) :
  bev_of c s = Some b ->
  exists c', bufferevent_enable c s ev = Some c' /\
             status c' = status c /\ payload c' = payload c /\
             (forall r, get_evbuffer c' r = get_evbuffer c r) /\
             enabled_of c' (peer s) = enabled_of c (peer s).
Proof.
  intro Hb. unfold bufferevent_enable. rewrite Hb. cbn [bind].
  eexists. split; [reflexivity|].
  destruct c as [i cl rl da st rc ce re t p e], s; simpl in Hb |- *;
    inversion Hb; subst; repeat split;
    intros [[]|[]]; reflexivity.
Qed.

Lemma bufferevent_disable_frame (c : redsocks_client) (s : side) (ev : Z)
      (b : bufferevent) :
  bev_of c s = Some b ->
  exists c', bufferevent_disable c s ev = Some c' /\
             status c' = status c /\ payload c' = payload c /\
             (forall r, get_evbuffer c' r = get_evbuffer c r) /\
             enabled_of c' (peer s) = enabled_of c (peer s).
Proof.
  intro Hb. unfold bufferevent_disable. rewrite Hb. cbn [bind].
  eexists. split; [reflexivity|].
  destruct c as [i cl rl da st rc ce re t p e], s; simpl in Hb |- *;
    inversion Hb; subst; repeat split;
    intros [[]|[]]; reflexivity.
Qed.

(** ** The handlers in state CONNECTED *)

Lemma read_handler_below (from : side) (c : redsocks_client)
      (bfrom bto : bufferevent) :
  bev_of c from = Some bfrom -> bev_of c (peer from) = Some bto ->
  state c = ss_connected ->
  evbuffer_get_length (output bto) < get_write_hwm bto ->
  exists c1 c',
    pump from (redsocks_touch_client c) from (peer from) = Some c1 /\
    control c1 = control (redsocks_touch_client c) /\
    bufferevent_enable c1 from EV_READ = Some c' /\
    read_handler from from c = Some c' /\
    reads_enabled c' from = true /\
    status c' = status c /\
    (forall r, get_evbuffer c' r = get_evbuffer c1 r).
Proof.
  intros Hf Ht Hst Hbelow.
  rewrite (read_handler_connected from c bfrom bto Hf Ht Hst).
  apply Nat.ltb_lt in Hbelow. rewrite Hbelow.
  destruct (pump_frame from (redsocks_touch_client c) from (peer from) bfrom bto)
    as (c1 & Hp & Hctl & _); rewrite ?bev_of_touch; try assumption.
  destruct (control_bev_some _ c1 from bfrom Hctl) as (b1 & Hb1 & _);
    [now rewrite bev_of_touch|].
  destruct (bufferevent_enable_frame c1 from EV_READ b1 Hb1)
    as (c' & Hen & Hs & _ & Hq & _).
  exists c1, c'. rewrite Hp. cbn [bind].
  repeat split; try assumption.
  - eapply reads_enabled_after_enable; eassumption.
  - rewrite Hs. rewrite (control_status _ _ Hctl). apply status_touch.
Qed.

Lemma read_handler_at_mark (from : side) (c : redsocks_client)
      (bfrom bto : bufferevent) :
  bev_of c from = Some bfrom -> bev_of c (peer from) = Some bto ->
  state c = ss_connected ->
  get_write_hwm bto <= evbuffer_get_length (output bto) ->
  exists c',
    read_handler from from c = Some c' /\
    bufferevent_disable (redsocks_touch_client c) from EV_READ = Some c' /\
    reads_enabled c' from = false /\
    status c' = status c /\ payload c' = payload c /\
    (forall r, get_evbuffer c' r = get_evbuffer c r).
Proof.
  intros Hf Ht Hst Hfull.
  rewrite (read_handler_connected from c bfrom bto Hf Ht Hst).
  apply Nat.ltb_ge in Hfull. rewrite Hfull.
  destruct (bufferevent_disable_frame (redsocks_touch_client c) from EV_READ bfrom)
    as (c' & Hdis & Hs & Hp & Hq & _); [now rewrite bev_of_touch|].
  exists c'. repeat split; try assumption.
  eapply reads_enabled_after_disable; eassumption.
Qed.

Lemma write_handler_resume (to : side) (c cs : redsocks_client)
      (bfrom bto bsf bs : bufferevent) :
  bev_of c (peer to) = Some bfrom -> bev_of c to = Some bto ->
  process_shutdown_on_write_ (redsocks_touch_client c) (peer to) to = (cs, 0%Z) ->
  bev_of cs (peer to) = Some bsf -> bev_of cs to = Some bs ->
  state cs = ss_connected ->
  (evbuffer_get_length (output bto) < get_write_hwm bs ->
   exists c1 c',
     (if negb (evbuffer_get_contiguous_space (input bfrom) =? 0)%nat
      then pump (peer to) cs (peer to) to else Some cs) = Some c1 /\
     control c1 = control cs /\
     write_handler to to c = Some c' /\
     status c' = status cs /\
     (forall r, get_evbuffer c' r = get_evbuffer c1 r) /\
     (ev_test (evshut_of cs (peer to)) EV_READ = true ->
      c' = c1 /\ enabled_of c' (peer to) = enabled_of cs (peer to)) /\
     (ev_test (evshut_of cs (peer to)) EV_READ = false ->
      bufferevent_enable c1 (peer to) EV_READ = Some c' /\
      reads_enabled c' (peer to) = true)) /\
  (get_write_hwm bs <= evbuffer_get_length (output bto) ->
   write_handler to to c = Some cs).
Proof.
  intros Hf Ht Hh Hsf Hst Hconn.
  rewrite (write_handler_after_helper to c cs bfrom bto 0%Z Hf Ht Hh).
  cbn [Z.eqb negb]. rewrite Hconn. cbn [Z.eqb ss_connected Pos.eqb].
  rewrite Hst. cbn [bind]. split.
  - intro Hbelow. apply Nat.ltb_lt in Hbelow. rewrite Hbelow.
    assert (Hrun : exists c1,
      (if negb (evbuffer_get_contiguous_space (input bfrom) =? 0)%nat
       then pump (peer to) cs (peer to) to else Some cs) = Some c1 /\
      control c1 = control cs).
    { destruct (negb _).
      - destruct (pump_frame (peer to) cs (peer to) to bsf bs Hsf Hst)
          as (c1 & Hp & Hctl & _). eauto.
      - eauto. }
    destruct Hrun as (c1 & Hrun & Hctl). rewrite Hrun. cbn [bind].
    rewrite (status_evshut _ _ (peer to) (control_status _ _ Hctl)).
    destruct (ev_test (evshut_of cs (peer to)) EV_READ) eqn:Hshut; cbn [negb].
    + exists c1, c1. repeat split; auto; try discriminate.
      * now apply control_status.
      * now apply control_enabled.
    + destruct (control_bev_some _ c1 (peer to) bsf Hctl Hsf) as (b1 & Hb1 & _).
      destruct (bufferevent_enable_frame c1 (peer to) EV_READ b1 Hb1)
        as (c' & Hen & Hs & _ & Hq & _).
      exists c1, c'. repeat split; auto; try discriminate.
      * rewrite Hs. now apply control_status.
      * eapply reads_enabled_after_enable; eassumption.
  - intro Hfull. apply Nat.ltb_ge in Hfull. now rewrite Hfull.
Qed.

(** ** Relay connect and relay connected *)

Lemma header_bytes_whole (a : sockaddr_in) :
  firstn (0 + sizeof_header) (header_bytes a) = header_bytes a.
Proof.
  destruct a as [[[[a0 a1] a2] a3] [p0 p1]]. reflexivity.
Qed.

Lemma ss_connect_relay_after_handshake
    (c : redsocks_client) (ectx dctx ectx' : enc_ctx) (rc : Z)
    (buff : list byte) (new_relay : option bufferevent) (sent : nat) :
  enc_ctx_init (info (ss_payload (instance c))) (e_ctx (payload c)) 1%Z
  = (0%Z, ectx) ->
  enc_ctx_init (info (ss_payload (instance c))) (d_ctx (payload c)) 0%Z
  = (0%Z, dctx) ->
  ss_encrypt ectx (header_bytes (destaddr c)) (64 + sizeof_header)
  = (rc, buff, ectx') ->
  rc <> 0%Z ->
  red_connect_relay_tfo
    (interface (config (instance c))) (relayaddr (config (instance c)))
    cb_NULL cb_ss_relay_connected cb_redsocks_event_error
    (handshake_built c ectx' dctx) (timeout (config (instance c))) buff
  = (new_relay, sent) ->
  ss_connect_relay c =
  let cc := set_relay (handshake_built c ectx' dctx) new_relay in
  if is_null new_relay then (redsocks_drop_client cc, (-1)%Z)
  else if negb (sent =? 0)%nat && negb (sent =? length buff)%nat
       then (redsocks_drop_client cc, (-1)%Z)
       else (cc, 0%Z).
Proof.
  intros He Hd Henc Hrc Hconn.
  destruct c as [i cl rl da st rcn ce re t [e d ei di] eff].
  unfold ss_connect_relay, handshake_built in *.
  lazy beta iota zeta delta
       [set_payload set_e_ctx set_d_ctx set_e_ctx_init set_d_ctx_init
        payload e_ctx d_ctx e_ctx_init d_ctx_init instance destaddr client
        relay state relay_connected client_evshut relay_evshut touches
        effects] in *.
  rewrite He. cbn [Z.eqb negb]. rewrite Hd. cbn [Z.eqb negb].
  rewrite header_bytes_whole, Henc.
  apply Z.eqb_neq in Hrc. rewrite Hrc.
  rewrite firstn_all, Hconn. reflexivity.
Qed.

Lemma redsocks_start_relay_ok (c0 cw : redsocks_client) (br0 : bufferevent) :
  relay c0 = Some br0 ->
  redsocks_start_relay c0 = Some (cw, 0%Z) ->
  cw = set_relay
         (set_client c0
            (set_callbacks (client c0) cb_redsocks_relay_generic
               cb_redsocks_relay_generic cb_redsocks_event_error))
         (Some (set_callbacks br0 cb_redsocks_relay_generic
                  cb_redsocks_relay_generic cb_redsocks_event_error)).
Proof.
  intros Hr. unfold redsocks_start_relay, bufferevent_setcb.
  cbn [bev_of bind put_bev]. cbn [relay set_client]. rewrite Hr. cbn [bind put_bev].
  destruct (start_relay_error _ =? 0)%Z eqn:Herr; intro H.
  - now inversion H.
  - inversion H as [[Hcw Hx]]. rewrite Hx in Herr. discriminate.
Qed.


Lemma bev_of_drop (c : redsocks_client) (s : side) :
  bev_of (redsocks_drop_client c) s = bev_of c s.
Proof.
  unfold redsocks_drop_client, ss_client_fini.
  destruct (e_ctx_init (payload c) =? 0)%Z; cbn;
    match goal with |- context [(?x =? 0)%Z] => destruct (x =? 0)%Z end;
    destruct s; reflexivity.
Qed.

Lemma dropped_after_drop (c : redsocks_client) :
  dropped (redsocks_drop_client c).
Proof.
  unfold dropped, redsocks_drop_client. cbn [effects set_effects].
  apply in_or_app. right. left. reflexivity.
Qed.

(** The outcome of one pump run on a non-empty first chain. *)
Lemma pump_first_run_outcome
    (d from to : side) (c : redsocks_client) (bf bt : bufferevent)
    (run : list byte) (rest : evbuffer) :
  bev_of c from = Some bf -> bev_of c to = Some bt ->
  input bf = run :: rest -> run <> [] ->
  exists c',
    pump d c from to = Some c' /\
    get_evbuffer c' (input_of from)
    = Some (evbuffer_drain (run :: rest) (length run)) /\
    control c' = control c /\
    ((forall granted,
         evbuffer_reserve_space
           (output bt) (required_size c (decrypt_flag d) (length run))
         = Some granted ->
         transform_rc c run (decrypt_flag d) granted = 0%Z) ->
     get_evbuffer c' (output_of to) = Some (output bt)).
Proof.
  intros Hfrom Hto Hin Hne.
  destruct (pump_first_run d c from to bf bt run rest Hfrom Hto Hin Hne)
    as (cm & Hmem & Hgi & Hp).
  assert (Hgo : get_evbuffer c (output_of to) = Some (output bt))
    by (simpl; now rewrite Hto).
  destruct (encrypt_mem_frame c (Some run) (length run) (output_of to)
              (decrypt_flag d) (output bt) Hgo) as (cm' & Hmem' & Hctl & _).
  rewrite Hmem in Hmem'. inversion Hmem'; subst cm'. clear Hmem'.
  eexists. split; [exact Hp|].
  split; [eapply get_put_evbuffer; eassumption|].
  split; [now rewrite control_put_evbuffer|].
  intro Hfail. rewrite get_put_evbuffer_other by discriminate.
  destruct (encrypt_mem_failure c (Some run) (length run) (output_of to)
              (decrypt_flag d) (output bt) Hgo) as (cm' & Hmem' & Hsame).
  { intros bytes granted Hb Hres. inversion Hb; subst bytes.
    rewrite firstn_all. now apply Hfail. }
  rewrite Hmem in Hmem'. inversion Hmem'; subst cm'. exact Hsame.
Qed.

(** The two ways a pump run forwards nothing, as one condition on the
    call it makes. *)
Lemma failed_call_cases
    (reserved : option nat) (rc_at : nat -> Z) :
  (reserved = None \/
   exists granted, reserved = Some granted /\ rc_at granted = 0%Z) ->
  forall granted, reserved = Some granted -> rc_at granted = 0%Z.
Proof.
  intros [Hnone|(g & Hg & Hrc)] granted Hres.
  - congruence.
  - assert (granted = g) by congruence. now subst.
Qed.

(** Whoever runs it, the pump leaves the status of the connection alone. *)
Lemma pump_status (d : side) (c c' : redsocks_client) (from to : side) :
  pump d c from to = Some c' -> status c' = status c.
Proof.
  intro Hp.
  destruct (bev_of c from) as [bf|] eqn:Hf.
  - destruct (bev_of c to) as [bt|] eqn:Ht.
    + destruct (pump_frame d c from to bf bt Hf Ht) as (c2 & Hp2 & Hctl & _).
      assert (c2 = c') by congruence. subst c2.
      now apply control_status.
    + destruct (contiguous_cases (input bf)) as [H0|(run & rest & Hin & Hne)].
      * rewrite (pump_empty d c from to bf Hf H0) in Hp. now inversion Hp.
      * exfalso. revert Hp.
        destruct d; simpl; unfold encrypt_buffer, decrypt_buffer,
          bufferevent_get_input; rewrite Hf; cbn [bind get_evbuffer];
          rewrite Hf; cbn [bind]; rewrite Hin;
          cbn [evbuffer_get_contiguous_space];
          (destruct (length run =? 0)%nat eqn:Hlen;
           [apply Nat.eqb_eq in Hlen; destruct run; [congruence|discriminate]|]);
          rewrite evbuffer_pullup_first_run by assumption;
          rewrite <- Hin; rewrite (put_evbuffer_input_same c from bf Hf);
          unfold bufferevent_get_output; rewrite Ht; discriminate.
  - exfalso. revert Hp.
    destruct d; simpl; unfold encrypt_buffer, decrypt_buffer,
      bufferevent_get_input; rewrite Hf; discriminate.
Qed.


(** ** What a committed transform leaves in the queue *)

Lemma evbuffer_commit_bytes (b : evbuffer) (granted : nat) (iov : list byte) :
  length iov <= granted ->
  evbuffer_bytes (evbuffer_commit_space b granted iov) = evbuffer_bytes b ++ iov.
Proof.
  intro Hfit. apply Nat.leb_le in Hfit.
  unfold evbuffer_commit_space. rewrite Hfit.
  destruct iov as [|x xs].
  - now rewrite app_nil_r.
  - unfold evbuffer_bytes. rewrite concat_app. cbn [concat].
    now rewrite app_nil_r.
Qed.

(** A transform that succeeds within the reservation leaves the output
    queue holding the bytes it held followed by what the transform
    wrote. *)
Lemma encrypt_mem_committed
    (c : redsocks_client) (bytes : list byte) (len : nat)
    (buf_out : evbuffer_ref) (decrypt : Z) (out : evbuffer)
    (granted : nat) (rc : Z) (written : list byte) (ctx : enc_ctx) :
  get_evbuffer c buf_out = Some out ->
  len <> 0 -> required_size c decrypt len <> 0 ->
  evbuffer_reserve_space out (required_size c decrypt len) = Some granted ->
  transform c (firstn len bytes) decrypt granted = (rc, written, ctx) ->
  rc <> 0%Z -> length written <= granted ->
  exists c' out',
    encrypt_mem c (Some bytes) len buf_out decrypt = Some c' /\
    get_evbuffer c' buf_out = Some out' /\
    evbuffer_bytes out' = evbuffer_bytes out ++ written.
Proof.
  intros Hout Hlen Hreq Hres Htr Hrc Hfit. unfold encrypt_mem.
  apply Nat.eqb_neq in Hlen. rewrite Hlen. cbn [orb is_null bind].
  unfold required_size in Hres, Hreq. unfold transform in Htr.
  apply Nat.eqb_neq in Hreq. apply Z.eqb_neq in Hrc.
  destruct (decrypt =? 0)%Z.
  - rewrite Hreq, Hout. cbn [bind]. rewrite Hres, Htr, Hrc.
    eexists. eexists. split; [reflexivity|]. split.
    + eapply get_put_evbuffer. rewrite get_evbuffer_set_payload. eassumption.
    + now apply evbuffer_commit_bytes.
  - rewrite Hreq, Hout. cbn [bind]. rewrite Hres, Htr, Hrc.
    eexists. eexists. split; [reflexivity|]. split.
    + eapply get_put_evbuffer. rewrite get_evbuffer_set_payload. eassumption.
    + now apply evbuffer_commit_bytes.
Qed.

(** One pump run whose transform succeeds within the reservation. *)
Lemma pump_committed
    (d from to : side) (c : redsocks_client) (bf bt : bufferevent)
    (run : list byte) (rest : evbuffer)
    (granted : nat) (rc : Z) (written : list byte) (ctx : enc_ctx) :
  bev_of c from = Some bf -> bev_of c to = Some bt ->
  input bf = run :: rest -> run <> [] ->
  required_size c (decrypt_flag d) (length run) <> 0 ->
  evbuffer_reserve_space (output bt)
    (required_size c (decrypt_flag d) (length run)) = Some granted ->
  transform c run (decrypt_flag d) granted = (rc, written, ctx) ->
  rc <> 0%Z -> length written <= granted ->
  exists c' out',
    pump d c from to = Some c' /\
    get_evbuffer c' (input_of from) = Some (evbuffer_drain rest 0) /\
    get_evbuffer c' (output_of to) = Some out' /\
    evbuffer_bytes out' = evbuffer_bytes (output bt) ++ written.
Proof.
  intros Hf Ht Hin Hne Hreq Hres Htr Hrc Hfit.
  destruct (pump_first_run d c from to bf bt run rest Hf Ht Hin Hne)
    as (cm & Hmem & Hgi & Hp).
  assert (Hgo : get_evbuffer c (output_of to) = Some (output bt))
    by (simpl; now rewrite Ht).
  assert (Hlen : length run <> 0) by (destruct run; [congruence|discriminate]).
  rewrite <- (firstn_all run) in Htr.
  destruct (encrypt_mem_committed c run (length run) (output_of to)
              (decrypt_flag d) (output bt) granted rc written ctx
              Hgo Hlen Hreq Hres Htr Hrc Hfit)
    as (cm' & out' & Hmem' & Hout' & Hbytes).
  assert (cm' = cm) by congruence. subst cm'.
  eexists. exists out'. split; [exact Hp|]. split; [|split].
  - rewrite <- (evbuffer_drain_first_run run rest).
    eapply get_put_evbuffer; eassumption.
  - rewrite get_put_evbuffer_other by discriminate. exact Hout'.
  - exact Hbytes.
Qed.

Lemma transform_by_payload (a b : redsocks_client) (bytes : list byte)
      (decrypt : Z) (granted : nat) :
  payload a = payload b ->
  transform a bytes decrypt granted = transform b bytes decrypt granted.
Proof. unfold transform. now intros ->. Qed.

Lemma required_size_by_payload (a b : redsocks_client) (decrypt : Z) (len : nat) :
  payload a = payload b ->
  required_size a decrypt len = required_size b decrypt len.
Proof. unfold required_size. now intros ->. Qed.

(** ** The relay-connected transition *)

Lemma ss_relay_connected_then_flush
    (c cw : redsocks_client) (br : bufferevent) :
  relay c = Some br -> state c = ss_new ->
  red_is_socket_connected_ok br <> 0%Z ->
  redsocks_start_relay (relay_marked_connected c br) = Some (cw, 0%Z) ->
  ss_relay_connected RelaySide c =
  if negb (evbuffer_get_length (input (client c)) =? 0)%nat
  then ss_relay_writecb RelaySide (relay_started c br)
  else Some (relay_started c br).
Proof.
  intros Hr Hnew Hok Hstart.
  assert (Hcw := redsocks_start_relay_ok (relay_marked_connected c br) cw
                   (set_timeouts br None None) eq_refl Hstart).
  unfold ss_relay_connected at 1. cbn [side_eqb assert bind bev_of].
  rewrite Hr. cbn [bind]. rewrite Hnew. cbn [Z.eqb ss_new assert bind].
  apply Z.eqb_neq in Hok. rewrite Hok.
  assert (Hts : bufferevent_set_timeouts
                  (set_state (set_relay_connected (redsocks_touch_client c) 1%Z)
                             ss_connected) RelaySide None None
                = Some (relay_marked_connected c br)).
  { unfold bufferevent_set_timeouts. cbn [bev_of]. cbn [relay set_state].
    cbn [relay set_relay_connected]. cbn [relay redsocks_touch_client set_touches].
    rewrite Hr. reflexivity. }
  rewrite Hts. cbn [bind]. rewrite Hstart. cbn [bind Z.eqb negb].
  subst cw. clear Hstart Hts.
  destruct c as [i cl rl da st rcn ce re t p e]. cbn in Hr, Hnew. subst rl st.
  unfold relay_started, relay_marked_connected.
  cbn -[ss_relay_writecb evbuffer_get_length]. reflexivity.
Qed.

(** The early bytes: with a non-empty first chain in the client input
    queue, the write handler [ss_relay_connected] calls forwards that
    chain when it gets as far as the pump and the call the pump makes
    succeeds. *)
Lemma ss_relay_connected_forwards
    (c cw : redsocks_client) (br : bufferevent)
    (run : list byte) (rest : evbuffer)
    (granted : nat) (rc : Z) (written : list byte) (ctx : enc_ctx) :
  relay c = Some br -> state c = ss_new ->
  red_is_socket_connected_ok br <> 0%Z ->
  redsocks_start_relay (relay_marked_connected c br) = Some (cw, 0%Z) ->
  input (client c) = run :: rest -> run <> [] ->
  process_shutdown_on_write_
    (redsocks_touch_client (relay_started c br)) ClientSide RelaySide
  = (redsocks_touch_client (relay_started c br), 0%Z) ->
  evbuffer_get_length (output br) < get_write_hwm br ->
  required_size c 0%Z (length run) <> 0 ->
  evbuffer_reserve_space (output br) (required_size c 0%Z (length run))
  = Some granted ->
  transform c run 0%Z granted = (rc, written, ctx) ->
  rc <> 0%Z -> length written <= granted ->
  exists c' out',
    ss_relay_connected RelaySide c = Some c' /\
    state c' = ss_connected /\
    get_evbuffer c' (output_of RelaySide) = Some out' /\
    evbuffer_bytes out' = evbuffer_bytes (output br) ++ written /\
    get_evbuffer c' (input_of ClientSide) = Some (evbuffer_drain rest 0) /\
    effects c' = effects c.
Proof.
  intros Hrelay Hnew Hok Hstart Hin Hne Hhelper Hbelow Hreq Hres Htr Hrc Hfit.
  rewrite (ss_relay_connected_then_flush c cw br Hrelay Hnew Hok Hstart).
  rewrite Hin.
  assert (Hlen : (evbuffer_get_length (run :: rest) =? 0)%nat = false).
  { apply Nat.eqb_neq. unfold evbuffer_get_length, evbuffer_bytes.
    cbn [concat]. rewrite length_app. destruct run; [congruence|].
    cbn [length]. lia. }
  rewrite Hlen. cbn [negb].
  set (c2 := relay_started c br) in *.
  set (cs := redsocks_touch_client c2) in *.
  set (bf := set_callbacks (client c) cb_ss_client_readcb
               cb_ss_client_writecb cb_redsocks_event_error).
  set (bt := set_callbacks (set_timeouts br None None) cb_ss_relay_readcb
               cb_ss_relay_writecb cb_redsocks_event_error).
  assert (Hf2 : bev_of c2 ClientSide = Some bf)
    by (destruct c; reflexivity).
  assert (Ht2 : bev_of c2 RelaySide = Some bt)
    by (destruct c; reflexivity).
  assert (Hfs : bev_of cs ClientSide = Some bf)
    by (unfold cs; now rewrite bev_of_touch).
  assert (Hts : bev_of cs RelaySide = Some bt)
    by (unfold cs; now rewrite bev_of_touch).
  assert (Hpay : payload cs = payload c) by (destruct c; reflexivity).
  assert (Hst : state cs = ss_connected) by (destruct c; reflexivity).
  assert (Heff : effects cs = effects c) by (destruct c; reflexivity).
  pose proof (write_handler_after_helper RelaySide c2 cs bf bt 0%Z
                Hf2 Ht2 Hhelper) as Hw2.
  cbn [write_handler peer] in Hw2. rewrite Hw2. clear Hw2.
  cbn [Z.eqb negb]. rewrite Hst. cbn [Z.eqb ss_connected Pos.eqb].
  rewrite Hts. cbn [bind].
  change (output bt) with (output br). change (get_write_hwm bt)
    with (get_write_hwm br).
  apply Nat.ltb_lt in Hbelow. rewrite Hbelow.
  change (input bf) with (input (client c)). rewrite Hin.
  cbn [evbuffer_get_contiguous_space].
  assert (Hrl : (length run =? 0)%nat = false)
    by (apply Nat.eqb_neq; destruct run; [congruence|discriminate]).
  rewrite Hrl. cbn [negb].
  rewrite <- (required_size_by_payload cs c 0%Z (length run) Hpay) in Hreq, Hres.
  rewrite <- (transform_by_payload cs c run 0%Z granted Hpay) in Htr.
  destruct (pump_committed ClientSide ClientSide RelaySide cs bf bt run rest
              granted rc written ctx Hfs Hts Hin Hne Hreq Hres Htr Hrc Hfit)
    as (c3 & out3 & Hp & Hin3 & Hout3 & Hbytes3).
  rewrite Hp. cbn [bind].
  destruct (pump_frame ClientSide cs ClientSide RelaySide bf bt Hfs Hts)
    as (c3' & Hp' & Hctl & _).
  assert (c3' = c3) by congruence. subst c3'.
  pose proof (control_status _ _ Hctl) as Hs3.
  destruct (negb (ev_test (evshut_of c3 ClientSide) EV_READ)).
  - destruct (control_bev_some _ c3 ClientSide bf Hctl Hfs) as (b3 & Hb3 & _).
    destruct (bufferevent_enable_frame c3 ClientSide EV_READ b3 Hb3)
      as (c' & Hen & Hs' & Hpay' & Hq' & _).
    rewrite Hen. exists c', out3. split; [reflexivity|].
    split; [now rewrite (status_state _ _ Hs'), (status_state _ _ Hs3)|].
    split; [now rewrite Hq'|]. split; [exact Hbytes3|].
    split; [now rewrite Hq'|].
    now rewrite (status_effects _ _ Hs'), (status_effects _ _ Hs3).
  - exists c3, out3. split; [reflexivity|].
    split; [now rewrite (status_state _ _ Hs3)|].
    split; [exact Hout3|]. split; [exact Hbytes3|]. split; [exact Hin3|].
    now rewrite (status_effects _ _ Hs3).
Qed.

(** What [ss_relay_connected] reaches once [redsocks_start_relay] has
    succeeded. *)
Lemma ss_relay_connected_started
    (c cw : redsocks_client) (br : bufferevent) :
  relay c = Some br -> state c = ss_new ->
  red_is_socket_connected_ok br <> 0%Z ->
  redsocks_start_relay (relay_marked_connected c br) = Some (cw, 0%Z) ->
  exists c2 bc2 br2,
    c2 = relay_started c br /\
    state c2 = ss_connected /\ relay_connected c2 = 1%Z /\
    bev_of c2 ClientSide = Some bc2 /\ bev_of c2 RelaySide = Some br2 /\
    timeout_read br2 = None /\ timeout_write br2 = None /\
    readcb bc2 = cb_ss_client_readcb /\ writecb bc2 = cb_ss_client_writecb /\
    errorcb bc2 = cb_redsocks_event_error /\
    readcb br2 = cb_ss_relay_readcb /\ writecb br2 = cb_ss_relay_writecb /\
    errorcb br2 = cb_redsocks_event_error /\
    input bc2 = input (client c) /\ effects c2 = effects c /\
    ss_relay_connected RelaySide c =
    (if negb (evbuffer_get_length (input bc2) =? 0)%nat
     then ss_relay_writecb RelaySide c2 else Some c2) /\
    ss_relay_connected RelaySide c2 = None /\
    (forall run rest granted rc written ctx,
        input (client c) = run :: rest -> run <> [] ->
        process_shutdown_on_write_ (redsocks_touch_client c2)
          ClientSide RelaySide
        = (redsocks_touch_client c2, 0%Z) ->
        evbuffer_get_length (output br) < get_write_hwm br ->
        required_size c 0%Z (length run) <> 0 ->
        evbuffer_reserve_space (output br) (required_size c 0%Z (length run))
        = Some granted ->
        transform c run 0%Z granted = (rc, written, ctx) ->
        rc <> 0%Z -> length written <= granted ->
        exists c' out',
          ss_relay_connected RelaySide c = Some c' /\
          state c' = ss_connected /\
          get_evbuffer c' (output_of RelaySide) = Some out' /\
          evbuffer_bytes out' = evbuffer_bytes (output br) ++ written /\
          get_evbuffer c' (input_of ClientSide) = Some (evbuffer_drain rest 0) /\
          effects c' = effects c).
Proof.
  intros Hr Hnew Hok Hstart.
  pose proof (ss_relay_connected_then_flush c cw br Hr Hnew Hok Hstart)
    as Hflush.
  assert (Hfwd : forall run rest granted rc written ctx,
    input (client c) = run :: rest -> run <> [] ->
    process_shutdown_on_write_ (redsocks_touch_client (relay_started c br))
      ClientSide RelaySide
    = (redsocks_touch_client (relay_started c br), 0%Z) ->
    evbuffer_get_length (output br) < get_write_hwm br ->
    required_size c 0%Z (length run) <> 0 ->
    evbuffer_reserve_space (output br) (required_size c 0%Z (length run))
    = Some granted ->
    transform c run 0%Z granted = (rc, written, ctx) ->
    rc <> 0%Z -> length written <= granted ->
    exists c' out',
      ss_relay_connected RelaySide c = Some c' /\
      state c' = ss_connected /\
      get_evbuffer c' (output_of RelaySide) = Some out' /\
      evbuffer_bytes out' = evbuffer_bytes (output br) ++ written /\
      get_evbuffer c' (input_of ClientSide) = Some (evbuffer_drain rest 0) /\
      effects c' = effects c).
  { intros. eapply ss_relay_connected_forwards; eassumption. }
  exists (relay_started c br),
         (set_callbacks (client c) cb_ss_client_readcb cb_ss_client_writecb
            cb_redsocks_event_error),
         (set_callbacks (set_timeouts br None None) cb_ss_relay_readcb
            cb_ss_relay_writecb cb_redsocks_event_error).
  repeat match goal with |- _ /\ _ => split end;
    try exact Hfwd; try exact Hflush;
    clear Hfwd Hflush Hstart;
    destruct c as [i cl rl da st rcn ce re t p e]; cbn in Hr, Hnew; subst rl st;
    reflexivity.
Qed.

(** ** Events that touch only one stream *)

Lemma read_handler_not_connected (from : side) (c : redsocks_client)
      (bfrom bto : bufferevent) :
  bev_of c from = Some bfrom -> bev_of c (peer from) = Some bto ->
  state c <> ss_connected ->
  read_handler from from c
  = Some (redsocks_drop_client (redsocks_touch_client c)).
Proof.
  intros Hf Ht Hst. apply Z.eqb_neq in Hst.
  destruct from; cbn [read_handler peer] in *.
  - unfold ss_client_readcb, bufferevent_get_output. rewrite Ht.
    cbn [bind get_evbuffer]. rewrite Ht. cbn [bind side_eqb assert].
    change (state (redsocks_touch_client c)) with (state c). now rewrite Hst.
  - unfold ss_relay_readcb, bufferevent_get_input, bufferevent_get_output.
    rewrite Hf. cbn [bind get_evbuffer]. rewrite Hf. cbn [bind].
    rewrite Ht. cbn [bind get_evbuffer]. rewrite Ht. cbn [bind side_eqb assert].
    change (state (redsocks_touch_client c)) with (state c). now rewrite Hst.
Qed.



End Lemmas.

(** * The claims *)

Section Claims.

Context {C : Cipher} {F : Framework}.

Lemma count_effect_app (e : effect) (l1 l2 : list effect) :
  count_effect e (l1 ++ l2) = count_effect e l1 + count_effect e l2.
Proof. unfold count_effect. now rewrite filter_app, length_app. Qed.

(** C9: calling [ss_client_fini] twice never releases a cipher context
    twice.  The first call releases each context exactly when its
    initialised flag is set and clears the flag; the second call changes
    nothing, so for either context the number of releases after two calls
    is the number before plus one if its flag was set and plus zero
    otherwise. *)
Theorem ss_client_fini_twice (c : redsocks_client) :
  ss_client_fini (ss_client_fini c) = ss_client_fini c /\
  effects (ss_client_fini c) =
    effects c
    ++ (if (e_ctx_init (payload c) =? 0)%Z then []
        else [eff_enc_ctx_free the_e_ctx])
    ++ (if (d_ctx_init (payload c) =? 0)%Z then []
        else [eff_enc_ctx_free the_d_ctx]) /\
  e_ctx_init (payload (ss_client_fini c)) = 0%Z /\
  d_ctx_init (payload (ss_client_fini c)) = 0%Z /\
  count_effect (eff_enc_ctx_free the_e_ctx)
               (effects (ss_client_fini (ss_client_fini c))) =
    count_effect (eff_enc_ctx_free the_e_ctx) (effects c)
    + (if (e_ctx_init (payload c) =? 0)%Z then 0 else 1) /\
  count_effect (eff_enc_ctx_free the_d_ctx)
               (effects (ss_client_fini (ss_client_fini c))) =
    count_effect (eff_enc_ctx_free the_d_ctx) (effects c)
    + (if (d_ctx_init (payload c) =? 0)%Z then 0 else 1).
Proof.
  assert (Htwice : ss_client_fini (ss_client_fini c) = ss_client_fini c).
  { destruct c as [i cl rl da st rc ce re t [e d ei di] eff].
    unfold ss_client_fini; cbn.
    destruct (Z.eqb_spec ei 0) as [->|He], (Z.eqb_spec di 0) as [->|Hd];
      try apply Z.eqb_neq in He; try apply Z.eqb_neq in Hd;
      repeat (cbn; rewrite ?He, ?Hd); reflexivity. }
  assert (Heff : effects (ss_client_fini c) =
    effects c
    ++ (if (e_ctx_init (payload c) =? 0)%Z then []
        else [eff_enc_ctx_free the_e_ctx])
    ++ (if (d_ctx_init (payload c) =? 0)%Z then []
        else [eff_enc_ctx_free the_d_ctx])).
  { destruct c as [i cl rl da st rc ce re t [e d ei di] eff].
    unfold ss_client_fini; cbn.
    destruct (Z.eqb_spec ei 0) as [->|He], (Z.eqb_spec di 0) as [->|Hd];
      try apply Z.eqb_neq in He; try apply Z.eqb_neq in Hd;
      repeat (cbn; rewrite ?He, ?Hd); rewrite ?app_nil_r, <- ?app_assoc;
      reflexivity. }
  rewrite Htwice, Heff. repeat split.
  - destruct c as [i cl rl da st rc ce re t [e d ei di] eff].
    unfold ss_client_fini; cbn.
    destruct (Z.eqb_spec ei 0) as [->|He], (Z.eqb_spec di 0) as [->|Hd];
      try apply Z.eqb_neq in He; try apply Z.eqb_neq in Hd;
      repeat (cbn; rewrite ?He, ?Hd); reflexivity.
  - destruct c as [i cl rl da st rc ce re t [e d ei di] eff].
    unfold ss_client_fini; cbn.
    destruct (Z.eqb_spec ei 0) as [->|He], (Z.eqb_spec di 0) as [->|Hd];
      try apply Z.eqb_neq in He; try apply Z.eqb_neq in Hd;
      repeat (cbn; rewrite ?He, ?Hd); reflexivity.
  - rewrite !count_effect_app.
    destruct (e_ctx_init (payload c) =? 0)%Z, (d_ctx_init (payload c) =? 0)%Z;
      cbn; lia.
  - rewrite !count_effect_app.
    destruct (e_ctx_init (payload c) =? 0)%Z, (d_ctx_init (payload c) =? 0)%Z;
      cbn; lia.
Qed.

(** C7, as the code has it: [ss_is_valid_cred] answers 1 exactly for the
    pairs of non-NULL strings of at most 255 bytes each, and 0 for every
    other input; it does not look at which method is named.
    [ss_instance_init] fails whenever the check fails, and also whenever
    [enc_init] then answers -1 (the place where a method the cipher
    library does not know is refused); in every other case it succeeds. *)
Theorem credential_check_by_design (m p : cstring) (i : redsocks_instance) :
  (ss_is_valid_cred m p = 1%Z <->
   exists ms ps, m = Some ms /\ p = Some ps /\
                 strlen ms <= 255 /\ strlen ps <= 255) /\
  (ss_is_valid_cred m p = 0%Z <->
   ~ exists ms ps, m = Some ms /\ p = Some ps /\
                   strlen ms <= 255 /\ strlen ps <= 255) /\
  (snd (ss_instance_init i) = (-1)%Z <->
   ss_is_valid_cred (login (config i)) (password (config i)) = 0%Z \/
   fst (enc_init (info (ss_payload i)) (password (config i)) (login (config i)))
   = (-1)%Z) /\
  (snd (ss_instance_init i) = 0%Z <->
   ss_is_valid_cred (login (config i)) (password (config i)) = 1%Z /\
   fst (enc_init (info (ss_payload i)) (password (config i)) (login (config i)))
   <> (-1)%Z).
Proof.
  split; [apply ss_is_valid_cred_accepts|]. split.
  { rewrite <- ss_is_valid_cred_accepts.
    destruct (ss_is_valid_cred_range m p) as [H|H]; rewrite H;
      split; congruence. }
  unfold ss_instance_init.
  destruct (ss_is_valid_cred_range (login (config i)) (password (config i)))
    as [H|H]; rewrite H; cbn [Z.eqb snd].
  - split; split; auto; try discriminate. intros [? _]; discriminate.
  - destruct (enc_init _ _ _) as [k new_info]. cbn [fst].
    destruct (Z.eqb_spec k (-1)) as [->|Hk]; cbn [snd]; split; split;
      auto; try discriminate; try tauto.
    intros [?|?]; [discriminate|contradiction].
Qed.

(** C6: whenever the transform [encrypt_mem] runs reports failure, the
    call returns and the output queue it was given holds exactly what it
    held before: same chain, same readable bytes, same length.  The
    transform meant is the call [encrypt_mem] makes: on the first [len]
    bytes it was given, with the room [granted] that the reservation on
    that queue returned. *)
Theorem encrypt_mem_failed_transform_enqueues_nothing
    (c : redsocks_client) (data : option (list byte)) (len : nat)
    (buf_out : evbuffer_ref) (decrypt : Z) (out : evbuffer)
    (Hout : get_evbuffer c buf_out = Some out)
    (Hfail : forall bytes granted,
        data = Some bytes ->
        evbuffer_reserve_space out (required_size c decrypt len)
        = Some granted ->
        transform_rc c (firstn len bytes) decrypt granted = 0%Z) :
  exists c' out',
    encrypt_mem c data len buf_out decrypt = Some c' /\
    get_evbuffer c' buf_out = Some out' /\
    out' = out /\
    evbuffer_bytes out' = evbuffer_bytes out /\
    evbuffer_get_length out' = evbuffer_get_length out.
Proof.
  destruct (encrypt_mem_failure c data len buf_out decrypt out Hout Hfail)
    as (c' & Hrun & Hsame).
  exists c', out. auto.
Qed.

(** C5, as the code has it: one invocation of [encrypt_buffer]
    ([pump ClientSide]) or [decrypt_buffer] ([pump RelaySide]) works on
    the first chain of the source input queue and on nothing else.  With
    an empty first chain the connection is returned unchanged.  Otherwise
    [encrypt_mem] is run on exactly that chain towards the destination
    output queue and the source queue loses exactly that chain (its bytes
    afterwards are those of the later chains); when the reservation
    succeeds and the transform, run with the room it granted, succeeds
    and writes no more than that room, the bytes of the destination queue
    are those it held followed by exactly what the transform wrote; and
    when the reservation fails, or the transform run with the room it
    granted reports failure, the destination queue is unchanged. *)
Theorem pump_processes_first_contiguous_run
    (d from to : side) (c : redsocks_client) (bf bt : bufferevent)
    (Hfrom : bev_of c from = Some bf) (Hto : bev_of c to = Some bt) :
  (evbuffer_get_contiguous_space (input bf) = 0 -> pump d c from to = Some c) /\
  (forall run rest,
      input bf = run :: rest -> run <> [] ->
      exists cm c',
        encrypt_mem c (Some run) (length run) (output_of to) (decrypt_flag d)
        = Some cm /\
        pump d c from to = Some c' /\
        c' = put_evbuffer cm (input_of from)
                          (evbuffer_drain (input bf) (length run)) /\
        get_evbuffer c' (input_of from) = Some (evbuffer_drain rest 0) /\
        evbuffer_bytes (evbuffer_drain rest 0) = evbuffer_bytes rest /\
        get_evbuffer c' (output_of to) = get_evbuffer cm (output_of to) /\
        (forall granted rc written ctx,
            required_size c (decrypt_flag d) (length run) <> 0 ->
            evbuffer_reserve_space
              (output bt) (required_size c (decrypt_flag d) (length run))
            = Some granted ->
            transform c run (decrypt_flag d) granted = (rc, written, ctx) ->
            rc <> 0%Z -> length written <= granted ->
            exists out',
              get_evbuffer c' (output_of to) = Some out' /\
              evbuffer_bytes out' = evbuffer_bytes (output bt) ++ written) /\
        ((evbuffer_reserve_space
            (output bt) (required_size c (decrypt_flag d) (length run)) = None \/
          exists granted,
            evbuffer_reserve_space
              (output bt) (required_size c (decrypt_flag d) (length run))
            = Some granted /\
            transform_rc c run (decrypt_flag d) granted = 0%Z) ->
         get_evbuffer c' (output_of to) = Some (output bt))).
Proof.
  split.
  - intro H0. eapply pump_empty; eassumption.
  - intros run rest Hin Hne.
    destruct (pump_first_run d c from to bf bt run rest Hfrom Hto Hin Hne)
      as (cm & Hmem & Hgi & Hp).
    exists cm. eexists. split; [exact Hmem|]. split; [exact Hp|].
    split; [now rewrite Hin|]. split.
    { rewrite <- evbuffer_drain_first_run with (run := run).
      eapply get_put_evbuffer; eassumption. }
    split; [now rewrite evbuffer_drain_bytes|].
    assert (Hkeep : get_evbuffer
              (put_evbuffer cm (input_of from)
                 (evbuffer_drain (run :: rest) (length run))) (output_of to)
            = get_evbuffer cm (output_of to))
      by (apply get_put_evbuffer_other; discriminate).
    split; [exact Hkeep|]. split.
    + intros granted rc written ctx Hreq Hres Htr Hrc Hfit.
      rewrite Hkeep.
      assert (Hgo : get_evbuffer c (output_of to) = Some (output bt))
        by (simpl; now rewrite Hto).
      assert (Hlen : length run <> 0)
        by (destruct run; [congruence|discriminate]).
      rewrite <- (firstn_all run) in Htr.
      destruct (encrypt_mem_committed c run (length run) (output_of to)
                  (decrypt_flag d) (output bt) granted rc written ctx
                  Hgo Hlen Hreq Hres Htr Hrc Hfit)
        as (cm' & out' & Hmem' & Hout' & Hbytes).
      rewrite Hmem in Hmem'. inversion Hmem'; subst cm'. eauto.
    + intro Hbad.
      destruct (pump_first_run_outcome d from to c bf bt run rest
                  Hfrom Hto Hin Hne) as (c2 & Hp2 & _ & _ & Hsame).
      assert (Hc2 : c2 = put_evbuffer cm (input_of from)
                          (evbuffer_drain (run :: rest) (length run)))
        by congruence.
      subst c2. apply Hsame.
      exact (failed_call_cases _
               (transform_rc c run (decrypt_flag d)) Hbad).
Qed.

(** C10: when [encrypt_buffer] or [decrypt_buffer] finds a non-empty
    first chain, it returns with the source input queue shortened by the
    whole chain whatever became of the transform.  The state field, the
    context flags and the recorded effects are untouched (the connection
    is neither dropped nor torn down); and when the reservation fails, or
    the transform run with the room the reservation granted reports
    failure, the destination output queue is unchanged, so the drained
    bytes are gone. *)
Theorem pump_drains_unconditionally
    (d from to : side) (c : redsocks_client) (bf bt : bufferevent)
    (run : list byte) (rest : evbuffer)
    (Hfrom : bev_of c from = Some bf) (Hto : bev_of c to = Some bt)
    (Hin : input bf = run :: rest) (Hne : run <> []) :
  exists c' buf_in',
    pump d c from to = Some c' /\
    get_evbuffer c' (input_of from) = Some buf_in' /\
    evbuffer_bytes buf_in' = skipn (length run) (evbuffer_bytes (input bf)) /\
    evbuffer_get_length buf_in' = evbuffer_get_length (input bf) - length run /\
    state c' = state c /\ effects c' = effects c /\ control c' = control c /\
    ((evbuffer_reserve_space
        (output bt) (required_size c (decrypt_flag d) (length run)) = None \/
      exists granted,
        evbuffer_reserve_space
          (output bt) (required_size c (decrypt_flag d) (length run))
        = Some granted /\
        transform_rc c run (decrypt_flag d) granted = 0%Z) ->
     get_evbuffer c' (output_of to) = Some (output bt)).
Proof.
  destruct (pump_first_run_outcome d from to c bf bt run rest Hfrom Hto Hin Hne)
    as (c' & Hp & Hgi & Hctl & Hbad).
  exists c', (evbuffer_drain (run :: rest) (length run)).
  split; [exact Hp|]. split; [exact Hgi|].
  split; [now rewrite evbuffer_drain_bytes, Hin|].
  split.
  { unfold evbuffer_get_length. rewrite evbuffer_drain_bytes, length_skipn.
    now rewrite Hin. }
  split; [exact (status_state _ _ (control_status _ _ Hctl))|].
  split; [exact (status_effects _ _ (control_status _ _ Hctl))|].
  split; [exact Hctl|].
  intro Hcall. apply Hbad.
  exact (failed_call_cases _ (transform_rc c run (decrypt_flag d)) Hcall).
Qed.

(** C3, as the code has it: a transform that fails in the data pump is
    not fatal.  For a read event in state CONNECTED with the destination
    below the mark and a non-empty first chain, if the transform the pump
    runs (on that chain, with the room the reservation granted) reports
    failure, the handler returns normally: the state is still CONNECTED,
    no effect is recorded (no drop, no context released), both context
    flags are as before, the destination output queue is unchanged, the
    chain has left the source input queue and reads on the source are
    enabled.  And whichever handler runs it, a pump run that returns
    leaves the status of the connection (state, effects, half-close and
    context flags) as it found it, so no handler can reach the drop path
    through the pump. *)
Theorem failed_transform_is_not_fatal
    (from : side) (c : redsocks_client) (bfrom bto : bufferevent)
    (run : list byte) (rest : evbuffer)
    (Hfrom : bev_of c from = Some bfrom)
    (Hto : bev_of c (peer from) = Some bto)
    (Hst : state c = ss_connected)
    (Hbelow : evbuffer_get_length (output bto) < get_write_hwm bto)
    (Hin : input bfrom = run :: rest) (Hne : run <> [])
    (granted : nat)
    (Hres : evbuffer_reserve_space
              (output bto) (required_size c (decrypt_flag from) (length run))
            = Some granted)
    (Hfail : transform_rc c run (decrypt_flag from) granted = 0%Z) :
  exists c',
    read_handler from from c = Some c' /\
    state c' = ss_connected /\
    effects c' = effects c /\
    (dropped c' <-> dropped c) /\
    e_ctx_init (payload c') = e_ctx_init (payload c) /\
    d_ctx_init (payload c') = d_ctx_init (payload c) /\
    get_evbuffer c' (output_of (peer from)) = Some (output bto) /\
    get_evbuffer c' (input_of from) = Some (evbuffer_drain rest 0) /\
    reads_enabled c' from = true /\
    (forall d src dst c0 c1,
        pump d c0 src dst = Some c1 -> status c1 = status c0).
Proof.
  destruct (read_handler_below from c bfrom bto Hfrom Hto Hst Hbelow)
    as (c1 & c' & Hp & _ & _ & Hh & Hen & Hs & Hq).
  destruct (pump_first_run_outcome from from (peer from)
              (redsocks_touch_client c) bfrom bto run rest)
    as (c1' & Hp' & Hgi & _ & Hbad); rewrite ?bev_of_touch; try assumption.
  rewrite Hp in Hp'. inversion Hp'; subst c1'. clear Hp'.
  exists c'. split; [exact Hh|].
  split; [now rewrite (status_state _ _ Hs)|].
  split; [exact (status_effects _ _ Hs)|].
  split; [unfold dropped; now rewrite (status_effects _ _ Hs)|].
  split; [exact (proj1 (status_ctx_init _ _ Hs))|].
  split; [exact (proj2 (status_ctx_init _ _ Hs))|].
  split.
  { rewrite Hq. apply Hbad. intros g Hg.
    change (required_size (redsocks_touch_client c))
      with (required_size c) in Hg.
    assert (g = granted) by congruence. subst g. exact Hfail. }
  split; [rewrite Hq, Hgi; now rewrite evbuffer_drain_first_run|].
  split; [exact Hen|].
  intros d src dst c0 c2. apply pump_status.
Qed.

(** C2, as the code has it.  In state CONNECTED, for the stream [from]
    and its peer:
    - a read event on [from] with the peer's output queue at or above the
      mark disables reads on [from] and changes no queue and no cipher
      state;
    - a read event on [from] with that queue below the mark runs the pump
      once and enables reads on [from];
    - a write-completion event on the peer that
      [process_shutdown_on_write_] does not take over (result 0, state
      still CONNECTED) compares the queue length sampled on entry with
      the mark: at or above, nothing more happens; below, the pump runs
      if the source had a non-empty first chain on entry, and reads on
      [from] are enabled unless the evshut flag of [from] has EV_READ, in
      which case the enabled events of [from] stay as they were. *)
Theorem backpressure_by_design
    (from : side) (c : redsocks_client) (bfrom bto : bufferevent)
    (Hfrom : bev_of c from = Some bfrom)
    (Hto : bev_of c (peer from) = Some bto)
    (Hst : state c = ss_connected) :
  (get_write_hwm bto <= evbuffer_get_length (output bto) ->
   exists c',
     read_handler from from c = Some c' /\
     reads_enabled c' from = false /\
     payload c' = payload c /\
     (forall r, get_evbuffer c' r = get_evbuffer c r)) /\
  (evbuffer_get_length (output bto) < get_write_hwm bto ->
   exists c1 c',
     pump from (redsocks_touch_client c) from (peer from) = Some c1 /\
     read_handler from from c = Some c' /\
     (forall r, get_evbuffer c' r = get_evbuffer c1 r) /\
     reads_enabled c' from = true) /\
  (forall cs bsf bs,
      process_shutdown_on_write_ (redsocks_touch_client c) from (peer from)
      = (cs, 0%Z) ->
      bev_of cs from = Some bsf -> bev_of cs (peer from) = Some bs ->
      state cs = ss_connected ->
      (get_write_hwm bs <= evbuffer_get_length (output bto) ->
       write_handler (peer from) (peer from) c = Some cs) /\
      (evbuffer_get_length (output bto) < get_write_hwm bs ->
       exists c1 c',
         (if negb (evbuffer_get_contiguous_space (input bfrom) =? 0)%nat
          then pump from cs from (peer from) else Some cs) = Some c1 /\
         write_handler (peer from) (peer from) c = Some c' /\
         (forall r, get_evbuffer c' r = get_evbuffer c1 r) /\
         (ev_test (evshut_of cs from) EV_READ = false ->
          reads_enabled c' from = true) /\
         (ev_test (evshut_of cs from) EV_READ = true ->
          enabled_of c' from = enabled_of cs from))).
Proof.
  split; [|split].
  - intro Hfull.
    destruct (read_handler_at_mark from c bfrom bto Hfrom Hto Hst Hfull)
      as (c' & Hh & _ & Hoff & _ & Hp & Hq).
    exists c'. auto.
  - intro Hbelow.
    destruct (read_handler_below from c bfrom bto Hfrom Hto Hst Hbelow)
      as (c1 & c' & Hp & _ & _ & Hh & Hen & _ & Hq).
    exists c1, c'. auto.
  - intros cs bsf bs Hh Hsf Hs Hconn.
    assert (Hpp : peer (peer from) = from) by (destruct from; reflexivity).
    destruct (write_handler_resume (peer from) c cs bfrom bto bsf bs)
      as (Hlow & Hhigh); rewrite ?Hpp; try assumption.
    split; [exact Hhigh|].
    intro Hbelow. destruct (Hlow Hbelow)
      as (c1 & c' & Hrun & _ & Hw & _ & Hq & Hshut & Hopen).
    rewrite Hpp in *.
    exists c1, c'. repeat split; try assumption.
    + intro H. now apply Hopen.
    + intro H. now apply Hshut.
Qed.


(** C1, as the code has it.  For a connection in state NEW whose relay
    socket connected without error, and provided [redsocks_start_relay]
    reports success: [ss_relay_connected] reaches a connection [c2] that
    is in state CONNECTED, marked relay-connected, without timeouts on the
    relay stream, with the four steady-state handlers (and the framework's
    error handler) installed on the two streams, the client input queue
    and the recorded effects as before; it returns [c2] when the client
    input queue is empty and the result of [ss_relay_writecb] on [c2]
    otherwise ([c2] is [relay_started c br]).  The transition cannot fire
    again: on [c2] the handler's assertion on the state fails.  And the
    early bytes are forwarded
    before the handler returns: when the first chain of the client input
    queue is non-empty, [process_shutdown_on_write_] declines the event
    leaving [c2] as it is, the relay output queue is below its mark, and
    the reservation and the encryption of that chain succeed within the
    room reserved, the handler returns in state CONNECTED with the bytes
    of the relay output queue followed by what the encryption wrote, and
    with that chain gone from the client input queue. *)
Theorem relay_connected_by_design
    (c cw : redsocks_client) (br : bufferevent)
    (Hrelay : relay c = Some br) (Hnew : state c = ss_new)
    (Hok : red_is_socket_connected_ok br <> 0%Z)
    (Hstart : redsocks_start_relay (relay_marked_connected c br)
              = Some (cw, 0%Z)) :
  exists c2 bc2 br2,
    c2 = relay_started c br /\
    state c2 = ss_connected /\ relay_connected c2 = 1%Z /\
    bev_of c2 ClientSide = Some bc2 /\ bev_of c2 RelaySide = Some br2 /\
    timeout_read br2 = None /\ timeout_write br2 = None /\
    readcb bc2 = cb_ss_client_readcb /\ writecb bc2 = cb_ss_client_writecb /\
    errorcb bc2 = cb_redsocks_event_error /\
    readcb br2 = cb_ss_relay_readcb /\ writecb br2 = cb_ss_relay_writecb /\
    errorcb br2 = cb_redsocks_event_error /\
    input bc2 = input (client c) /\ effects c2 = effects c /\
    ss_relay_connected RelaySide c =
    (if negb (evbuffer_get_length (input bc2) =? 0)%nat
     then ss_relay_writecb RelaySide c2 else Some c2) /\
    ss_relay_connected RelaySide c2 = None /\
    (forall run rest granted rc written ctx,
        input (client c) = run :: rest -> run <> [] ->
        process_shutdown_on_write_ (redsocks_touch_client c2)
          ClientSide RelaySide
        = (redsocks_touch_client c2, 0%Z) ->
        evbuffer_get_length (output br) < get_write_hwm br ->
        required_size c 0%Z (length run) <> 0 ->
        evbuffer_reserve_space (output br) (required_size c 0%Z (length run))
        = Some granted ->
        transform c run 0%Z granted = (rc, written, ctx) ->
        rc <> 0%Z -> length written <= granted ->
        exists c' out',
          ss_relay_connected RelaySide c = Some c' /\
          state c' = ss_connected /\
          get_evbuffer c' (output_of RelaySide) = Some out' /\
          evbuffer_bytes out' = evbuffer_bytes (output br) ++ written /\
          get_evbuffer c' (input_of ClientSide) = Some (evbuffer_drain rest 0) /\
          effects c' = effects c).
Proof.
  exact (ss_relay_connected_started c cw br Hrelay Hnew Hok Hstart).
Qed.

(** C4: once both contexts are initialised and the header is encrypted
    into [buff], [ss_connect_relay] hands [buff] to the connect helper and
    - drops the client and returns -1 when the helper returns no relay
      stream;
    - otherwise keeps the relay stream and returns 0 when the helper
      reports a sent length of zero (and also when it reports the full
      length of [buff]);
    - otherwise, for a non-zero sent length different from the length of
      [buff], drops the client and returns -1.
    In the two proceeding cases nothing is recorded as released or
    dropped. *)
Theorem connect_relay_piggyback_outcomes
    (c : redsocks_client) (ectx dctx ectx' : enc_ctx) (rc : Z)
    (buff : list byte) (new_relay : option bufferevent) (sent : nat)
    (He : enc_ctx_init (info (ss_payload (instance c))) (e_ctx (payload c)) 1%Z
          = (0%Z, ectx))
    (Hd : enc_ctx_init (info (ss_payload (instance c))) (d_ctx (payload c)) 0%Z
          = (0%Z, dctx))
    (Henc : ss_encrypt ectx (header_bytes (destaddr c)) (64 + sizeof_header)
            = (rc, buff, ectx'))
    (Hrc : rc <> 0%Z)
    (Hconn : red_connect_relay_tfo
               (interface (config (instance c)))
               (relayaddr (config (instance c)))
               cb_NULL cb_ss_relay_connected cb_redsocks_event_error
               (handshake_built c ectx' dctx)
               (timeout (config (instance c))) buff
             = (new_relay, sent)) :
  let cc := set_relay (handshake_built c ectx' dctx) new_relay in
  (new_relay = None ->
   ss_connect_relay c = (redsocks_drop_client cc, (-1)%Z)) /\
  (forall b, new_relay = Some b -> sent = 0 ->
   ss_connect_relay c = (cc, 0%Z)) /\
  (forall b, new_relay = Some b -> sent <> 0 -> sent <> length buff ->
   ss_connect_relay c = (redsocks_drop_client cc, (-1)%Z)) /\
  (forall b, new_relay = Some b -> sent = length buff ->
   ss_connect_relay c = (cc, 0%Z)) /\
  dropped (redsocks_drop_client cc) /\
  effects cc = effects c.
Proof.
  intro cc.
  pose proof (ss_connect_relay_after_handshake c ectx dctx ectx' rc buff
                new_relay sent He Hd Henc Hrc Hconn) as Heq.
  cbv zeta in Heq. fold cc in Heq. rewrite Heq.
  split; [|split; [|split; [|split; [|split]]]].
  - intros ->. reflexivity.
  - intros b -> ->. reflexivity.
  - intros b -> H0 Hl. cbn [is_null].
    apply Nat.eqb_neq in H0, Hl. now rewrite H0, Hl.
  - intros b -> ->. cbn [is_null]. rewrite Nat.eqb_refl.
    now rewrite andb_false_r.
  - apply dropped_after_drop.
  - reflexivity.
Qed.

End Claims.

(** * Concrete runs

    The statements above at explicit connections of the small cipher and
    framework, and the connections on which the specification's wording
    fails. *)

(** The scenario of the specification: bytes the client sent before the
    relay connect completed are encrypted and queued for the relay by
    [ss_relay_connected] itself, and the handlers are in place. *)
Example relay_connected_flushes_early_bytes :
  exists c',
    @ss_relay_connected Toy.cipher Toy.fw RelaySide Toy.fresh = Some c' /\
    state c' = ss_connected /\
    get_evbuffer c' (input_of ClientSide) = Some [] /\
    get_evbuffer c' (output_of RelaySide) = Some [map Toy.flip Toy.hello] /\
    option_map readcb (bev_of c' ClientSide) = Some cb_ss_client_readcb /\
    option_map writecb (bev_of c' RelaySide) = Some cb_ss_relay_writecb.
Proof. eexists. split; [vm_compute; reflexivity|]. repeat split. Qed.

(** A healthy read event forwards one chain and leaves the next. *)
Example client_read_forwards_one_chain :
  exists c',
    @ss_client_readcb Toy.cipher Toy.fw ClientSide Toy.flowing = Some c' /\
    get_evbuffer c' (input_of ClientSide) = Some [Toy.hello] /\
    get_evbuffer c' (output_of RelaySide) = Some [map Toy.flip Toy.hello].
Proof. eexists. split; [vm_compute; reflexivity|]. repeat split. Qed.

(** C1, witness: the fresh connection, with a framework whose
    [redsocks_start_relay] succeeds; the five early bytes reach the relay
    output queue. *)
Lemma relay_connected_by_design_witness :
  relay Toy.fresh = Some (Toy.stream [] [] EV_WRITE 100) /\
  state Toy.fresh = ss_new /\
  @red_is_socket_connected_ok Toy.cipher Toy.fw
    (Toy.stream [] [] EV_WRITE 100) <> 0%Z /\
  (exists cw,
      @redsocks_start_relay Toy.cipher Toy.fw
        (relay_marked_connected Toy.fresh (Toy.stream [] [] EV_WRITE 100))
      = Some (cw, 0%Z)) /\
  (exists c2,
      state c2 = ss_connected /\ relay_connected c2 = 1%Z /\
      effects c2 = [] /\
      @ss_relay_connected Toy.cipher Toy.fw RelaySide c2 = None) /\
  exists c' out',
    @ss_relay_connected Toy.cipher Toy.fw RelaySide Toy.fresh = Some c' /\
    state c' = ss_connected /\
    get_evbuffer c' (output_of RelaySide) = Some out' /\
    evbuffer_bytes out' = [] ++ map Toy.flip Toy.hello /\
    get_evbuffer c' (input_of ClientSide) = Some [].
Proof.
  assert (H1 : relay Toy.fresh = Some (Toy.stream [] [] EV_WRITE 100))
    by reflexivity.
  assert (H2 : state Toy.fresh = ss_new) by reflexivity.
  assert (H3 : @red_is_socket_connected_ok Toy.cipher Toy.fw
                 (Toy.stream [] [] EV_WRITE 100) <> 0%Z)
    by (vm_compute; discriminate).
  assert (H4 : @redsocks_start_relay Toy.cipher Toy.fw
                 (relay_marked_connected Toy.fresh
                    (Toy.stream [] [] EV_WRITE 100))
               = Some (fst (match @redsocks_start_relay Toy.cipher Toy.fw
                                    (relay_marked_connected Toy.fresh
                                       (Toy.stream [] [] EV_WRITE 100)) with
                            | Some r => r
                            | None => (Toy.fresh, 0%Z)
                            end), 0%Z))
    by reflexivity.
  split; [exact H1|]. split; [exact H2|]. split; [exact H3|].
  split; [eexists; exact H4|].
  destruct (@relay_connected_by_design Toy.cipher Toy.fw Toy.fresh _ _
              H1 H2 H3 H4)
    as (c2 & bc2 & br2 & Hc2 & Hs & Hm & _ & _ & _ & _ & _ & _ & _ & _ & _
        & _ & _ & He & _ & Honce & Hfwd).
  split; [exists c2; rewrite He; auto|].
  destruct (Hfwd Toy.hello [] 21 1%Z (map Toy.flip Toy.hello) (Some 5))
    as (c' & out' & Hrun & Hst & Hout & Hbytes & Hin & _).
  - reflexivity.
  - discriminate.
  - rewrite Hc2. reflexivity.
  - vm_compute. lia.
  - discriminate.
  - reflexivity.
  - reflexivity.
  - discriminate.
  - vm_compute. lia.
  - exists c', out'. auto.
Defined.

(** C1, counterexamples.  The fresh connection when
    [redsocks_start_relay] fails: the handler returns through the
    call-site guard, after the framework has dropped the client, and the
    streams keep the handlers the framework had wired.  The fresh
    connection when the relay output queue cannot reserve space, and the
    one whose encryption fails: the handlers are installed, the early
    bytes leave the client input queue and nothing reaches the relay
    output queue.  The connection whose early bytes sit in two chains:
    the first is forwarded and the second stays in the client input
    queue. *)
Lemma relay_connected_not_as_stated :
  ~ @relay_connected_installs_handlers Toy.cipher
      (Toy.framework true (-1)%Z (None, 0)) Toy.fresh /\
  ~ @relay_connected_installs_handlers Toy.cipher
      (Toy.framework false 0%Z (None, 0)) Toy.fresh /\
  ~ @relay_connected_installs_handlers Toy.cipher Toy.fw Toy.early_broken /\
  ~ @relay_connected_installs_handlers Toy.cipher Toy.fw Toy.early_two.
Proof.
  split; [|split; [|split]]; intro H;
    destruct (H (Toy.stream [] [] EV_WRITE 100) eq_refl eq_refl)
      as (c' & bc' & br' & Hrun & _ & _ & Hbc & Hbr & Hcb & _ & _ & _ & Hfwd);
    try (vm_compute; discriminate);
    vm_compute in Hrun; inversion Hrun; subst c'; clear Hrun;
    vm_compute in Hbc; inversion Hbc; subst bc'; clear Hbc.
  - vm_compute in Hcb. discriminate.
  - vm_compute in Hbr. inversion Hbr; subst br'. clear Hbr.
    destruct Hfwd as (_ & granted & Hbytes); [vm_compute; lia|].
    vm_compute in Hbytes. discriminate.
  - vm_compute in Hbr. inversion Hbr; subst br'. clear Hbr.
    destruct Hfwd as (_ & granted & Hbytes); [vm_compute; lia|].
    vm_compute in Hbytes. discriminate.
  - destruct Hfwd as (Hgone & _); [vm_compute; lia|].
    vm_compute in Hgone. discriminate.
Qed.

(** C2, witness: a read event on the client while the relay output queue
    is at its mark. *)
Lemma backpressure_by_design_witness :
  bev_of Toy.congested ClientSide = Some (Toy.stream [Toy.hello] [] EV_READ 100) /\
  bev_of Toy.congested (peer ClientSide)
  = Some (Toy.stream [] [Toy.hello] EV_READ 5) /\
  state Toy.congested = ss_connected /\
  exists c',
    @read_handler Toy.cipher Toy.fw ClientSide ClientSide Toy.congested
    = Some c' /\
    reads_enabled c' ClientSide = false /\
    payload c' = payload Toy.congested /\
    (forall r, get_evbuffer c' r = get_evbuffer Toy.congested r).
Proof.
  assert (H1 : bev_of Toy.congested ClientSide
               = Some (Toy.stream [Toy.hello] [] EV_READ 100)) by reflexivity.
  assert (H2 : bev_of Toy.congested (peer ClientSide)
               = Some (Toy.stream [] [Toy.hello] EV_READ 5)) by reflexivity.
  assert (H3 : state Toy.congested = ss_connected) by reflexivity.
  split; [exact H1|]. split; [exact H2|]. split; [exact H3|].
  apply (proj1 (@backpressure_by_design Toy.cipher Toy.fw ClientSide
                  Toy.congested _ _ H1 H2 H3)).
  vm_compute. lia.
Defined.

(** C2, counterexample: a write-completion event on the relay, its output
    queue empty, while the client has half-closed after a last chunk.
    The chunk is forwarded; reads on the client are not enabled. *)
Lemma write_completion_leaves_shut_source_disabled :
  ~ @write_completion_reenables_reads Toy.cipher Toy.fw RelaySide
      Toy.half_closed.
Proof.
  intro H.
  destruct (H (Toy.stream [] [] EV_READ 100) eq_refl eq_refl)
    as (c' & Hrun & Hen).
  { vm_compute. lia. }
  vm_compute in Hrun. inversion Hrun; subst c'. clear Hrun.
  vm_compute in Hen. discriminate.
Qed.

(** C3, witness: a read event on the client whose encrypt context fails. *)
Lemma failed_transform_is_not_fatal_witness :
  bev_of Toy.failing ClientSide
  = Some (Toy.stream [Toy.hello; Toy.hello] [] EV_READ 100) /\
  bev_of Toy.failing (peer ClientSide)
  = Some (Toy.stream [] [Toy.hello] EV_READ 100) /\
  state Toy.failing = ss_connected /\
  evbuffer_get_length [Toy.hello] < 100 /\
  Toy.hello <> [] /\
  @evbuffer_reserve_space Toy.cipher Toy.fw [Toy.hello]
    (@required_size Toy.cipher Toy.failing (decrypt_flag ClientSide)
       (length Toy.hello)) = Some 21 /\
  @transform_rc Toy.cipher Toy.failing Toy.hello (decrypt_flag ClientSide) 21
  = 0%Z /\
  exists c',
    @read_handler Toy.cipher Toy.fw ClientSide ClientSide Toy.failing = Some c' /\
    state c' = ss_connected /\
    effects c' = effects Toy.failing /\
    (dropped c' <-> dropped Toy.failing) /\
    e_ctx_init (payload c') = e_ctx_init (payload Toy.failing) /\
    d_ctx_init (payload c') = d_ctx_init (payload Toy.failing) /\
    get_evbuffer c' (output_of (peer ClientSide)) = Some [Toy.hello] /\
    get_evbuffer c' (input_of ClientSide) = Some (evbuffer_drain [Toy.hello] 0) /\
    reads_enabled c' ClientSide = true /\
    (forall d src dst c0 c1,
        @pump Toy.cipher Toy.fw d c0 src dst = Some c1 ->
        status c1 = status c0).
Proof.
  assert (H1 : bev_of Toy.failing ClientSide
               = Some (Toy.stream [Toy.hello; Toy.hello] [] EV_READ 100))
    by reflexivity.
  assert (H2 : bev_of Toy.failing (peer ClientSide)
               = Some (Toy.stream [] [Toy.hello] EV_READ 100)) by reflexivity.
  assert (H3 : state Toy.failing = ss_connected) by reflexivity.
  assert (H4 : evbuffer_get_length [Toy.hello] < 100) by (vm_compute; lia).
  assert (H5 : Toy.hello <> []) by discriminate.
  assert (H6 : @evbuffer_reserve_space Toy.cipher Toy.fw [Toy.hello]
                 (@required_size Toy.cipher Toy.failing
                    (decrypt_flag ClientSide) (length Toy.hello)) = Some 21)
    by reflexivity.
  assert (H7 : @transform_rc Toy.cipher Toy.failing Toy.hello
                 (decrypt_flag ClientSide) 21 = 0%Z)
    by reflexivity.
  split; [exact H1|]. split; [exact H2|]. split; [exact H3|].
  split; [exact H4|]. split; [exact H5|]. split; [exact H6|].
  split; [exact H7|].
  exact (@failed_transform_is_not_fatal Toy.cipher Toy.fw ClientSide
           Toy.failing _ _ Toy.hello [Toy.hello] H1 H2 H3 H4 eq_refl H5
           21 H6 H7).
Defined.

(** C3, counterexample: on that connection the failed transform does not
    lead to the drop path. *)
Lemma failed_transform_does_not_drop :
  ~ @failed_transform_drops Toy.cipher Toy.fw ClientSide Toy.failing.
Proof.
  intro H.
  destruct (H (Toy.stream [Toy.hello; Toy.hello] [] EV_READ 100)
              (Toy.stream [] [Toy.hello] EV_READ 100)
              Toy.hello [Toy.hello] 21 eq_refl eq_refl eq_refl)
    as (c' & Hrun & Hdrop).
  { discriminate. }
  { reflexivity. }
  { reflexivity. }
  { reflexivity. }
  vm_compute in Hrun. inversion Hrun; subst c'. clear Hrun.
  vm_compute in Hdrop. exact Hdrop.
Qed.

(** C4, witness: the accepted connection, with a connect helper that
    returns a relay stream and reports nothing sent yet. *)
Lemma connect_relay_piggyback_witness :
  @enc_ctx_init Toy.cipher (info (ss_payload (instance Toy.accepted)))
    (e_ctx (payload Toy.accepted)) 1%Z = (0%Z, Some 0) /\
  @enc_ctx_init Toy.cipher (info (ss_payload (instance Toy.accepted)))
    (d_ctx (payload Toy.accepted)) 0%Z = (0%Z, Some 0) /\
  @ss_encrypt Toy.cipher (Some 0)
    (@header_bytes Toy.cipher Toy.fw (destaddr Toy.accepted))
    (64 + sizeof_header)
  = (1%Z, map Toy.flip (@header_bytes Toy.cipher Toy.fw (destaddr Toy.accepted)),
     Some 7) /\
  1%Z <> 0%Z /\
  @ss_connect_relay Toy.cipher
    (Toy.framework true 0%Z (Some (Toy.stream [] [] EV_WRITE 100), 0))
    Toy.accepted
  = (set_relay (handshake_built Toy.accepted (Some 7) (Some 0))
       (Some (Toy.stream [] [] EV_WRITE 100)), 0%Z).
Proof.
  assert (H1 : @enc_ctx_init Toy.cipher
                 (info (ss_payload (instance Toy.accepted)))
                 (e_ctx (payload Toy.accepted)) 1%Z = (0%Z, Some 0))
    by reflexivity.
  assert (H2 : @enc_ctx_init Toy.cipher
                 (info (ss_payload (instance Toy.accepted)))
                 (d_ctx (payload Toy.accepted)) 0%Z = (0%Z, Some 0))
    by reflexivity.
  assert (H3 : @ss_encrypt Toy.cipher (Some 0)
                 (@header_bytes Toy.cipher
                    (Toy.framework true 0%Z
                       (Some (Toy.stream [] [] EV_WRITE 100), 0))
                    (destaddr Toy.accepted))
                 (64 + sizeof_header)
               = (1%Z,
                  map Toy.flip
                    (@header_bytes Toy.cipher Toy.fw (destaddr Toy.accepted)),
                  Some 7))
    by reflexivity.
  assert (H4 : 1%Z <> 0%Z) by discriminate.
  split; [exact H1|]. split; [exact H2|]. split; [exact H3|].
  split; [exact H4|].
  apply (proj1 (proj2
    (@connect_relay_piggyback_outcomes Toy.cipher
       (Toy.framework true 0%Z (Some (Toy.stream [] [] EV_WRITE 100), 0))
       Toy.accepted (Some 0) (Some 0) (Some 7) 1%Z
       (map Toy.flip (@header_bytes Toy.cipher Toy.fw (destaddr Toy.accepted)))
       (Some (Toy.stream [] [] EV_WRITE 100)) 0
       H1 H2 H3 H4 eq_refl))
    (Toy.stream [] [] EV_WRITE 100) eq_refl eq_refl).
Defined.

(** C5, witness: the pump on a connection with two pending chains. *)
Lemma pump_processes_first_contiguous_run_witness :
  bev_of Toy.flowing ClientSide
  = Some (Toy.stream [Toy.hello; Toy.hello] [] EV_READ 100) /\
  bev_of Toy.flowing RelaySide = Some (Toy.stream [Toy.hello] [] EV_READ 100) /\
  exists cm c',
    @encrypt_mem Toy.cipher Toy.fw Toy.flowing (Some Toy.hello)
      (length Toy.hello) (output_of RelaySide) (decrypt_flag ClientSide)
    = Some cm /\
    @pump Toy.cipher Toy.fw ClientSide Toy.flowing ClientSide RelaySide
    = Some c' /\
    get_evbuffer c' (input_of ClientSide) = Some (evbuffer_drain [Toy.hello] 0) /\
    exists out',
      get_evbuffer c' (output_of RelaySide) = Some out' /\
      evbuffer_bytes out' = evbuffer_bytes [] ++ map Toy.flip Toy.hello.
Proof.
  assert (H1 : bev_of Toy.flowing ClientSide
               = Some (Toy.stream [Toy.hello; Toy.hello] [] EV_READ 100))
    by reflexivity.
  assert (H2 : bev_of Toy.flowing RelaySide
               = Some (Toy.stream [Toy.hello] [] EV_READ 100)) by reflexivity.
  split; [exact H1|]. split; [exact H2|].
  destruct (proj2 (@pump_processes_first_contiguous_run Toy.cipher Toy.fw
                     ClientSide ClientSide RelaySide Toy.flowing _ _ H1 H2)
              Toy.hello [Toy.hello] eq_refl)
    as (cm & c' & Hmem & Hp & _ & Hin & _ & _ & Hout & _).
  { discriminate. }
  exists cm, c'. split; [exact Hmem|]. split; [exact Hp|].
  split; [exact Hin|].
  apply (Hout 21 1%Z (map Toy.flip Toy.hello) (Some 5)).
  - discriminate.
  - reflexivity.
  - reflexivity.
  - discriminate.
  - vm_compute. lia.
Defined.

(** C5, counterexample: the pump when the output queue cannot reserve
    space.  The first chain leaves the source queue and nothing reaches
    the destination queue. *)
Lemma pump_without_reservation_forwards_nothing :
  ~ @first_run_reaches_destination Toy.cipher
      (Toy.framework false 0%Z (None, 0)) ClientSide ClientSide RelaySide
      Toy.flowing.
Proof.
  intro H.
  destruct (H (Toy.stream [Toy.hello; Toy.hello] [] EV_READ 100)
              (Toy.stream [Toy.hello] [] EV_READ 100)
              Toy.hello [Toy.hello] eq_refl eq_refl eq_refl)
    as (c' & out' & granted & Hrun & Hout & Hbytes).
  { discriminate. }
  vm_compute in Hrun. inversion Hrun; subst c'. clear Hrun.
  vm_compute in Hout. inversion Hout; subst out'. clear Hout.
  vm_compute in Hbytes. discriminate.
Qed.

(** C6, witness: [encrypt_mem] with the failing encrypt context; the
    reservation grants 21 bytes and the transform run with them fails. *)
Lemma encrypt_mem_failed_transform_witness :
  get_evbuffer Toy.failing (output_of RelaySide) = Some [Toy.hello] /\
  @evbuffer_reserve_space Toy.cipher Toy.fw [Toy.hello]
    (@required_size Toy.cipher Toy.failing 0%Z 5) = Some 21 /\
  @transform_rc Toy.cipher Toy.failing (firstn 5 Toy.hello) 0%Z 21 = 0%Z /\
  exists c' out',
    @encrypt_mem Toy.cipher Toy.fw Toy.failing (Some Toy.hello) 5
      (output_of RelaySide) 0%Z = Some c' /\
    get_evbuffer c' (output_of RelaySide) = Some out' /\
    out' = [Toy.hello] /\
    evbuffer_bytes out' = evbuffer_bytes [Toy.hello] /\
    evbuffer_get_length out' = evbuffer_get_length [Toy.hello].
Proof.
  assert (H1 : get_evbuffer Toy.failing (output_of RelaySide)
               = Some [Toy.hello]) by reflexivity.
  assert (H2 : @evbuffer_reserve_space Toy.cipher Toy.fw [Toy.hello]
                 (@required_size Toy.cipher Toy.failing 0%Z 5) = Some 21)
    by reflexivity.
  assert (H3 : @transform_rc Toy.cipher Toy.failing (firstn 5 Toy.hello)
                 0%Z 21 = 0%Z) by reflexivity.
  split; [exact H1|]. split; [exact H2|]. split; [exact H3|].
  apply (@encrypt_mem_failed_transform_enqueues_nothing Toy.cipher Toy.fw
           Toy.failing (Some Toy.hello) 5 (output_of RelaySide) 0%Z
           [Toy.hello] H1).
  intros bytes granted Hb Hres.
  assert (Hbytes : bytes = Toy.hello) by congruence.
  assert (Hg : granted = 21) by congruence.
  subst bytes granted. exact H3.
Defined.

(** C7, counterexample: a method the cipher library does not know, with
    a short password, passes the credential check. *)
Lemma credential_check_accepts_unknown_method :
  ~ @check_rejects_unrecognized Toy.cipher 0%Z
      Toy.unknown_method Toy.short_password.
Proof.
  unfold check_rejects_unrecognized. intro H.
  assert (Hk : fst (@enc_init Toy.cipher 0%Z Toy.short_password
                      Toy.unknown_method) = (-1)%Z)
    by reflexivity.
  specialize (H Hk). vm_compute in H. discriminate.
Qed.


(** C10, witness: the pump with the failing encrypt context. *)
Lemma pump_drains_unconditionally_witness :
  bev_of Toy.failing ClientSide
  = Some (Toy.stream [Toy.hello; Toy.hello] [] EV_READ 100) /\
  bev_of Toy.failing RelaySide = Some (Toy.stream [] [Toy.hello] EV_READ 100) /\
  Toy.hello <> [] /\
  exists c' buf_in',
    @pump Toy.cipher Toy.fw ClientSide Toy.failing ClientSide RelaySide
    = Some c' /\
    get_evbuffer c' (input_of ClientSide) = Some buf_in' /\
    evbuffer_bytes buf_in' = skipn (length Toy.hello) (Toy.hello ++ Toy.hello ++ []) /\
    state c' = state Toy.failing /\ effects c' = effects Toy.failing /\
    get_evbuffer c' (output_of RelaySide) = Some [Toy.hello].
Proof.
  assert (H1 : bev_of Toy.failing ClientSide
               = Some (Toy.stream [Toy.hello; Toy.hello] [] EV_READ 100))
    by reflexivity.
  assert (H2 : bev_of Toy.failing RelaySide
               = Some (Toy.stream [] [Toy.hello] EV_READ 100)) by reflexivity.
  assert (H3 : Toy.hello <> []) by discriminate.
  split; [exact H1|]. split; [exact H2|]. split; [exact H3|].
  destruct (@pump_drains_unconditionally Toy.cipher Toy.fw ClientSide
              ClientSide RelaySide Toy.failing _ _ Toy.hello [Toy.hello]
              H1 H2 eq_refl H3)
    as (c' & buf_in' & Hp & Hin & Hbytes & _ & Hst & Heff & _ & Hout).
  exists c', buf_in'. repeat split; try assumption.
  apply Hout. right. exists 21. split; reflexivity.
Defined.

(** * Further properties of the engine *)

Section Teardown.

Context {C : Cipher}.

Lemma ss_client_fini_effects (c : redsocks_client) :
  effects (ss_client_fini c) =
  effects c
  ++ (if (e_ctx_init (payload c) =? 0)%Z then []
      else [eff_enc_ctx_free the_e_ctx])
  ++ (if (d_ctx_init (payload c) =? 0)%Z then []
      else [eff_enc_ctx_free the_d_ctx]).
Proof.
  destruct c as [i cl rl da st rc ce re t [e d ei di] eff].
  unfold ss_client_fini; cbn.
  destruct (Z.eqb_spec ei 0) as [->|He], (Z.eqb_spec di 0) as [->|Hd];
    try apply Z.eqb_neq in He; try apply Z.eqb_neq in Hd;
    repeat (cbn; rewrite ?He, ?Hd); rewrite ?app_nil_r, <- ?app_assoc;
    reflexivity.
Qed.

(** Teardown clears both flags and touches nothing but the payload and
    the record of effects. *)
Lemma ss_client_fini_frame (c : redsocks_client) :
  e_ctx_init (payload (ss_client_fini c)) = 0%Z /\
  d_ctx_init (payload (ss_client_fini c)) = 0%Z /\
  state (ss_client_fini c) = state c /\
  relay_connected (ss_client_fini c) = relay_connected c /\
  client (ss_client_fini c) = client c /\
  relay (ss_client_fini c) = relay c.
Proof.
  destruct c as [i cl rl da st rc ce re t [e d ei di] eff].
  unfold ss_client_fini; cbn.
  destruct (Z.eqb_spec ei 0) as [->|He], (Z.eqb_spec di 0) as [->|Hd];
    try apply Z.eqb_neq in He; try apply Z.eqb_neq in Hd;
    repeat (cbn; rewrite ?He, ?Hd); repeat split.
Qed.

Lemma redsocks_drop_client_frame (c : redsocks_client) :
  e_ctx_init (payload (redsocks_drop_client c)) = 0%Z /\
  d_ctx_init (payload (redsocks_drop_client c)) = 0%Z /\
  state (redsocks_drop_client c) = state c /\
  relay_connected (redsocks_drop_client c) = relay_connected c /\
  client (redsocks_drop_client c) = client c /\
  relay (redsocks_drop_client c) = relay c.
Proof.
  unfold redsocks_drop_client.
  cbn [payload state relay_connected client relay set_effects].
  apply ss_client_fini_frame.
Qed.

Lemma get_evbuffer_drop (c : redsocks_client) (r : evbuffer_ref) :
  get_evbuffer (redsocks_drop_client c) r = get_evbuffer c r.
Proof.
  destruct r as [s|s]; cbn [get_evbuffer]; now rewrite bev_of_drop.
Qed.

Lemma redsocks_drop_client_effects (c : redsocks_client) :
  effects (redsocks_drop_client c) =
  effects c
  ++ (if (e_ctx_init (payload c) =? 0)%Z then []
      else [eff_enc_ctx_free the_e_ctx])
  ++ (if (d_ctx_init (payload c) =? 0)%Z then []
      else [eff_enc_ctx_free the_d_ctx])
  ++ [eff_drop_client].
Proof.
  unfold redsocks_drop_client. cbn [effects set_effects].
  rewrite ss_client_fini_effects. now rewrite <- !app_assoc.
Qed.

End Teardown.

Section StrayEvents.

Context {C : Cipher} {F : Framework}.


(** X1: an event delivered while the connection is not in state CONNECTED
    is never served.  The read handler of either stream hands the
    connection to the drop path: no queue and no enabled event changes,
    the state field keeps its value, and both context flags end cleared.
    The write handler of either stream does the same once
    [process_shutdown_on_write_] has declined the event. *)
Theorem stray_event_drops
    (s : side) (c : redsocks_client) (bs bp : bufferevent)
    (Hs : bev_of c s = Some bs) (Hp : bev_of c (peer s) = Some bp)
    (Hst : state c <> ss_connected) :
  (exists c',
      read_handler s s c = Some c' /\
      c' = redsocks_drop_client (redsocks_touch_client c) /\
      dropped c' /\ state c' = state c /\
      e_ctx_init (payload c') = 0%Z /\ d_ctx_init (payload c') = 0%Z /\
      (forall r, get_evbuffer c' r = get_evbuffer c r) /\
      (forall x, enabled_of c' x = enabled_of c x)) /\
  (forall cs,
      process_shutdown_on_write_ (redsocks_touch_client c) (peer s) s
      = (cs, 0%Z) ->
      state cs <> ss_connected ->
      write_handler s s c = Some (redsocks_drop_client cs) /\
      dropped (redsocks_drop_client cs) /\
      (forall r, get_evbuffer (redsocks_drop_client cs) r = get_evbuffer cs r)).
Proof.
  split.
  - exists (redsocks_drop_client (redsocks_touch_client c)).
    split; [eapply read_handler_not_connected; eassumption|].
    split; [reflexivity|]. split; [apply dropped_after_drop|].
    destruct (redsocks_drop_client_frame (redsocks_touch_client c))
      as (He & Hd & Hst' & _).
    split; [exact Hst'|]. split; [exact He|]. split; [exact Hd|].
    split.
    + intro r. now rewrite get_evbuffer_drop, get_evbuffer_touch.
    + intro x. unfold enabled_of. now rewrite bev_of_drop, bev_of_touch.
  - intros cs Hh Hcs.
    split; [|split; [apply dropped_after_drop|intro r; apply get_evbuffer_drop]].
    rewrite (write_handler_after_helper s c cs bp bs 0%Z Hp Hs Hh).
    apply Z.eqb_neq in Hcs. cbn [Z.eqb negb]. now rewrite Hcs.
Qed.

(** X2: a relay connect that failed never reaches the data pump.  When
    the relay socket reports an error, [ss_relay_connected] hands the
    connection to the drop path with the state still NEW, the connected
    mark, both streams (handlers, timeouts, enabled events) and every
    queue as they were.  When the socket is fine but
    [redsocks_start_relay] reports failure, the handler returns the
    connection that call left, without installing a handler or calling
    [ss_relay_writecb]. *)
Theorem relay_connect_failure_pumps_nothing
    (c : redsocks_client) (br : bufferevent)
    (Hrelay : relay c = Some br) (Hnew : state c = ss_new) :
  (red_is_socket_connected_ok br = 0%Z ->
   exists c',
     ss_relay_connected RelaySide c = Some c' /\
     c' = redsocks_drop_client (redsocks_touch_client c) /\
     dropped c' /\ state c' = ss_new /\
     relay_connected c' = relay_connected c /\
     client c' = client c /\ relay c' = Some br /\
     (forall r, get_evbuffer c' r = get_evbuffer c r)) /\
  (forall cw failed,
      red_is_socket_connected_ok br <> 0%Z ->
      redsocks_start_relay (relay_marked_connected c br) = Some (cw, failed) ->
      failed <> 0%Z ->
      ss_relay_connected RelaySide c = Some cw).
Proof.
  split.
  - intro Hbad.
    exists (redsocks_drop_client (redsocks_touch_client c)).
    split.
    { unfold ss_relay_connected. cbn [side_eqb assert bind bev_of].
      rewrite Hrelay. cbn [bind]. rewrite Hnew. cbn [Z.eqb ss_new assert bind].
      now rewrite Hbad. }
    split; [reflexivity|]. split; [apply dropped_after_drop|].
    destruct (redsocks_drop_client_frame (redsocks_touch_client c))
      as (_ & _ & Hst & Hrc & Hcl & Hrl).
    split; [now rewrite Hst|]. split; [exact Hrc|]. split; [exact Hcl|].
    split; [now rewrite Hrl|].
    intro r. now rewrite get_evbuffer_drop, get_evbuffer_touch.
  - intros cw failed Hok Hstart Hfailed.
    unfold ss_relay_connected. cbn [side_eqb assert bind bev_of].
    rewrite Hrelay. cbn [bind]. rewrite Hnew. cbn [Z.eqb ss_new assert bind].
    apply Z.eqb_neq in Hok. rewrite Hok.
    assert (Hts : bufferevent_set_timeouts
                    (set_state (set_relay_connected (redsocks_touch_client c) 1%Z)
                               ss_connected) RelaySide None None
                  = Some (relay_marked_connected c br)).
    { unfold bufferevent_set_timeouts. cbn [bev_of]. cbn [relay set_state].
      cbn [relay set_relay_connected].
      cbn [relay redsocks_touch_client set_touches].
      rewrite Hrelay. reflexivity. }
    rewrite Hts. cbn [bind]. rewrite Hstart. cbn [bind].
    apply Z.eqb_neq in Hfailed. now rewrite Hfailed.
Qed.

End StrayEvents.

Section ConnectRelay.

Context {C : Cipher} {F : Framework}.

Ltac connect_relay_finish :=
  repeat match goal with
         | |- _ /\ _ => split
         | |- _ = _ -> _ =>
             let Habs := fresh in intro Habs; try discriminate Habs
         end;
  try reflexivity; try (left; reflexivity); try (right; reflexivity);
  try discriminate.

Ltac connect_relay_dropped :=
  cbn [fst snd];
  rewrite redsocks_drop_client_effects;
  match goal with
  | |- context [redsocks_drop_client ?x] =>
      let Hfe := fresh "Hfe" in
      let Hfd := fresh "Hfd" in
      let Hfs := fresh "Hfs" in
      let Hfc := fresh "Hfc" in
      destruct (redsocks_drop_client_frame x)
        as (Hfe & Hfd & Hfs & _ & Hfc & _);
      rewrite Hfe, Hfd, Hfs, Hfc
  end;
  cbn [payload e_ctx_init d_ctx_init effects state client Z.eqb andb app];
  rewrite <- ?app_assoc; cbn [app];
  connect_relay_finish.

(** Every way through [ss_connect_relay] from clear context flags. *)
Lemma ss_connect_relay_outcome
    (c : redsocks_client)
    (He0 : e_ctx_init (payload c) = 0%Z)
    (Hd0 : d_ctx_init (payload c) = 0%Z) :
  let rc_e :=
    fst (enc_ctx_init (info (ss_payload (instance c))) (e_ctx (payload c)) 1%Z) in
  let rc_d :=
    fst (enc_ctx_init (info (ss_payload (instance c))) (d_ctx (payload c)) 0%Z) in
  let c' := fst (ss_connect_relay c) in
  let r := snd (ss_connect_relay c) in
  (r = 0%Z \/ r = (-1)%Z) /\
  state c' = state c /\ client c' = client c /\
  (r = 0%Z ->
   effects c' = effects c /\
   e_ctx_init (payload c') = 1%Z /\ d_ctx_init (payload c') = 1%Z /\
   relay c' <> None /\ rc_e = 0%Z /\ rc_d = 0%Z) /\
  (r = (-1)%Z ->
   e_ctx_init (payload c') = 0%Z /\ d_ctx_init (payload c') = 0%Z /\
   effects c' = effects c ++ releases_owed rc_e rc_d ++ [eff_drop_client]).
Proof.
  destruct c as [i cl rl da st rcn ce re t [e d ei di] eff].
  cbn [payload e_ctx_init d_ctx_init] in He0, Hd0. subst ei di.
  cbn [payload e_ctx d_ctx instance state client effects].
  unfold releases_owed.
  remember (ss_connect_relay _) as res eqn:Hres.
  unfold ss_connect_relay in Hres.
  lazy beta iota zeta delta
       [set_payload set_e_ctx set_d_ctx set_e_ctx_init set_d_ctx_init set_relay
        payload e_ctx d_ctx e_ctx_init d_ctx_init instance destaddr client
        relay state relay_connected client_evshut relay_evshut touches
        effects] in Hres.
  destruct (enc_ctx_init (info (ss_payload i)) e 1%Z) as [rce ectx].
  cbn [fst].
  destruct (Z.eqb_spec rce 0) as [->|Hrce];
    [|cbn [negb] in Hres; subst res; connect_relay_dropped].
  cbn [Z.eqb negb] in Hres |- *.
  destruct (enc_ctx_init (info (ss_payload i)) d 0%Z) as [rcd dctx].
  cbn [fst].
  destruct (Z.eqb_spec rcd 0) as [->|Hrcd];
    [|cbn [negb] in Hres; subst res; connect_relay_dropped].
  cbn [Z.eqb negb] in Hres |- *.
  destruct (ss_encrypt ectx _ _) as [[rc buff] ectx'].
  destruct (rc =? 0)%Z; [subst res; connect_relay_dropped|].
  destruct (red_connect_relay_tfo _ _ _ _ _ _ _ _) as [new_relay sent].
  destruct new_relay as [b|]; cbn [is_null] in Hres;
    [|subst res; connect_relay_dropped].
  destruct (negb (sent =? 0)%nat && negb (sent =? length buff)%nat);
    [subst res; connect_relay_dropped|].
  subst res.
  cbn [fst snd payload e_ctx_init d_ctx_init effects state client relay].
  connect_relay_finish.
Qed.

(** X3: [ss_connect_relay] releases exactly what it initialised.  On a
    connection whose context flags are both clear, it returns 0 or -1 and
    never touches the state field or the client stream.  When it returns
    0 nothing has been released or dropped, both flags are set, the relay
    stream is there and both [enc_ctx_init] calls had succeeded.  When it
    returns -1 the client has been dropped, both flags are clear again,
    and the contexts released before the drop are exactly those whose
    [enc_ctx_init] had succeeded: none if the first failed, the encrypt
    context if only the second failed, both on every later failure. *)
Theorem connect_relay_releases_what_it_initialised
    (c : redsocks_client)
    (He0 : e_ctx_init (payload c) = 0%Z)
    (Hd0 : d_ctx_init (payload c) = 0%Z) :
  let rc_e :=
    fst (enc_ctx_init (info (ss_payload (instance c))) (e_ctx (payload c)) 1%Z) in
  let rc_d :=
    fst (enc_ctx_init (info (ss_payload (instance c))) (d_ctx (payload c)) 0%Z) in
  let c' := fst (ss_connect_relay c) in
  let r := snd (ss_connect_relay c) in
  (r = 0%Z \/ r = (-1)%Z) /\
  state c' = state c /\ client c' = client c /\
  (r = 0%Z ->
   effects c' = effects c /\
   e_ctx_init (payload c') = 1%Z /\ d_ctx_init (payload c') = 1%Z /\
   relay c' <> None /\ rc_e = 0%Z /\ rc_d = 0%Z) /\
  (r = (-1)%Z ->
   e_ctx_init (payload c') = 0%Z /\ d_ctx_init (payload c') = 0%Z /\
   effects c' = effects c ++ releases_owed rc_e rc_d ++ [eff_drop_client]).
Proof.
  exact (ss_connect_relay_outcome c He0 Hd0).
Qed.

(** X8: teardown after a successful relay connect releases both contexts,
    once each.  If [ss_connect_relay] returned 0 on a connection whose
    flags were clear, [ss_client_fini] on the result records the release
    of the encrypt context, then of the decrypt context, clears both
    flags, keeps the relay stream, and a further call records nothing. *)
Theorem teardown_after_connect
    (c c' : redsocks_client)
    (He0 : e_ctx_init (payload c) = 0%Z)
    (Hd0 : d_ctx_init (payload c) = 0%Z)
    (Hok : ss_connect_relay c = (c', 0%Z)) :
  effects (ss_client_fini c') =
    effects c ++ [eff_enc_ctx_free the_e_ctx; eff_enc_ctx_free the_d_ctx] /\
  e_ctx_init (payload (ss_client_fini c')) = 0%Z /\
  d_ctx_init (payload (ss_client_fini c')) = 0%Z /\
  relay (ss_client_fini c') = relay c' /\
  effects (ss_client_fini (ss_client_fini c')) = effects (ss_client_fini c').
Proof.
  pose proof (ss_connect_relay_outcome c He0 Hd0) as H.
  cbv zeta in H. rewrite Hok in H. cbn [fst snd] in H.
  destruct H as (_ & _ & _ & H0 & _).
  destruct (H0 eq_refl) as (Heff & He1 & Hd1 & _).
  destruct (ss_client_fini_frame c') as (Hfe & Hfd & _ & _ & _ & Hrl).
  split.
  { rewrite ss_client_fini_effects, He1, Hd1, Heff. reflexivity. }
  split; [exact Hfe|]. split; [exact Hfd|]. split; [exact Hrl|].
  rewrite (ss_client_fini_effects (ss_client_fini c')), Hfe, Hfd.
  cbn [Z.eqb app]. now rewrite app_nil_r.
Qed.

End ConnectRelay.

Section PumpComposition.

Context {C : Cipher} {F : Framework}.



Lemma with_dir_ctx_again (a c : redsocks_client) (decrypt : Z)
      (ctx1 ctx2 : enc_ctx) :
  payload a = payload (with_dir_ctx c decrypt ctx1) ->
  payload (with_dir_ctx a decrypt ctx2) = payload (with_dir_ctx c decrypt ctx2).
Proof.
  unfold with_dir_ctx. cbn [payload set_payload]. intros ->.
  destruct (decrypt =? 0)%Z; destruct (payload c); reflexivity.
Qed.

Lemma get_evbuffer_input_inv (c : redsocks_client) (s : side) (v : evbuffer) :
  get_evbuffer c (input_of s) = Some v ->
  exists b, bev_of c s = Some b /\ input b = v.
Proof.
  cbn [get_evbuffer]. destruct (bev_of c s) as [b|]; cbn [bind];
    [|discriminate].
  intro H; inversion H. eauto.
Qed.

Lemma get_evbuffer_output_inv (c : redsocks_client) (s : side) (v : evbuffer) :
  get_evbuffer c (output_of s) = Some v ->
  exists b, bev_of c s = Some b /\ output b = v.
Proof.
  cbn [get_evbuffer]. destruct (bev_of c s) as [b|]; cbn [bind];
    [|discriminate].
  intro H; inversion H. eauto.
Qed.

(** What [encrypt_mem] does to the payload: the flags and the context of
    the other direction stay; on a successful transform the context of
    its own direction is the one the transform returned. *)
Lemma encrypt_mem_other_ctx
      (c c' : redsocks_client) (data : option (list byte)) (len : nat)
      (buf_out : evbuffer_ref) (decrypt : Z) :
  encrypt_mem c data len buf_out decrypt = Some c' ->
  ((decrypt =? 0)%Z = true -> d_ctx (payload c') = d_ctx (payload c)) /\
  ((decrypt =? 0)%Z = false -> e_ctx (payload c') = e_ctx (payload c)).
Proof.
  unfold encrypt_mem.
  destruct ((len =? 0)%nat || is_null data);
    [intro H; inversion H; auto|].
  destruct data as [bytes|]; cbn [bind]; [|discriminate].
  match goal with |- context [(?n =? 0)%nat] =>
    destruct (n =? 0)%nat; [intro H; inversion H; auto|] end.
  destruct (get_evbuffer c buf_out) as [out|]; cbn [bind]; [|discriminate].
  destruct (evbuffer_reserve_space out _) as [granted|];
    [|intro H; inversion H; auto].
  destruct (decrypt =? 0)%Z.
  - destruct (ss_encrypt _ _ _) as [[rc written] ctx].
    intro H; inversion H. rewrite payload_put_evbuffer.
    split; [reflexivity|discriminate].
  - destruct (ss_decrypt _ _ _) as [[rc written] ctx].
    intro H; inversion H. rewrite payload_put_evbuffer.
    split; [discriminate|reflexivity].
Qed.

Lemma encrypt_mem_success_ctx
    (c : redsocks_client) (bytes : list byte) (len : nat)
    (buf_out : evbuffer_ref) (decrypt : Z) (out : evbuffer)
    (granted : nat) (rc : Z) (written : list byte) (ctx : enc_ctx) :
  get_evbuffer c buf_out = Some out ->
  len <> 0 -> required_size c decrypt len <> 0 ->
  evbuffer_reserve_space out (required_size c decrypt len) = Some granted ->
  transform c (firstn len bytes) decrypt granted = (rc, written, ctx) ->
  rc <> 0%Z -> written <> [] -> length written <= granted ->
  exists c', encrypt_mem c (Some bytes) len buf_out decrypt = Some c' /\
             get_evbuffer c' buf_out = Some (out ++ [written]) /\
             payload c' = payload (with_dir_ctx c decrypt ctx).
Proof.
  intros Hout Hlen Hreq Hres Htr Hrc Hw Hfit. unfold encrypt_mem.
  apply Nat.eqb_neq in Hlen. rewrite Hlen. cbn [orb is_null bind].
  unfold required_size in Hres, Hreq. unfold transform in Htr.
  unfold with_dir_ctx.
  apply Nat.eqb_neq in Hreq. apply Z.eqb_neq in Hrc.
  apply Nat.leb_le in Hfit.
  destruct (decrypt =? 0)%Z.
  - rewrite Hreq, Hout. cbn [bind]. rewrite Hres, Htr, Hrc.
    eexists. split; [reflexivity|].
    unfold evbuffer_commit_space. rewrite Hfit.
    destruct written as [|w ws]; [congruence|].
    split; [|now rewrite payload_put_evbuffer].
    eapply get_put_evbuffer. rewrite get_evbuffer_set_payload. eassumption.
  - rewrite Hreq, Hout. cbn [bind]. rewrite Hres, Htr, Hrc.
    eexists. split; [reflexivity|].
    unfold evbuffer_commit_space. rewrite Hfit.
    destruct written as [|w ws]; [congruence|].
    split; [|now rewrite payload_put_evbuffer].
    eapply get_put_evbuffer. rewrite get_evbuffer_set_payload. eassumption.
Qed.

(** One successful pump run, with the queues and the payload it leaves. *)
Lemma pump_success
    (d from to : side) (c : redsocks_client) (bf bt : bufferevent)
    (run : list byte) (rest : evbuffer)
    (granted : nat) (rc : Z) (written : list byte) (ctx : enc_ctx) :
  bev_of c from = Some bf -> bev_of c to = Some bt ->
  input bf = run :: rest -> run <> [] ->
  required_size c (decrypt_flag d) (length run) <> 0 ->
  evbuffer_reserve_space (output bt)
    (required_size c (decrypt_flag d) (length run)) = Some granted ->
  transform c run (decrypt_flag d) granted = (rc, written, ctx) ->
  rc <> 0%Z -> written <> [] -> length written <= granted ->
  exists c',
    pump d c from to = Some c' /\
    get_evbuffer c' (input_of from) = Some (evbuffer_drain rest 0) /\
    get_evbuffer c' (output_of to) = Some (output bt ++ [written]) /\
    payload c' = payload (with_dir_ctx c (decrypt_flag d) ctx).
Proof.
  intros Hf Ht Hin Hne Hreq Hres Htr Hrc Hw Hfit.
  destruct (pump_first_run d c from to bf bt run rest Hf Ht Hin Hne)
    as (cm & Hmem & Hgi & Hp).
  assert (Hgo : get_evbuffer c (output_of to) = Some (output bt))
    by (simpl; now rewrite Ht).
  assert (Hlen : length run <> 0) by (destruct run; [congruence|discriminate]).
  rewrite <- (firstn_all run) in Htr.
  destruct (encrypt_mem_success_ctx c run (length run) (output_of to)
              (decrypt_flag d) (output bt) granted rc written ctx
              Hgo Hlen Hreq Hres Htr Hrc Hw Hfit)
    as (cm' & Hmem' & Hout' & Hpay).
  assert (cm' = cm) by congruence. subst cm'.
  eexists. split; [exact Hp|]. split; [|split].
  - rewrite <- (evbuffer_drain_first_run run rest).
    eapply get_put_evbuffer; eassumption.
  - rewrite get_put_evbuffer_other by discriminate. exact Hout'.
  - now rewrite payload_put_evbuffer.
Qed.

(** X4: the pump keeps the stream in order and threads the cipher state.
    On a source queue that starts with two non-empty chains, two
    successive runs transform the first chain with the context the
    connection holds and the second chain with the context the first
    transform returned; when both reservations and both transforms
    succeed, the destination queue ends with what the first transform
    wrote followed by what the second wrote, the source queue has lost
    both chains, and the connection holds the context the second
    transform returned. *)
Theorem pump_twice_in_order
    (d from to : side) (c : redsocks_client) (bf bt : bufferevent)
    (r1 r2 : list byte) (rest : evbuffer)
    (g1 g2 : nat) (rc1 rc2 : Z) (w1 w2 : list byte) (ctx1 ctx2 : enc_ctx)
    (Hfrom : bev_of c from = Some bf) (Hto : bev_of c to = Some bt)
    (Hin : input bf = r1 :: r2 :: rest) (Hr1 : r1 <> []) (Hr2 : r2 <> [])
    (Hq1 : required_size c (decrypt_flag d) (length r1) <> 0)
    (Hres1 : evbuffer_reserve_space (output bt)
               (required_size c (decrypt_flag d) (length r1)) = Some g1)
    (Ht1 : transform c r1 (decrypt_flag d) g1 = (rc1, w1, ctx1))
    (Hrc1 : rc1 <> 0%Z) (Hw1 : w1 <> []) (Hfit1 : length w1 <= g1)
    (Hq2 : required_size (with_dir_ctx c (decrypt_flag d) ctx1)
             (decrypt_flag d) (length r2) <> 0)
    (Hres2 : evbuffer_reserve_space (output bt ++ [w1])
               (required_size (with_dir_ctx c (decrypt_flag d) ctx1)
                  (decrypt_flag d) (length r2)) = Some g2)
    (Ht2 : transform (with_dir_ctx c (decrypt_flag d) ctx1) r2
             (decrypt_flag d) g2 = (rc2, w2, ctx2))
    (Hrc2 : rc2 <> 0%Z) (Hw2 : w2 <> []) (Hfit2 : length w2 <= g2) :
  exists c1 c2,
    pump d c from to = Some c1 /\
    pump d c1 from to = Some c2 /\
    get_evbuffer c2 (output_of to) = Some (output bt ++ [w1; w2]) /\
    get_evbuffer c2 (input_of from) = Some (evbuffer_drain rest 0) /\
    payload c2 = payload (with_dir_ctx c (decrypt_flag d) ctx2).
Proof.
  destruct (pump_success d from to c bf bt r1 (r2 :: rest) g1 rc1 w1 ctx1
              Hfrom Hto Hin Hr1 Hq1 Hres1 Ht1 Hrc1 Hw1 Hfit1)
    as (c1 & Hp1 & Hin1 & Hout1 & Hpay1).
  assert (Hd0 : evbuffer_drain (r2 :: rest) 0 = r2 :: rest).
  { destruct r2 as [|x xs]; [congruence|]. reflexivity. }
  rewrite Hd0 in Hin1.
  destruct (get_evbuffer_input_inv c1 from _ Hin1) as (bf1 & Hf1 & Hi1).
  destruct (get_evbuffer_output_inv c1 to _ Hout1) as (bt1 & Ht1' & Ho1).
  rewrite <- (required_size_by_payload c1 _ _ _ Hpay1) in Hq2, Hres2.
  rewrite <- (transform_by_payload c1 _ _ _ _ Hpay1) in Ht2.
  rewrite <- Ho1 in Hres2.
  destruct (pump_success d from to c1 bf1 bt1 r2 rest g2 rc2 w2 ctx2
              Hf1 Ht1' Hi1 Hr2 Hq2 Hres2 Ht2 Hrc2 Hw2 Hfit2)
    as (c2 & Hp2 & Hin2 & Hout2 & Hpay2).
  exists c1, c2. split; [exact Hp1|]. split; [exact Hp2|].
  split; [|split].
  - rewrite Hout2, Ho1, <- app_assoc. reflexivity.
  - exact Hin2.
  - rewrite Hpay2. apply with_dir_ctx_again with (ctx1 := ctx1). exact Hpay1.
Qed.

(** X5: a pump run stays within its direction.  It returns on any tunnel
    with both streams, and the only things it may change are the source
    input queue, the destination output queue and the cipher context of
    its own direction: every other queue, every setting of both streams,
    the state, the flags, and the context of the opposite direction are
    as before. *)
Theorem pump_stays_in_its_direction
    (d from to : side) (c : redsocks_client) (bf bt : bufferevent)
    (Hfrom : bev_of c from = Some bf) (Hto : bev_of c to = Some bt) :
  exists c',
    pump d c from to = Some c' /\
    control c' = control c /\
    (forall r, r <> input_of from -> r <> output_of to ->
               get_evbuffer c' r = get_evbuffer c r) /\
    (d = ClientSide -> d_ctx (payload c') = d_ctx (payload c)) /\
    (d = RelaySide -> e_ctx (payload c') = e_ctx (payload c)).
Proof.
  destruct (pump_frame d c from to bf bt Hfrom Hto) as (c' & Hp & Hctl & Hq).
  exists c'. split; [exact Hp|]. split; [exact Hctl|]. split; [exact Hq|].
  destruct (contiguous_cases (input bf)) as [H0|(run & rest & Hin & Hne)].
  - rewrite (pump_empty d c from to bf Hfrom H0) in Hp.
    inversion Hp; subst c'. auto.
  - destruct (pump_first_run d c from to bf bt run rest Hfrom Hto Hin Hne)
      as (cm & Hmem & _ & Hp').
    assert (Hc' : c' = put_evbuffer cm (input_of from)
                         (evbuffer_drain (run :: rest) (length run)))
      by congruence.
    destruct (encrypt_mem_other_ctx _ _ _ _ _ _ Hmem) as (He & Hd).
    subst c'. rewrite payload_put_evbuffer.
    split; intros ->; [apply He|apply Hd]; reflexivity.
Qed.

End PumpComposition.

Section ConnectedEvents.

Context {C : Cipher} {F : Framework}.

(** X6: in state CONNECTED a read event never ends the connection.
    Whatever the queues hold, whether or not the reservation and the
    transform succeed, the read handler of either stream returns with the
    state still CONNECTED, nothing released or dropped, the half-close
    and context flags as before, and the enabled events of the other
    stream untouched. *)
Theorem read_event_never_drops
    (from : side) (c : redsocks_client) (bfrom bto : bufferevent)
    (Hfrom : bev_of c from = Some bfrom)
    (Hto : bev_of c (peer from) = Some bto)
    (Hst : state c = ss_connected) :
  exists c',
    read_handler from from c = Some c' /\
    status c' = status c /\
    state c' = ss_connected /\ effects c' = effects c /\
    enabled_of c' (peer from) = enabled_of c (peer from).
Proof.
  destruct (Nat.lt_ge_cases (evbuffer_get_length (output bto))
                            (get_write_hwm bto)) as [Hbelow|Hfull].
  - destruct (read_handler_below from c bfrom bto Hfrom Hto Hst Hbelow)
      as (c1 & c' & _ & Hctl & Hen & Hh & _ & Hs & _).
    exists c'. split; [exact Hh|]. split; [exact Hs|].
    split; [now rewrite (status_state _ _ Hs)|].
    split; [exact (status_effects _ _ Hs)|].
    destruct (control_bev_some _ c1 from bfrom Hctl) as (b1 & Hb1 & _);
      [now rewrite bev_of_touch|].
    destruct (bufferevent_enable_frame c1 from EV_READ b1 Hb1)
      as (c2 & Hen2 & _ & _ & _ & Hpeer).
    assert (c2 = c') by congruence. subst c2.
    rewrite Hpeer, (control_enabled _ _ (peer from) Hctl).
    unfold enabled_of. now rewrite bev_of_touch.
  - destruct (read_handler_at_mark from c bfrom bto Hfrom Hto Hst Hfull)
      as (c' & Hh & Hdis & _ & Hs & _).
    exists c'. split; [exact Hh|]. split; [exact Hs|].
    split; [now rewrite (status_state _ _ Hs)|].
    split; [exact (status_effects _ _ Hs)|].
    destruct (bufferevent_disable_frame (redsocks_touch_client c) from
                EV_READ bfrom) as (c2 & Hdis2 & _ & _ & _ & Hpeer);
      [now rewrite bev_of_touch|].
    assert (c2 = c') by congruence. subst c2.
    rewrite Hpeer. unfold enabled_of. now rewrite bev_of_touch.
Qed.

(** X7: a write-completion event with nothing contiguous pending only
    re-opens the source.  When the first chain of the source input queue
    was empty on entry (even if later chains hold data), the helper
    declined the event, the state is CONNECTED and the queue is below the
    mark, the write handler transforms nothing: every queue and the whole
    payload are as the helper left them, and the only change is EV_READ
    enabled on the source, unless its evshut flag has EV_READ, in which
    case the connection is returned as the helper left it. *)
Theorem write_event_nothing_pending
    (to : side) (c cs : redsocks_client) (bfrom bto bsf bs : bufferevent)
    (Hfrom : bev_of c (peer to) = Some bfrom) (Hto : bev_of c to = Some bto)
    (Hempty : evbuffer_get_contiguous_space (input bfrom) = 0)
    (Hhelper : process_shutdown_on_write_ (redsocks_touch_client c) (peer to) to
               = (cs, 0%Z))
    (Hsf : bev_of cs (peer to) = Some bsf) (Hs : bev_of cs to = Some bs)
    (Hconn : state cs = ss_connected)
    (Hbelow : evbuffer_get_length (output bto) < get_write_hwm bs) :
  exists c',
    write_handler to to c = Some c' /\
    payload c' = payload cs /\
    (forall r, get_evbuffer c' r = get_evbuffer cs r) /\
    status c' = status cs /\
    bev_of c' to = bev_of cs to /\
    (ev_test (evshut_of cs (peer to)) EV_READ = true -> c' = cs) /\
    (ev_test (evshut_of cs (peer to)) EV_READ = false ->
     c' = put_bev cs (peer to)
            (set_enabled bsf (Z.lor (enabled bsf) EV_READ)) /\
     bufferevent_enable cs (peer to) EV_READ = Some c' /\
     bev_of c' (peer to)
     = Some (set_enabled bsf (Z.lor (enabled bsf) EV_READ)) /\
     reads_enabled c' (peer to) = true).
Proof.
  rewrite (write_handler_after_helper to c cs bfrom bto 0%Z Hfrom Hto Hhelper).
  cbn [Z.eqb negb]. rewrite Hconn. cbn [Z.eqb ss_connected Pos.eqb].
  rewrite Hs. cbn [bind]. apply Nat.ltb_lt in Hbelow. rewrite Hbelow.
  rewrite Hempty. cbn [Nat.eqb negb bind].
  destruct (ev_test (evshut_of cs (peer to)) EV_READ) eqn:Hshut; cbn [negb].
  - exists cs. do 4 (split; [reflexivity|]). split; [exact Hs|].
    split; [reflexivity|discriminate].
  - destruct (bufferevent_enable_frame cs (peer to) EV_READ bsf Hsf)
      as (c' & Hen & Hst' & Hpay & Hq & _).
    assert (Hc' : c' = put_bev cs (peer to)
                         (set_enabled bsf (Z.lor (enabled bsf) EV_READ))).
    { unfold bufferevent_enable in Hen. rewrite Hsf in Hen. cbn [bind] in Hen.
      congruence. }
    exists c'. split; [exact Hen|]. split; [exact Hpay|]. split; [exact Hq|].
    split; [exact Hst'|].
    split; [rewrite <- Hs, Hc'; destruct cs, to; reflexivity|].
    split; [discriminate|]. intros _.
    split; [exact Hc'|]. split; [exact Hen|].
    split; [rewrite Hc'; destruct cs, to; reflexivity|].
    eapply reads_enabled_after_enable; eassumption.
Qed.

(** X9: the inputs on which [encrypt_mem] does nothing.  A zero length,
    a NULL data pointer, a required size of zero, or a reservation the
    output queue refuses each make the call return the connection exactly
    as it was; in the first three cases the output queue is not even
    looked at, so the call returns also when that stream is missing. *)
Theorem encrypt_mem_noop
    (c : redsocks_client) (data : option (list byte)) (len : nat)
    (buf_out : evbuffer_ref) (decrypt : Z)
    (Hnoop : len = 0 \/ data = None \/
             required_size c decrypt len = 0 \/
             exists out,
               get_evbuffer c buf_out = Some out /\
               evbuffer_reserve_space out (required_size c decrypt len) = None) :
  encrypt_mem c data len buf_out decrypt = Some c.
Proof.
  destruct Hnoop as [->|[->|[Hreq|(out & Hout & Hres)]]].
  - reflexivity.
  - unfold encrypt_mem. cbn [is_null]. now rewrite orb_true_r.
  - unfold encrypt_mem.
    destruct ((len =? 0)%nat || is_null data) eqn:Hskip; [reflexivity|].
    destruct data as [bytes|]; [|rewrite orb_true_r in Hskip; discriminate].
    cbn [bind]. unfold required_size in Hreq.
    destruct (decrypt =? 0)%Z; now rewrite Hreq.
  - eapply encrypt_mem_no_reservation; eassumption.
Qed.

End ConnectedEvents.

Section EarlyBytes.

Context {C : Cipher} {F : Framework}.


(** X10: bytes the client sent before the relay connect completed are
    forwarded by [ss_relay_connected] itself.  For a connection in state
    NEW whose relay socket connected and whose [redsocks_start_relay]
    succeeded, with a non-empty first chain in the client input queue,
    the relay output queue below its mark, and
    [process_shutdown_on_write_] declining the event and leaving the
    connection alone: when the reservation and the encryption succeed,
    the handler returns in state CONNECTED with what the transform wrote
    appended to the relay output queue and the chain gone from the client
    input queue, and with reads on the client enabled unless the client
    had shut them. *)
Theorem relay_connected_forwards_early_bytes
    (c cw : redsocks_client) (br : bufferevent)
    (run : list byte) (rest : evbuffer)
    (granted : nat) (rc : Z) (written : list byte) (ctx : enc_ctx)
    (Hrelay : relay c = Some br) (Hnew : state c = ss_new)
    (Hok : red_is_socket_connected_ok br <> 0%Z)
    (Hstart : redsocks_start_relay (relay_marked_connected c br)
              = Some (cw, 0%Z))
    (Hin : input (client c) = run :: rest) (Hne : run <> [])
    (Hhelper : process_shutdown_on_write_
                 (redsocks_touch_client (relay_started c br))
                 ClientSide RelaySide
               = (redsocks_touch_client (relay_started c br), 0%Z))
    (Hbelow : evbuffer_get_length (output br) < get_write_hwm br)
    (Hreq : required_size c 0%Z (length run) <> 0)
    (Hres : evbuffer_reserve_space (output br)
              (required_size c 0%Z (length run)) = Some granted)
    (Htr : transform c run 0%Z granted = (rc, written, ctx))
    (Hrc : rc <> 0%Z) (Hw : written <> []) (Hfit : length written <= granted) :
  exists c',
    ss_relay_connected RelaySide c = Some c' /\
    state c' = ss_connected /\
    get_evbuffer c' (output_of RelaySide) = Some (output br ++ [written]) /\
    get_evbuffer c' (input_of ClientSide) = Some (evbuffer_drain rest 0) /\
    payload c' = payload (with_dir_ctx c 0%Z ctx) /\
    effects c' = effects c /\
    (ev_test (client_evshut c) EV_READ = false ->
     reads_enabled c' ClientSide = true).
Proof.
  rewrite (ss_relay_connected_then_flush c cw br Hrelay Hnew Hok Hstart).
  rewrite Hin.
  assert (Hlen : (evbuffer_get_length (run :: rest) =? 0)%nat = false).
  { apply Nat.eqb_neq. unfold evbuffer_get_length, evbuffer_bytes.
    cbn [concat]. rewrite length_app. destruct run; [congruence|].
    cbn [length]. lia. }
  rewrite Hlen. cbn [negb].
  set (c2 := relay_started c br) in *.
  set (cs := redsocks_touch_client c2) in *.
  set (bf := set_callbacks (client c) cb_ss_client_readcb
               cb_ss_client_writecb cb_redsocks_event_error).
  set (bt := set_callbacks (set_timeouts br None None) cb_ss_relay_readcb
               cb_ss_relay_writecb cb_redsocks_event_error).
  assert (Hf2 : bev_of c2 ClientSide = Some bf)
    by (destruct c; reflexivity).
  assert (Ht2 : bev_of c2 RelaySide = Some bt)
    by (destruct c; reflexivity).
  assert (Hfs : bev_of cs ClientSide = Some bf)
    by (unfold cs; now rewrite bev_of_touch).
  assert (Hts : bev_of cs RelaySide = Some bt)
    by (unfold cs; now rewrite bev_of_touch).
  assert (Hpay : payload cs = payload c) by (destruct c; reflexivity).
  assert (Hst : state cs = ss_connected) by (destruct c; reflexivity).
  assert (Heff : effects cs = effects c) by (destruct c; reflexivity).
  assert (Hshut : client_evshut cs = client_evshut c)
    by (destruct c; reflexivity).
  pose proof (write_handler_after_helper RelaySide c2 cs bf bt 0%Z
                Hf2 Ht2 Hhelper) as Hw2.
  cbn [write_handler peer] in Hw2. rewrite Hw2. clear Hw2.
  cbn [Z.eqb negb]. rewrite Hst. cbn [Z.eqb ss_connected Pos.eqb].
  rewrite Hts. cbn [bind].
  change (output bt) with (output br). change (get_write_hwm bt)
    with (get_write_hwm br).
  apply Nat.ltb_lt in Hbelow. rewrite Hbelow.
  change (input bf) with (input (client c)). rewrite Hin.
  cbn [evbuffer_get_contiguous_space].
  assert (Hrl : (length run =? 0)%nat = false)
    by (apply Nat.eqb_neq; destruct run; [congruence|discriminate]).
  rewrite Hrl. cbn [negb].
  rewrite <- (required_size_by_payload cs c 0%Z (length run) Hpay) in Hreq, Hres.
  rewrite <- (transform_by_payload cs c run 0%Z granted Hpay) in Htr.
  destruct (pump_success ClientSide ClientSide RelaySide cs bf bt run rest
              granted rc written ctx Hfs Hts Hin Hne Hreq Hres Htr Hrc Hw Hfit)
    as (c3 & Hp & Hin3 & Hout3 & Hpay3).
  rewrite Hp. cbn [bind].
  destruct (pump_frame ClientSide cs ClientSide RelaySide bf bt Hfs Hts)
    as (c3' & Hp' & Hctl & _).
  assert (c3' = c3) by congruence. subst c3'.
  pose proof (control_status _ _ Hctl) as Hs3.
  assert (Hpay3' : payload c3 = payload (with_dir_ctx c 0%Z ctx)).
  { rewrite Hpay3. unfold with_dir_ctx. cbn [payload set_payload decrypt_flag].
    now rewrite Hpay. }
  rewrite (status_evshut _ _ ClientSide Hs3). cbn [evshut_of].
  rewrite Hshut.
  destruct (ev_test (client_evshut c) EV_READ) eqn:Hsh; cbn [negb].
  - exists c3. split; [reflexivity|].
    split; [now rewrite (status_state _ _ Hs3)|].
    split; [exact Hout3|]. split; [exact Hin3|]. split; [exact Hpay3'|].
    split; [now rewrite (status_effects _ _ Hs3)|discriminate].
  - destruct (control_bev_some _ c3 ClientSide bf Hctl Hfs) as (b3 & Hb3 & _).
    destruct (bufferevent_enable_frame c3 ClientSide EV_READ b3 Hb3)
      as (c' & Hen & Hs' & Hpay' & Hq' & _).
    rewrite Hen. exists c'. split; [reflexivity|].
    split; [now rewrite (status_state _ _ Hs'), (status_state _ _ Hs3)|].
    split; [now rewrite Hq'|]. split; [now rewrite Hq'|].
    split; [now rewrite Hpay'|].
    split; [now rewrite (status_effects _ _ Hs'), (status_effects _ _ Hs3)|].
    intros _. eapply reads_enabled_after_enable; eassumption.
Qed.

End EarlyBytes.

(** ** Concrete runs of the further properties *)

(** X1, witness: a read event on the client of a connection still in
    state NEW. *)
Lemma stray_event_drops_witness :
  bev_of Toy.fresh ClientSide = Some (Toy.stream [Toy.hello] [] EV_READ 100) /\
  bev_of Toy.fresh (peer ClientSide) = Some (Toy.stream [] [] EV_WRITE 100) /\
  state Toy.fresh <> ss_connected /\
  exists c',
    @read_handler Toy.cipher Toy.fw ClientSide ClientSide Toy.fresh = Some c' /\
    c' = redsocks_drop_client (redsocks_touch_client Toy.fresh) /\
    dropped c' /\ state c' = state Toy.fresh /\
    e_ctx_init (payload c') = 0%Z /\ d_ctx_init (payload c') = 0%Z /\
    (forall r, get_evbuffer c' r = get_evbuffer Toy.fresh r) /\
    (forall x, enabled_of c' x = enabled_of Toy.fresh x).
Proof.
  assert (H1 : bev_of Toy.fresh ClientSide
               = Some (Toy.stream [Toy.hello] [] EV_READ 100)) by reflexivity.
  assert (H2 : bev_of Toy.fresh (peer ClientSide)
               = Some (Toy.stream [] [] EV_WRITE 100)) by reflexivity.
  assert (H3 : state Toy.fresh <> ss_connected) by discriminate.
  split; [exact H1|]. split; [exact H2|]. split; [exact H3|].
  exact (proj1 (@stray_event_drops Toy.cipher Toy.fw ClientSide Toy.fresh
                  _ _ H1 H2 H3)).
Defined.

(** X2, witness: the fresh connection when [redsocks_start_relay] fails. *)
Lemma relay_connect_failure_witness :
  relay Toy.fresh = Some (Toy.stream [] [] EV_WRITE 100) /\
  state Toy.fresh = ss_new /\
  exists cw,
    @ss_relay_connected Toy.cipher (Toy.framework true (-1)%Z (None, 0))
      RelaySide Toy.fresh = Some cw /\
    dropped cw.
Proof.
  assert (H1 : relay Toy.fresh = Some (Toy.stream [] [] EV_WRITE 100))
    by reflexivity.
  assert (H2 : state Toy.fresh = ss_new) by reflexivity.
  split; [exact H1|]. split; [exact H2|].
  eexists. split.
  - apply (proj2 (@relay_connect_failure_pumps_nothing Toy.cipher
                    (Toy.framework true (-1)%Z (None, 0)) Toy.fresh _ H1 H2)
             _ (-1)%Z).
    + vm_compute. discriminate.
    + reflexivity.
    + discriminate.
  - apply dropped_after_drop.
Defined.

(** X3, witness: the accepted connection with a connect helper that
    returns no relay stream. *)
Lemma connect_relay_releases_witness :
  e_ctx_init (payload Toy.accepted) = 0%Z /\
  d_ctx_init (payload Toy.accepted) = 0%Z /\
  snd (@ss_connect_relay Toy.cipher Toy.fw Toy.accepted) = (-1)%Z /\
  effects (fst (@ss_connect_relay Toy.cipher Toy.fw Toy.accepted))
  = [eff_enc_ctx_free the_e_ctx; eff_enc_ctx_free the_d_ctx; eff_drop_client].
Proof.
  assert (H1 : e_ctx_init (payload Toy.accepted) = 0%Z) by reflexivity.
  assert (H2 : d_ctx_init (payload Toy.accepted) = 0%Z) by reflexivity.
  split; [exact H1|]. split; [exact H2|].
  assert (Hr : snd (@ss_connect_relay Toy.cipher Toy.fw Toy.accepted)
               = (-1)%Z) by reflexivity.
  split; [exact Hr|].
  destruct (@connect_relay_releases_what_it_initialised Toy.cipher Toy.fw
              Toy.accepted H1 H2) as (_ & _ & _ & _ & Hfail).
  destruct (Hfail Hr) as (_ & _ & Heff).
  exact Heff.
Defined.

(** X4, witness: two pump runs on the connection with two pending
    chains. *)
Lemma pump_twice_in_order_witness :
  bev_of Toy.flowing ClientSide
  = Some (Toy.stream [Toy.hello; Toy.hello] [] EV_READ 100) /\
  bev_of Toy.flowing RelaySide = Some (Toy.stream [Toy.hello] [] EV_READ 100) /\
  Toy.hello <> [] /\
  @transform Toy.cipher Toy.flowing Toy.hello (decrypt_flag ClientSide) 21
  = (1%Z, map Toy.flip Toy.hello, Some 5) /\
  @transform Toy.cipher
    (with_dir_ctx Toy.flowing (decrypt_flag ClientSide) (Some 5))
    Toy.hello (decrypt_flag ClientSide) 21
  = (1%Z, map Toy.flip Toy.hello, Some 10) /\
  exists c1 c2,
    @pump Toy.cipher Toy.fw ClientSide Toy.flowing ClientSide RelaySide
    = Some c1 /\
    @pump Toy.cipher Toy.fw ClientSide c1 ClientSide RelaySide = Some c2 /\
    get_evbuffer c2 (output_of RelaySide)
    = Some ([] ++ [map Toy.flip Toy.hello; map Toy.flip Toy.hello]) /\
    get_evbuffer c2 (input_of ClientSide) = Some (evbuffer_drain [] 0) /\
    payload c2
    = payload (with_dir_ctx Toy.flowing (decrypt_flag ClientSide) (Some 10)).
Proof.
  assert (H1 : bev_of Toy.flowing ClientSide
               = Some (Toy.stream [Toy.hello; Toy.hello] [] EV_READ 100))
    by reflexivity.
  assert (H2 : bev_of Toy.flowing RelaySide
               = Some (Toy.stream [Toy.hello] [] EV_READ 100)) by reflexivity.
  assert (H3 : Toy.hello <> []) by discriminate.
  assert (H4 : @transform Toy.cipher Toy.flowing Toy.hello
                 (decrypt_flag ClientSide) 21
               = (1%Z, map Toy.flip Toy.hello, Some 5)) by reflexivity.
  assert (H5 : @transform Toy.cipher
                 (with_dir_ctx Toy.flowing (decrypt_flag ClientSide) (Some 5))
                 Toy.hello (decrypt_flag ClientSide) 21
               = (1%Z, map Toy.flip Toy.hello, Some 10)) by reflexivity.
  split; [exact H1|]. split; [exact H2|]. split; [exact H3|].
  split; [exact H4|]. split; [exact H5|].
  apply (@pump_twice_in_order Toy.cipher Toy.fw ClientSide ClientSide RelaySide
           Toy.flowing _ _ Toy.hello Toy.hello [] 21 21 1%Z 1%Z
           (map Toy.flip Toy.hello) (map Toy.flip Toy.hello)
           (Some 5) (Some 10) H1 H2 eq_refl H3 H3).
  - discriminate.
  - reflexivity.
  - exact H4.
  - discriminate.
  - discriminate.
  - vm_compute. lia.
  - discriminate.
  - reflexivity.
  - exact H5.
  - discriminate.
  - discriminate.
  - vm_compute. lia.
Defined.

(** X5, witness: one pump run on the same connection. *)
Lemma pump_stays_in_its_direction_witness :
  bev_of Toy.flowing ClientSide
  = Some (Toy.stream [Toy.hello; Toy.hello] [] EV_READ 100) /\
  bev_of Toy.flowing RelaySide = Some (Toy.stream [Toy.hello] [] EV_READ 100) /\
  exists c',
    @pump Toy.cipher Toy.fw ClientSide Toy.flowing ClientSide RelaySide
    = Some c' /\
    control c' = control Toy.flowing /\
    (forall r, r <> input_of ClientSide -> r <> output_of RelaySide ->
               get_evbuffer c' r = get_evbuffer Toy.flowing r) /\
    (ClientSide = ClientSide ->
     d_ctx (payload c') = d_ctx (payload Toy.flowing)) /\
    (ClientSide = RelaySide ->
     e_ctx (payload c') = e_ctx (payload Toy.flowing)).
Proof.
  assert (H1 : bev_of Toy.flowing ClientSide
               = Some (Toy.stream [Toy.hello; Toy.hello] [] EV_READ 100))
    by reflexivity.
  assert (H2 : bev_of Toy.flowing RelaySide
               = Some (Toy.stream [Toy.hello] [] EV_READ 100)) by reflexivity.
  split; [exact H1|]. split; [exact H2|].
  exact (@pump_stays_in_its_direction Toy.cipher Toy.fw ClientSide ClientSide
           RelaySide Toy.flowing _ _ H1 H2).
Defined.

(** X6, witness: a read event on the client of that connection. *)
Lemma read_event_never_drops_witness :
  bev_of Toy.flowing ClientSide
  = Some (Toy.stream [Toy.hello; Toy.hello] [] EV_READ 100) /\
  bev_of Toy.flowing (peer ClientSide)
  = Some (Toy.stream [Toy.hello] [] EV_READ 100) /\
  state Toy.flowing = ss_connected /\
  exists c',
    @read_handler Toy.cipher Toy.fw ClientSide ClientSide Toy.flowing
    = Some c' /\
    status c' = status Toy.flowing /\
    state c' = ss_connected /\ effects c' = effects Toy.flowing /\
    enabled_of c' (peer ClientSide) = enabled_of Toy.flowing (peer ClientSide).
Proof.
  assert (H1 : bev_of Toy.flowing ClientSide
               = Some (Toy.stream [Toy.hello; Toy.hello] [] EV_READ 100))
    by reflexivity.
  assert (H2 : bev_of Toy.flowing (peer ClientSide)
               = Some (Toy.stream [Toy.hello] [] EV_READ 100)) by reflexivity.
  assert (H3 : state Toy.flowing = ss_connected) by reflexivity.
  split; [exact H1|]. split; [exact H2|]. split; [exact H3|].
  exact (@read_event_never_drops Toy.cipher Toy.fw ClientSide Toy.flowing
           _ _ H1 H2 H3).
Defined.

(** X7, witness: a write-completion event on the relay of the idle
    connection. *)
Lemma write_event_nothing_pending_witness :
  bev_of Toy.idle (peer RelaySide) = Some (Toy.stream [] [] 0%Z 100) /\
  bev_of Toy.idle RelaySide = Some (Toy.stream [] [] EV_READ 100) /\
  evbuffer_get_contiguous_space (input (Toy.stream [] [] 0%Z 100)) = 0 /\
  @process_shutdown_on_write_ Toy.cipher Toy.fw
    (redsocks_touch_client Toy.idle) (peer RelaySide) RelaySide
  = (redsocks_touch_client Toy.idle, 0%Z) /\
  state (redsocks_touch_client Toy.idle) = ss_connected /\
  evbuffer_get_length (output (Toy.stream [] [] EV_READ 100)) < 100 /\
  exists c',
    @write_handler Toy.cipher Toy.fw RelaySide RelaySide Toy.idle = Some c' /\
    payload c' = payload (redsocks_touch_client Toy.idle) /\
    (forall r, get_evbuffer c' r
               = get_evbuffer (redsocks_touch_client Toy.idle) r) /\
    status c' = status (redsocks_touch_client Toy.idle) /\
    bev_of c' RelaySide = bev_of (redsocks_touch_client Toy.idle) RelaySide /\
    (ev_test (evshut_of (redsocks_touch_client Toy.idle) (peer RelaySide))
             EV_READ = true -> c' = redsocks_touch_client Toy.idle) /\
    (ev_test (evshut_of (redsocks_touch_client Toy.idle) (peer RelaySide))
             EV_READ = false ->
     c' = put_bev (redsocks_touch_client Toy.idle) (peer RelaySide)
            (set_enabled (Toy.stream [] [] 0%Z 100)
               (Z.lor (enabled (Toy.stream [] [] 0%Z 100)) EV_READ)) /\
     bufferevent_enable (redsocks_touch_client Toy.idle) (peer RelaySide)
       EV_READ = Some c' /\
     bev_of c' (peer RelaySide)
     = Some (set_enabled (Toy.stream [] [] 0%Z 100)
               (Z.lor (enabled (Toy.stream [] [] 0%Z 100)) EV_READ)) /\
     reads_enabled c' (peer RelaySide) = true).
Proof.
  assert (H1 : bev_of Toy.idle (peer RelaySide)
               = Some (Toy.stream [] [] 0%Z 100)) by reflexivity.
  assert (H2 : bev_of Toy.idle RelaySide = Some (Toy.stream [] [] EV_READ 100))
    by reflexivity.
  assert (H3 : evbuffer_get_contiguous_space
                 (input (Toy.stream [] [] 0%Z 100)) = 0) by reflexivity.
  assert (H4 : @process_shutdown_on_write_ Toy.cipher Toy.fw
                 (redsocks_touch_client Toy.idle) (peer RelaySide) RelaySide
               = (redsocks_touch_client Toy.idle, 0%Z)) by reflexivity.
  assert (H5 : state (redsocks_touch_client Toy.idle) = ss_connected)
    by reflexivity.
  assert (H6 : evbuffer_get_length (output (Toy.stream [] [] EV_READ 100))
               < 100) by (vm_compute; lia).
  split; [exact H1|]. split; [exact H2|]. split; [exact H3|].
  split; [exact H4|]. split; [exact H5|]. split; [exact H6|].
  exact (@write_event_nothing_pending Toy.cipher Toy.fw RelaySide Toy.idle
           (redsocks_touch_client Toy.idle) _ _
           (Toy.stream [] [] 0%Z 100) (Toy.stream [] [] EV_READ 100)
           H1 H2 H3 H4 eq_refl eq_refl H5 H6).
Defined.

(** X8, witness: the accepted connection with a connect helper that
    returns a relay stream. *)
Lemma teardown_after_connect_witness :
  e_ctx_init (payload Toy.accepted) = 0%Z /\
  d_ctx_init (payload Toy.accepted) = 0%Z /\
  @ss_connect_relay Toy.cipher
    (Toy.framework true 0%Z (Some (Toy.stream [] [] EV_WRITE 100), 0))
    Toy.accepted
  = (set_relay (handshake_built Toy.accepted (Some 7) (Some 0))
       (Some (Toy.stream [] [] EV_WRITE 100)), 0%Z) /\
  effects (ss_client_fini
             (set_relay (handshake_built Toy.accepted (Some 7) (Some 0))
                (Some (Toy.stream [] [] EV_WRITE 100))))
  = effects Toy.accepted
    ++ [eff_enc_ctx_free the_e_ctx; eff_enc_ctx_free the_d_ctx].
Proof.
  assert (H1 : e_ctx_init (payload Toy.accepted) = 0%Z) by reflexivity.
  assert (H2 : d_ctx_init (payload Toy.accepted) = 0%Z) by reflexivity.
  assert (H3 : @ss_connect_relay Toy.cipher
                 (Toy.framework true 0%Z
                    (Some (Toy.stream [] [] EV_WRITE 100), 0))
                 Toy.accepted
               = (set_relay (handshake_built Toy.accepted (Some 7) (Some 0))
                    (Some (Toy.stream [] [] EV_WRITE 100)), 0%Z))
    by reflexivity.
  split; [exact H1|]. split; [exact H2|]. split; [exact H3|].
  exact (proj1 (@teardown_after_connect Toy.cipher
                  (Toy.framework true 0%Z
                     (Some (Toy.stream [] [] EV_WRITE 100), 0))
                  Toy.accepted _ H1 H2 H3)).
Defined.

(** X9, witness: [encrypt_mem] called with a zero length. *)
Lemma encrypt_mem_noop_witness :
  (0 = 0 \/ Some Toy.hello = None \/
   @required_size Toy.cipher Toy.flowing 0%Z 0 = 0 \/
   exists out,
     get_evbuffer Toy.flowing (output_of RelaySide) = Some out /\
     @evbuffer_reserve_space Toy.cipher Toy.fw out
       (@required_size Toy.cipher Toy.flowing 0%Z 0) = None) /\
  @encrypt_mem Toy.cipher Toy.fw Toy.flowing (Some Toy.hello) 0
    (output_of RelaySide) 0%Z = Some Toy.flowing.
Proof.
  assert (H1 : 0 = 0 \/ Some Toy.hello = None \/
               @required_size Toy.cipher Toy.flowing 0%Z 0 = 0 \/
               exists out,
                 get_evbuffer Toy.flowing (output_of RelaySide) = Some out /\
                 @evbuffer_reserve_space Toy.cipher Toy.fw out
                   (@required_size Toy.cipher Toy.flowing 0%Z 0) = None)
    by (left; reflexivity).
  split; [exact H1|].
  exact (@encrypt_mem_noop Toy.cipher Toy.fw Toy.flowing (Some Toy.hello) 0
           (output_of RelaySide) 0%Z H1).
Defined.

(** X10, witness: the fresh connection, whose client has already sent
    five bytes. *)
Lemma relay_connected_forwards_early_bytes_witness :
  relay Toy.fresh = Some (Toy.stream [] [] EV_WRITE 100) /\
  state Toy.fresh = ss_new /\
  input (client Toy.fresh) = [Toy.hello] /\
  @process_shutdown_on_write_ Toy.cipher Toy.fw
    (redsocks_touch_client
       (relay_started Toy.fresh (Toy.stream [] [] EV_WRITE 100)))
    ClientSide RelaySide
  = (redsocks_touch_client
       (relay_started Toy.fresh (Toy.stream [] [] EV_WRITE 100)), 0%Z) /\
  @transform Toy.cipher Toy.fresh Toy.hello 0%Z 21
  = (1%Z, map Toy.flip Toy.hello, Some 5) /\
  exists c',
    @ss_relay_connected Toy.cipher Toy.fw RelaySide Toy.fresh = Some c' /\
    state c' = ss_connected /\
    get_evbuffer c' (output_of RelaySide)
    = Some ([] ++ [map Toy.flip Toy.hello]) /\
    get_evbuffer c' (input_of ClientSide) = Some (evbuffer_drain [] 0) /\
    payload c' = payload (with_dir_ctx Toy.fresh 0%Z (Some 5)) /\
    effects c' = effects Toy.fresh /\
    (ev_test (client_evshut Toy.fresh) EV_READ = false ->
     reads_enabled c' ClientSide = true).
Proof.
  assert (H1 : relay Toy.fresh = Some (Toy.stream [] [] EV_WRITE 100))
    by reflexivity.
  assert (H2 : state Toy.fresh = ss_new) by reflexivity.
  assert (H3 : input (client Toy.fresh) = [Toy.hello]) by reflexivity.
  assert (H4 : @process_shutdown_on_write_ Toy.cipher Toy.fw
                 (redsocks_touch_client
                    (relay_started Toy.fresh (Toy.stream [] [] EV_WRITE 100)))
                 ClientSide RelaySide
               = (redsocks_touch_client
                    (relay_started Toy.fresh (Toy.stream [] [] EV_WRITE 100)),
                  0%Z)) by reflexivity.
  assert (H5 : @transform Toy.cipher Toy.fresh Toy.hello 0%Z 21
               = (1%Z, map Toy.flip Toy.hello, Some 5)) by reflexivity.
  assert (H6 : @redsocks_start_relay Toy.cipher Toy.fw
                 (relay_marked_connected Toy.fresh
                    (Toy.stream [] [] EV_WRITE 100))
               = Some (fst (match @redsocks_start_relay Toy.cipher Toy.fw
                                    (relay_marked_connected Toy.fresh
                                       (Toy.stream [] [] EV_WRITE 100)) with
                            | Some r => r
                            | None => (Toy.fresh, 0%Z)
                            end), 0%Z))
    by reflexivity.
  split; [exact H1|]. split; [exact H2|]. split; [exact H3|].
  split; [exact H4|]. split; [exact H5|].
  eapply (@relay_connected_forwards_early_bytes Toy.cipher Toy.fw Toy.fresh
            _ _ Toy.hello [] 21 1%Z (map Toy.flip Toy.hello) (Some 5)
            H1 H2).
  - vm_compute. discriminate.
  - exact H6.
  - exact H3.
  - discriminate.
  - exact H4.
  - vm_compute. lia.
  - discriminate.
  - reflexivity.
  - exact H5.
  - discriminate.
  - discriminate.
  - vm_compute. lia.
Defined.
